(** * photo-product-app: mock services and persisted state containers

    A shallow embedding of [src/services/api.ts] (ProductService,
    AuthService, MyProductsService) and of the three React context
    providers [CartContext.tsx], [FavoritesContext.tsx] and
    [NotificationContext.tsx], with the properties the specification
    states about them.

    Conventions of the embedding.
    - A JavaScript [number] that the code uses as a count, an index or a
      quantity is a [Z]; [Math.ceil] of a quotient can also be an
      infinity or NaN, see [JS.number].  [Product.price] is a finite
      amount carried as a [Z]: nothing below computes with it.  The
      sums of the code are sums of doubles, which are the sums in [Z]
      while the values stay within [Number.MAX_SAFE_INTEGER]: a theorem
      about a sum assumes it ([exact_sum]).
    - Strings are [string]s of 8-bit characters; [toLowerCase] maps the
      ASCII letters and leaves the other characters alone, [length]
      counts the characters and the white space is that of ASCII.  This
      is what the built-ins do on ASCII text: a theorem that depends on
      the case of letters, on a length or on white space assumes ASCII
      text ([ascii_only]).
    - Static class fields ([ProductService.products], [AuthService.users]),
      React state cells and AsyncStorage are fields of an explicit state,
      threaded by the monad [Eff]; a thrown [Error] is the left summand.
      The [setTimeout] delays of the mock services carry no state and are
      dropped.
    - faker and the clock are oracles that are part of the state. *)

From Stdlib Require Import ZArith Ascii Lia.
From stdpp Require Import base option list strings pretty gmap.

Local Open Scope string_scope.
Local Open Scope list_scope.
Local Open Scope Z_scope.

(** ** The effect monad *)

Definition Error : Type := string.

Definition Eff (S A : Type) : Type := S → (Error + A) * S.

#[global] Instance Eff_ret {S} : MRet (Eff S) :=
  λ A (a : A) (s : S), (inr a, s).

#[global] Instance Eff_bind {S} : MBind (Eff S) :=
  λ A B (k : A → Eff S B) (m : Eff S A) (s : S),
    match m s with
    | (inl e, s') => (inl e, s')
    | (inr a, s') => k a s'
    end.

Definition gets {S A} (f : S → A) : Eff S A := λ s, (inr (f s), s).
Definition modify {S} (f : S → S) : Eff S unit := λ s, (inr tt, f s).
Definition throw {S A} (e : Error) : Eff S A := λ s, (inl e, s).

(** The state an effectful call leaves behind, and what it returned. *)
Definition exec {S A} (m : Eff S A) (s : S) : S := (m s).2.
Definition result {S A} (m : Eff S A) (s : S) : Error + A := (m s).1.

(** ** JavaScript built-ins used by the sources *)

Module JS.

(** The values [Math.ceil(a / b)] takes for integers [a], [b]. *)
Inductive number : Type :=
| Num (z : Z)
| Infinity
| NegInfinity
| NaN.

(** [Math.ceil(a / b)]: the quotient of two integers, rounded up;
    division by zero gives an infinity, [0 / 0] gives NaN. *)
Definition Math_ceil_div (a b : Z) : number :=
  if b =? 0 then
    if a =? 0 then NaN else if 0 <? a then Infinity else NegInfinity
  else Num (- ((- a) / b)).

(** [Array.prototype.slice(start, end)]: negative indices count from
    the end, both are clamped to the length, and an empty range gives
    the empty array. *)
Definition slice {A} (xs : list A) (start end_ : Z) : list A :=
  let len := Z.of_nat (length xs) in
  let k := if start <? 0 then Z.max (len + start) 0 else Z.min start len in
  let final := if end_ <? 0 then Z.max (len + end_) 0 else Z.min end_ len in
  take (Z.to_nat (Z.max (final - k) 0)) (drop (Z.to_nat k) xs).

(** [Array.prototype.findIndex]: index of the first element satisfying
    the predicate, or [-1]. *)
Definition findIndex {A} (P : A → Prop) `{!∀ x, Decision (P x)}
    (xs : list A) : Z :=
  match list_find P xs with
  | Some (i, _) => Z.of_nat i
  | None => -1
  end.

(** [Array.prototype.find]: the first element satisfying the
    predicate, or [undefined]. *)
Definition find {A} (P : A → Prop) `{!∀ x, Decision (P x)}
    (xs : list A) : option A :=
  snd <$> list_find P xs.

(** [Array.prototype.some]. *)
Definition some {A} (P : A → Prop) `{!∀ x, Decision (P x)}
    (xs : list A) : bool :=
  bool_decide (Exists P xs).

Definition is_upper (c : ascii) : bool :=
  (65 <=? nat_of_ascii c)%nat && (nat_of_ascii c <=? 90)%nat.

Definition lower_char (c : ascii) : ascii :=
  if is_upper c then ascii_of_nat (nat_of_ascii c + 32) else c.

(** [String.prototype.toLowerCase] on ASCII text. *)
Fixpoint toLowerCase (s : string) : string :=
  match s with
  | EmptyString => EmptyString
  | String c s' => String (lower_char c) (toLowerCase s')
  end.

(** [q] is an initial segment of [s]. *)
Fixpoint startsWith (s q : string) : bool :=
  match q, s with
  | EmptyString, _ => true
  | String _ _, EmptyString => false
  | String a q', String b s' => bool_decide (a = b) && startsWith s' q'
  end.

(** [String.prototype.includes]: [q] occurs in [s] at some position. *)
Fixpoint includes (s q : string) : bool :=
  startsWith s q ||
  match s with
  | EmptyString => false
  | String _ s' => includes s' q
  end.

End JS.

(** ** Data model ([src/types/index.ts]) *)

(** A field declared [Date].  The services build it with [new Date()]
    or faker ([DateObject t], [t] the time value in milliseconds); after
    a trip through JSON the same field holds the ISO-8601 text of the
    date ([DateText]). *)
Inductive Date : Type :=
| DateObject (t : Z)
| DateText (s : string).

#[global] Instance Date_eq_dec : EqDecision Date.
Proof. solve_decision. Defined.

Module User.
Record t : Type := mk {
  id : string;
  email : string;
  name : string;
  phone : option string;
  profileImage : option string;
  createdAt : Date;
  updatedAt : Date;
}.
End User.

Module Product.
Record t : Type := mk {
  id : string;
  name : string;
  description : string;
  price : Z;
  image : string;
  category : string;
  inStock : bool;
  createdAt : Date;
  updatedAt : Date;
}.
End Product.

Module NotificationData.
Inductive type : Type := info | success | warning | error.

Record t : Type := mk {
  id : string;
  title : string;
  message : string;
  type_ : type;
  read : bool;
  createdAt : Date;
}.
End NotificationData.

Module PaginatedResponse.
Record t (T : Type) : Type := mk {
  data : list T;
  page : Z;
  limit : Z;
  total : Z;
  totalPages : JS.number;
}.
Arguments mk {T}.
Arguments data {T}.
Arguments page {T}.
Arguments limit {T}.
Arguments total {T}.
Arguments totalPages {T}.
End PaginatedResponse.

(** [interface CartItem] of [CartContext.tsx]. *)
Module CartItem.
Record t : Type := mk {
  product : Product.t;
  quantity : Z;
}.
End CartItem.

(** ** JSON documents and AsyncStorage *)

(** The text that [JSON.stringify] produces and AsyncStorage keeps is
    represented by the JSON document it denotes. *)
#[local] Unset Elimination Schemes.
Inductive json : Type :=
| JNull
| JBool (b : bool)
| JNumber (n : Z)
| JString (s : string)
| JArray (items : list json)
| JObject (fields : list (string * json)).
#[local] Set Elimination Schemes.

(** [JSON.stringify] / [JSON.parse] at the type a value is declared with.
    [fromJSON] is [None] where [JSON.parse] does not give a value of that
    shape. *)
Class JSON (A : Type) : Type := {
  toJSON : A → json;
  fromJSON : json → option A;
}.

Definition JSON_stringify {A} `{JSON A} (a : A) : json := toJSON a.
Definition JSON_parse {A} `{JSON A} (text : json) : option A := fromJSON text.
Arguments JSON_stringify : simpl never.
Arguments JSON_parse : simpl never.

(** [Date.prototype.toISOString], which [JSON.stringify] calls through
    [Date.prototype.toJSON]. *)
Module ISO.

Definition digits (width : nat) (n : Z) : string :=
  let s := pretty (Z.to_N n) in
  String.concat "" (replicate (width - String.length s) "0") +:+ s.

(** Year, month and day of the proleptic Gregorian calendar for a day
    count since 1970-01-01. *)
Definition civil (day : Z) : Z * Z * Z :=
  let z := day + 719468 in
  let era := z / 146097 in
  let doe := z - era * 146097 in
  let yoe := (doe - doe / 1460 + doe / 36524 - doe / 146096) / 365 in
  let doy := doe - (365 * yoe + yoe / 4 - yoe / 100) in
  let mp := (5 * doy + 2) / 153 in
  let d := doy - (153 * mp + 2) / 5 + 1 in
  let m := if mp <? 10 then mp + 3 else mp - 9 in
  let y := yoe + era * 400 in
  (if m <=? 2 then y + 1 else y, m, d).

Definition year (y : Z) : string :=
  if (0 <=? y) && (y <=? 9999) then digits 4 y
  else (if y <? 0 then "-" else "+") +:+ digits 6 (Z.abs y).

Definition toISOString (t : Z) : string :=
  let '(y, m, d) := civil (t / 86400000) in
  let ms := t mod 86400000 in
  year y +:+ "-" +:+ digits 2 m +:+ "-" +:+ digits 2 d +:+ "T" +:+
  digits 2 (ms / 3600000) +:+ ":" +:+ digits 2 (ms / 60000 mod 60) +:+ ":" +:+
  digits 2 (ms / 1000 mod 60) +:+ "." +:+ digits 3 (ms mod 1000) +:+ "Z".

End ISO.

Definition field (k : string) (fields : list (string * json)) : option json :=
  match list_find (λ kv : string * json, kv.1 = k) fields with
  | Some (_, (_, v)) => Some v
  | None => None
  end.

Definition as_string (j : json) : option string :=
  match j with JString s => Some s | _ => None end.
Definition as_number (j : json) : option Z :=
  match j with JNumber n => Some n | _ => None end.
Definition as_bool (j : json) : option bool :=
  match j with JBool b => Some b | _ => None end.

#[global] Instance Date_JSON : JSON Date := {|
  toJSON d := match d with
              | DateObject t => JString (ISO.toISOString t)
              | DateText s => JString s
              end;
  fromJSON j := DateText <$> as_string j;
|}.

#[global] Instance list_JSON {A} `{JSON A} : JSON (list A) := {|
  toJSON l := JArray (toJSON <$> l);
  fromJSON j := match j with
                | JArray items => mapM fromJSON items
                | _ => None
                end;
|}.

#[global] Instance Product_JSON : JSON Product.t := {|
  toJSON p := JObject [
    ("id", JString (Product.id p));
    ("name", JString (Product.name p));
    ("description", JString (Product.description p));
    ("price", JNumber (Product.price p));
    ("image", JString (Product.image p));
    ("category", JString (Product.category p));
    ("inStock", JBool (Product.inStock p));
    ("createdAt", toJSON (Product.createdAt p));
    ("updatedAt", toJSON (Product.updatedAt p)) ];
  fromJSON j :=
    match j with
    | JObject fs =>
        id ← field "id" fs ≫= as_string;
        name ← field "name" fs ≫= as_string;
        description ← field "description" fs ≫= as_string;
        price ← field "price" fs ≫= as_number;
        image ← field "image" fs ≫= as_string;
        category ← field "category" fs ≫= as_string;
        inStock ← field "inStock" fs ≫= as_bool;
        createdAt ← field "createdAt" fs ≫= fromJSON;
        updatedAt ← field "updatedAt" fs ≫= fromJSON;
        Some (Product.mk id name description price image category inStock
                createdAt updatedAt)
    | _ => None
    end;
|}.

#[global] Instance CartItem_JSON : JSON CartItem.t := {|
  toJSON item := JObject [
    ("product", toJSON (CartItem.product item));
    ("quantity", JNumber (CartItem.quantity item)) ];
  fromJSON j :=
    match j with
    | JObject fs =>
        product ← field "product" fs ≫= fromJSON;
        quantity ← field "quantity" fs ≫= as_number;
        Some (CartItem.mk product quantity)
    | _ => None
    end;
|}.

Definition type_to_string (ty : NotificationData.type) : string :=
  match ty with
  | NotificationData.info => "info"
  | NotificationData.success => "success"
  | NotificationData.warning => "warning"
  | NotificationData.error => "error"
  end.

Definition type_of_string (s : string) : option NotificationData.type :=
  if decide (s = "info") then Some NotificationData.info
  else if decide (s = "success") then Some NotificationData.success
  else if decide (s = "warning") then Some NotificationData.warning
  else if decide (s = "error") then Some NotificationData.error
  else None.

#[global] Instance NotificationData_JSON : JSON NotificationData.t := {|
  toJSON n := JObject [
    ("title", JString (NotificationData.title n));
    ("message", JString (NotificationData.message n));
    ("type", JString (type_to_string (NotificationData.type_ n)));
    ("id", JString (NotificationData.id n));
    ("read", JBool (NotificationData.read n));
    ("createdAt", toJSON (NotificationData.createdAt n)) ];
  fromJSON j :=
    match j with
    | JObject fs =>
        id ← field "id" fs ≫= as_string;
        title ← field "title" fs ≫= as_string;
        message ← field "message" fs ≫= as_string;
        ty ← (field "type" fs ≫= as_string) ≫= type_of_string;
        read ← field "read" fs ≫= as_bool;
        createdAt ← field "createdAt" fs ≫= fromJSON;
        Some (NotificationData.mk id title message ty read createdAt)
    | _ => None
    end;
|}.


(** [AsyncStorage]: a key-value store of texts.  [getItem] is the lookup
    and [setItem] the insertion of a finite map: neither rejects, so the
    [catch] branches that only log a failed read or write have no
    counterpart below. *)
Abbreviation AsyncStorage := (gmap string json).

(** ** faker *)

(** The generators of [@faker-js/faker] draw from a source of random
    numbers and of generated texts; each draw moves the cursor. *)
Module Faker.

Record t : Type := mk {
  numbers : nat → nat;
  words : nat → string;
  cursor : nat;
}.

Definition advance (f : t) : t :=
  mk (numbers f) (words f) (S (cursor f)).

Definition word (f : t) : string * t := (words f (cursor f), advance f).

Definition string_uuid := word.
Definition person_fullName := word.
Definition phone_number := word.
Definition image_avatar := word.

Definition alphabet : list ascii :=
  String.list_ascii_of_string
    "0123456789abcdefghijklmnopqrstuvwxyzABCDEFGHIJKLMNOPQRSTUVWXYZ".

Definition pick (f : t) : ascii * t :=
  (nth (numbers f (cursor f) mod 62)%nat alphabet "0"%char, advance f).

(** [faker.string.alphanumeric(n)]: [n] characters, each a digit or a
    letter. *)
Fixpoint string_alphanumeric (n : nat) (f : t) : string * t :=
  match n with
  | O => ("", f)
  | S n' =>
      let '(c, f1) := pick f in
      let '(s, f2) := string_alphanumeric n' f1 in
      (String c s, f2)
  end.

Definition is_alphanumeric (c : ascii) : bool :=
  let k := nat_of_ascii c in
  ((48 <=? k) && (k <=? 57) || (97 <=? k) && (k <=? 122)
   || (65 <=? k) && (k <=? 90))%nat.

Fixpoint all_alphanumeric (s : string) : bool :=
  match s with
  | EmptyString => true
  | String c s' => is_alphanumeric c && all_alphanumeric s'
  end.

Arguments string_alphanumeric : simpl never.

End Faker.

(** ** [src/services/api.ts] *)

(** The module state of [api.ts]: the two static arrays, the storage the
    third service reads and writes, and the oracles. *)
Module Api.
Record t : Type := mk {
  products : list Product.t;
  users : list User.t;
  storage : AsyncStorage;
  faker : Faker.t;
  clock : Z;
}.

Definition set_products (f : list Product.t → list Product.t) (w : t) : t :=
  mk (f (products w)) (users w) (storage w) (faker w) (clock w).
Definition set_users (f : list User.t → list User.t) (w : t) : t :=
  mk (products w) (f (users w)) (storage w) (faker w) (clock w).
Definition set_storage (f : AsyncStorage → AsyncStorage) (w : t) : t :=
  mk (products w) (users w) (f (storage w)) (faker w) (clock w).

(** Run a faker generator on the oracle of the state. *)
Definition fake {A} (g : Faker.t → A * Faker.t) : Eff t A :=
  λ w, let '(a, f') := g (faker w) in
       (inr a, mk (products w) (users w) (storage w) f' (clock w)).

(** [new Date()]. *)
Definition new_Date : Eff t Date := gets (λ w, DateObject (clock w)).
End Api.

Module ProductService.

Definition getProducts (page limit : Z) :
    Eff Api.t (PaginatedResponse.t Product.t) :=
  products ← gets Api.products;
  let startIndex := (page - 1) * limit in
  let endIndex := startIndex + limit in
  let data := JS.slice products startIndex endIndex in
  mret {| PaginatedResponse.data := data;
          PaginatedResponse.page := page;
          PaginatedResponse.limit := limit;
          PaginatedResponse.total := Z.of_nat (length products);
          PaginatedResponse.totalPages :=
            JS.Math_ceil_div (Z.of_nat (length products)) limit |}.

Definition getProduct (id : string) : Eff Api.t (option Product.t) :=
  products ← gets Api.products;
  mret (JS.find (λ product, Product.id product = id) products).

(** [productData] is a product without [id], [createdAt], [updatedAt];
    those three fields of the argument are overwritten. *)
Definition addProduct (productData : Product.t) : Eff Api.t Product.t :=
  id ← Api.fake Faker.string_uuid;
  createdAt ← Api.new_Date;
  updatedAt ← Api.new_Date;
  let newProduct :=
    Product.mk id (Product.name productData)
      (Product.description productData) (Product.price productData)
      (Product.image productData) (Product.category productData)
      (Product.inStock productData) createdAt updatedAt in
  modify (Api.set_products (λ products, newProduct :: products)) ;;
  mret newProduct.

(** The predicate of the [filter] in [searchProducts]. *)
Definition matches (query : string) (product : Product.t) : bool :=
  JS.includes (JS.toLowerCase (Product.name product)) (JS.toLowerCase query)
  || JS.includes (JS.toLowerCase (Product.description product))
       (JS.toLowerCase query)
  || JS.includes (JS.toLowerCase (Product.category product))
       (JS.toLowerCase query).

Definition searchProducts (query : string) (page limit : Z) :
    Eff Api.t (PaginatedResponse.t Product.t) :=
  products ← gets Api.products;
  let filteredProducts :=
    filter (λ product, matches query product = true) products in
  let startIndex := (page - 1) * limit in
  let endIndex := startIndex + limit in
  let data := JS.slice filteredProducts startIndex endIndex in
  mret {| PaginatedResponse.data := data;
          PaginatedResponse.page := page;
          PaginatedResponse.limit := limit;
          PaginatedResponse.total := Z.of_nat (length filteredProducts);
          PaginatedResponse.totalPages :=
            JS.Math_ceil_div (Z.of_nat (length filteredProducts)) limit |}.

End ProductService.

Module AuthService.

Definition login (email password : string) : Eff Api.t (User.t * string) :=
  users ← gets Api.users;
  user ← match JS.find (λ u, User.email u = email) users with
         | Some user => mret user
         | None =>
             id ← Api.fake Faker.string_uuid;
             name ← Api.fake Faker.person_fullName;
             phone ← Api.fake Faker.phone_number;
             profileImage ← Api.fake Faker.image_avatar;
             createdAt ← Api.new_Date;
             updatedAt ← Api.new_Date;
             let user := User.mk id email name (Some phone)
                           (Some profileImage) createdAt updatedAt in
             modify (Api.set_users (λ users, users ++ [user])) ;;
             mret user
         end;
  token ← Api.fake (Faker.string_alphanumeric 64);
  mret (user, token).

Definition register (name email password : string) :
    Eff Api.t (User.t * string) :=
  users ← gets Api.users;
  match JS.find (λ u, User.email u = email) users with
  | Some existingUser => throw "Email já cadastrado"
  | None =>
      id ← Api.fake Faker.string_uuid;
      phone ← Api.fake Faker.phone_number;
      createdAt ← Api.new_Date;
      updatedAt ← Api.new_Date;
      let newUser := User.mk id email name (Some phone) None
                       createdAt updatedAt in
      modify (Api.set_users (λ users, users ++ [newUser])) ;;
      token ← Api.fake (Faker.string_alphanumeric 64);
      mret (newUser, token)
  end.

Definition touch (now : Date) (user : User.t) : User.t :=
  User.mk (User.id user) (User.email user) (User.name user)
    (User.phone user) (User.profileImage user) (User.createdAt user) now.

(** [user.updatedAt = new Date()] assigns to the object that [find]
    returned, which is the element of [users] at the index where it
    was found. *)
Definition resetPassword (email otp newPassword : string) :
    Eff Api.t bool :=
  users ← gets Api.users;
  match list_find (λ u, User.email u = email) users with
  | Some (i, user) =>
      now ← Api.new_Date;
      modify (Api.set_users (λ users, <[i := touch now user]> users)) ;;
      mret true
  | None => mret false
  end.

End AuthService.

Module MyProductsService.

Definition STORAGE_KEY : string := "@photo_product_app:my_products".

(** A text that does not parse makes [JSON.parse] throw; the handler
    returns the empty list. *)
Definition getMyProducts : Eff Api.t (list Product.t) :=
  data ← gets (λ w, Api.storage w !! STORAGE_KEY);
  match data with
  | Some text =>
      match JSON_parse text with
      | Some myProducts => mret myProducts
      | None => mret []
      end
  | None => mret []
  end.

Definition addMyProduct (product : Product.t) : Eff Api.t unit :=
  myProducts ← getMyProducts;
  let myProducts := product :: myProducts in
  modify (Api.set_storage <[STORAGE_KEY := JSON_stringify myProducts]>).

Definition removeMyProduct (productId : string) : Eff Api.t unit :=
  myProducts ← getMyProducts;
  let filteredProducts :=
    filter (λ p, Product.id p ≠ productId) myProducts in
  modify (Api.set_storage <[STORAGE_KEY := JSON_stringify filteredProducts]>).

Definition getMyProductsPaginated (page limit : Z) :
    Eff Api.t (PaginatedResponse.t Product.t) :=
  allProducts ← getMyProducts;
  let startIndex := (page - 1) * limit in
  let endIndex := startIndex + limit in
  let data := JS.slice allProducts startIndex endIndex in
  mret {| PaginatedResponse.data := data;
          PaginatedResponse.page := page;
          PaginatedResponse.limit := limit;
          PaginatedResponse.total := Z.of_nat (length allProducts);
          PaginatedResponse.totalPages :=
            JS.Math_ceil_div (Z.of_nat (length allProducts)) limit |}.

End MyProductsService.

(** ** The context providers

    A provider is its React state cells together with the storage it
    mirrors them to.  An operation is run on the state of the render
    that created it: it reads the cells, sets them, and saves. *)

Module CartContext.

Record t : Type := mk {
  cartItems : list CartItem.t;
  storage : AsyncStorage;
}.

Definition setCartItems (items : list CartItem.t) : Eff t unit :=
  modify (λ c, mk items (storage c)).


Definition saveCart (newCartItems : list CartItem.t) : Eff t unit :=
  modify (λ c, mk (cartItems c)
                  (<["cart" := JSON_stringify newCartItems]> (storage c))).

(** [newCartItems[existingItemIndex].quantity += quantity] updates the
    item at that index of the copied array. *)
Definition addToCart (product : Product.t) (quantity : Z) : Eff t unit :=
  cartItems ← gets cartItems;
  let existingItemIndex :=
    JS.findIndex
      (λ item, Product.id (CartItem.product item) = Product.id product)
      cartItems in
  let newCartItems :=
    if 0 <=? existingItemIndex then
      alter (λ item, CartItem.mk (CartItem.product item)
                       (CartItem.quantity item + quantity))
            (Z.to_nat existingItemIndex) cartItems
    else cartItems ++ [CartItem.mk product quantity] in
  setCartItems newCartItems ;;
  saveCart newCartItems.

Definition removeFromCart (productId : string) : Eff t unit :=
  cartItems ← gets cartItems;
  let newCartItems :=
    filter (λ item, Product.id (CartItem.product item) ≠ productId)
           cartItems in
  setCartItems newCartItems ;;
  saveCart newCartItems.

Definition updateQuantity (productId : string) (quantity : Z) : Eff t unit :=
  if quantity <=? 0 then removeFromCart productId
  else
    cartItems ← gets cartItems;
    let newCartItems :=
      (λ item, if decide (Product.id (CartItem.product item) = productId)
               then CartItem.mk (CartItem.product item) quantity
               else item) <$> cartItems in
    setCartItems newCartItems ;;
    saveCart newCartItems.

Definition clearCart : Eff t unit :=
  setCartItems [] ;;
  saveCart [].

Definition getTotalItems : Eff t Z :=
  cartItems ← gets cartItems;
  mret (foldl (λ total item, total + CartItem.quantity item) 0 cartItems).

Definition getTotalPrice : Eff t Z :=
  cartItems ← gets cartItems;
  mret (foldl (λ total item,
                 total + Product.price (CartItem.product item)
                         * CartItem.quantity item) 0 cartItems).

Definition isInCart (productId : string) : Eff t bool :=
  cartItems ← gets cartItems;
  mret (JS.some (λ item, Product.id (CartItem.product item) = productId)
          cartItems).

End CartContext.

Module FavoritesContext.

Record t : Type := mk {
  favorites : list Product.t;
  storage : AsyncStorage;
}.

Definition setFavorites (items : list Product.t) : Eff t unit :=
  modify (λ c, mk items (storage c)).


Definition saveFavorites (newFavorites : list Product.t) : Eff t unit :=
  modify (λ c, mk (favorites c)
                  (<["favorites" := JSON_stringify newFavorites]> (storage c))).

Definition addToFavorites (product : Product.t) : Eff t unit :=
  favorites ← gets favorites;
  let newFavorites := favorites ++ [product] in
  setFavorites newFavorites ;;
  saveFavorites newFavorites.

Definition removeFromFavorites (productId : string) : Eff t unit :=
  favorites ← gets favorites;
  let newFavorites := filter (λ item, Product.id item ≠ productId) favorites in
  setFavorites newFavorites ;;
  saveFavorites newFavorites.

Definition isFavorite (productId : string) : Eff t bool :=
  favorites ← gets favorites;
  mret (JS.some (λ item, Product.id item = productId) favorites).

Definition toggleFavorite (product : Product.t) : Eff t unit :=
  isFavorite (Product.id product) ≫= λ favorite : bool,
  if favorite then removeFromFavorites (Product.id product)
  else addToFavorites product.

End FavoritesContext.

Module NotificationContext.

Record t : Type := mk {
  notifications : list NotificationData.t;
  unreadCount : Z;
  storage : AsyncStorage;
  clock : Z;
}.

Definition setNotifications (l : list NotificationData.t) : Eff t unit :=
  modify (λ c, mk l (unreadCount c) (storage c) (clock c)).

Definition setUnreadCount (n : Z) : Eff t unit :=
  modify (λ c, mk (notifications c) n (storage c) (clock c)).

Definition updateUnreadCount (notificationList : list NotificationData.t) :
    Eff t unit :=
  let count :=
    Z.of_nat (length (filter (λ n, NotificationData.read n = false)
                             notificationList)) in
  setUnreadCount count.


Definition saveNotifications (newNotifications : list NotificationData.t) :
    Eff t unit :=
  modify (λ c, mk (notifications c) (unreadCount c)
                  (<["notifications" := JSON_stringify newNotifications]>
                     (storage c))
                  (clock c)).

(** [notification] comes without [id], [read] and [createdAt]; the
    three fields of the argument are overwritten. *)
Definition addNotification (notification : NotificationData.t) : Eff t unit :=
  now ← gets clock;
  notifications ← gets notifications;
  let newNotification :=
    NotificationData.mk (pretty now)
      (NotificationData.title notification)
      (NotificationData.message notification)
      (NotificationData.type_ notification)
      false (DateObject now) in
  let updatedNotifications := newNotification :: notifications in
  setNotifications updatedNotifications ;;
  updateUnreadCount updatedNotifications ;;
  saveNotifications updatedNotifications.

Definition markAsRead (id : string) : Eff t unit :=
  notifications ← gets notifications;
  let updatedNotifications :=
    (λ notification,
       if decide (NotificationData.id notification = id)
       then NotificationData.mk (NotificationData.id notification)
              (NotificationData.title notification)
              (NotificationData.message notification)
              (NotificationData.type_ notification)
              true (NotificationData.createdAt notification)
       else notification) <$> notifications in
  setNotifications updatedNotifications ;;
  updateUnreadCount updatedNotifications ;;
  saveNotifications updatedNotifications.

Definition markAllAsRead : Eff t unit :=
  notifications ← gets notifications;
  let updatedNotifications :=
    (λ notification,
       NotificationData.mk (NotificationData.id notification)
         (NotificationData.title notification)
         (NotificationData.message notification)
         (NotificationData.type_ notification)
         true (NotificationData.createdAt notification)) <$> notifications in
  setNotifications updatedNotifications ;;
  setUnreadCount 0 ;;
  saveNotifications updatedNotifications.

Definition clearNotifications : Eff t unit :=
  setNotifications [] ;;
  setUnreadCount 0 ;;
  saveNotifications [].

End NotificationContext.

(** * Callers: the session provider and the list screens *)

(** ** Control flow *)

(** [try { m } catch (error) { h error }]. *)
Definition try_catch {S A} (m : Eff S A) (h : Error → Eff S A) : Eff S A :=
  λ s, match m s with
       | (inl e, s') => h e s'
       | (inr a, s') => (inr a, s')
       end.

(** [try { m } finally { f }]: [f] runs whatever [m] did. *)
Definition try_finally {S A} (m : Eff S A) (f : Eff S unit) : Eff S A :=
  λ s, match m s with
       | (r, s') =>
           match f s' with
           | (inl e, s'') => (inl e, s'')
           | (inr _, s'') => (r, s'')
           end
       end.

(** Run a computation on a part of the state. *)
Definition zoom {S T A} (part : S → T) (update : T → S → S) (m : Eff T A) :
    Eff S A :=
  λ s, match m (part s) with (r, t') => (r, update t' s) end.

(** A string used as a condition: the empty string is false. *)
Definition truthy (s : string) : bool :=
  match s with EmptyString => false | String _ _ => true end.

(** [a < b] for an integer [a] and a value of [Math.ceil]. *)
Definition lt_number (a : Z) (b : JS.number) : bool :=
  match b with
  | JS.Num z => a <? z
  | JS.Infinity => true
  | JS.NegInfinity | JS.NaN => false
  end.

(** ** Users as JSON *)

(** A field that is [undefined] is left out by [JSON.stringify]. *)
Definition optional_field (k : string) (o : option string) :
    list (string * json) :=
  match o with
  | Some s => [(k, JString s)]
  | None => []
  end.

Definition as_optional_string (k : string) (fs : list (string * json)) :
    option (option string) :=
  match field k fs with
  | Some j => Some <$> as_string j
  | None => Some None
  end.

#[global] Instance User_JSON : JSON User.t := {|
  toJSON u := JObject (
    [("id", JString (User.id u));
     ("email", JString (User.email u));
     ("name", JString (User.name u))]
    ++ optional_field "phone" (User.phone u)
    ++ optional_field "profileImage" (User.profileImage u)
    ++ [("createdAt", toJSON (User.createdAt u));
        ("updatedAt", toJSON (User.updatedAt u))]);
  fromJSON j :=
    match j with
    | JObject fs =>
        id ← field "id" fs ≫= as_string;
        email ← field "email" fs ≫= as_string;
        name ← field "name" fs ≫= as_string;
        phone ← as_optional_string "phone" fs;
        profileImage ← as_optional_string "profileImage" fs;
        createdAt ← field "createdAt" fs ≫= fromJSON;
        updatedAt ← field "updatedAt" fs ≫= fromJSON;
        Some (User.mk id email name phone profileImage createdAt updatedAt)
    | _ => None
    end;
|}.

(** ** [src/types/index.ts], continued *)

Module AuthState.
Record t : Type := mk {
  user : option User.t;
  isLoading : bool;
  isAuthenticated : bool;
}.
End AuthState.

Module LoginCredentials.
Record t : Type := mk {
  email : string;
  password : string;
}.
End LoginCredentials.

Module RegisterCredentials.
Record t : Type := mk {
  name : string;
  email : string;
  password : string;
  confirmPassword : string;
}.
End RegisterCredentials.

(** ** [src/contexts/AuthContext.tsx] *)

Module AuthContext.

Inductive AuthAction : Type :=
| SET_LOADING (payload : bool)
| SET_USER (payload : option User.t)
| LOGIN_SUCCESS (payload : User.t)
| LOGOUT.

Definition authReducer (state : AuthState.t) (action : AuthAction) :
    AuthState.t :=
  match action with
  | SET_LOADING payload =>
      AuthState.mk (AuthState.user state) payload
        (AuthState.isAuthenticated state)
  | SET_USER payload =>
      AuthState.mk payload false
        (match payload with Some _ => true | None => false end)
  | LOGIN_SUCCESS payload => AuthState.mk (Some payload) false true
  | LOGOUT => AuthState.mk None false false
  end.

Definition initialState : AuthState.t := AuthState.mk None true false.

(** What [SecureStore] keeps under a key: the token as it is, or the
    text of a JSON document, represented by the document. *)
Inductive text : Type :=
| Plain (s : string)
| Json (doc : json).

(** The provider: the reducer's state, the secure store, and the module
    state of [api.ts] on which [AuthService] runs. *)
Record t : Type := mk {
  state : AuthState.t;
  SecureStore : gmap string text;
  api : Api.t;
}.

Definition dispatch (action : AuthAction) : Eff t unit :=
  modify (λ c, mk (authReducer (state c) action) (SecureStore c) (api c)).

Definition getItemAsync (key : string) : Eff t (option text) :=
  gets (λ c, SecureStore c !! key).

Definition setItemAsync (key : string) (value : text) : Eff t unit :=
  modify (λ c, mk (state c) (<[key := value]> (SecureStore c)) (api c)).

Definition deleteItemAsync (key : string) : Eff t unit :=
  modify (λ c, mk (state c) (delete key (SecureStore c)) (api c)).

(** A call of a service of [api.ts]. *)
Definition service {A} (m : Eff Api.t A) : Eff t A :=
  zoom api (λ a c, mk (state c) (SecureStore c) a) m.

(** A stored text used as a condition: [null] and the empty string are
    false. *)
Definition present (o : option text) : bool :=
  match o with
  | Some (Plain s) => truthy s
  | Some (Json _) => true
  | None => false
  end.

(** [JSON.parse(userString)]; only [JSON.stringify] writes under
    ["userData"], and any other text is read as one that does not
    parse. *)
Definition parse_user (userString : option text) : Eff t User.t :=
  match userString with
  | Some (Json doc) =>
      match JSON_parse doc with
      | Some user => mret user
      | None => throw "SyntaxError"
      end
  | _ => throw "SyntaxError"
  end.

Definition checkAuthStatus : Eff t unit :=
  try_catch
    (token ← getItemAsync "authToken";
     userString ← getItemAsync "userData";
     if present token && present userString then
       user ← parse_user userString;
       dispatch (SET_USER (Some user))
     else dispatch (SET_LOADING false))
    (λ error, dispatch (SET_LOADING false)).

Definition login (credentials : LoginCredentials.t) : Eff t unit :=
  try_catch
    (dispatch (SET_LOADING true) ;;
     r ← service (AuthService.login (LoginCredentials.email credentials)
                    (LoginCredentials.password credentials));
     setItemAsync "authToken" (Plain r.2) ;;
     setItemAsync "userData" (Json (JSON_stringify r.1)) ;;
     dispatch (LOGIN_SUCCESS r.1))
    (λ error, dispatch (SET_LOADING false) ;; throw error).

Definition register (credentials : RegisterCredentials.t) : Eff t unit :=
  try_catch
    ((if decide (RegisterCredentials.password credentials
                 ≠ RegisterCredentials.confirmPassword credentials)
      then throw "Senhas não coincidem" else mret tt) ;;
     dispatch (SET_LOADING true) ;;
     r ← service (AuthService.register (RegisterCredentials.name credentials)
                    (RegisterCredentials.email credentials)
                    (RegisterCredentials.password credentials));
     setItemAsync "authToken" (Plain r.2) ;;
     setItemAsync "userData" (Json (JSON_stringify r.1)) ;;
     dispatch (LOGIN_SUCCESS r.1))
    (λ error, dispatch (SET_LOADING false) ;; throw error).

Definition logout : Eff t unit :=
  try_catch
    (deleteItemAsync "authToken" ;;
     deleteItemAsync "userData" ;;
     dispatch LOGOUT)
    (λ error, mret tt).

(** A provider that mounts: [useReducer(authReducer, initialState)] and
    the effect that runs [checkAuthStatus]. *)
Definition mounted (store : gmap string text) (a : Api.t) : t :=
  exec checkAuthStatus (mk initialState store a).

End AuthContext.

(** ** [src/navigation/AppNavigator.tsx] *)


(** ** [src/screens/ProductsScreen.tsx] *)

(** The state cells of the screen and the module state of [api.ts].  A
    handler runs from a settled render to the next one: the flags it
    reads are those of the state it starts from. *)
Module ProductsScreen.

Record t : Type := mk {
  products : list Product.t;
  searchQuery : string;
  isLoading : bool;
  isRefreshing : bool;
  isLoadingMore : bool;
  page : Z;
  hasMore : bool;
  totalProducts : Z;
  api : Api.t;
}.

Definition setProducts (f : list Product.t → list Product.t) : Eff t unit :=
  modify (λ s, mk (f (products s)) (searchQuery s) (isLoading s)
                  (isRefreshing s) (isLoadingMore s) (page s) (hasMore s)
                  (totalProducts s) (api s)).
Definition setSearchQuery (q : string) : Eff t unit :=
  modify (λ s, mk (products s) q (isLoading s) (isRefreshing s)
                  (isLoadingMore s) (page s) (hasMore s) (totalProducts s)
                  (api s)).
Definition setIsLoading (b : bool) : Eff t unit :=
  modify (λ s, mk (products s) (searchQuery s) b (isRefreshing s)
                  (isLoadingMore s) (page s) (hasMore s) (totalProducts s)
                  (api s)).
Definition setIsRefreshing (b : bool) : Eff t unit :=
  modify (λ s, mk (products s) (searchQuery s) (isLoading s) b
                  (isLoadingMore s) (page s) (hasMore s) (totalProducts s)
                  (api s)).
Definition setIsLoadingMore (b : bool) : Eff t unit :=
  modify (λ s, mk (products s) (searchQuery s) (isLoading s) (isRefreshing s)
                  b (page s) (hasMore s) (totalProducts s) (api s)).
Definition setPage (n : Z) : Eff t unit :=
  modify (λ s, mk (products s) (searchQuery s) (isLoading s) (isRefreshing s)
                  (isLoadingMore s) n (hasMore s) (totalProducts s) (api s)).
Definition setHasMore (b : bool) : Eff t unit :=
  modify (λ s, mk (products s) (searchQuery s) (isLoading s) (isRefreshing s)
                  (isLoadingMore s) (page s) b (totalProducts s) (api s)).
Definition setTotalProducts (n : Z) : Eff t unit :=
  modify (λ s, mk (products s) (searchQuery s) (isLoading s) (isRefreshing s)
                  (isLoadingMore s) (page s) (hasMore s) n (api s)).

Definition service {A} (m : Eff Api.t A) : Eff t A :=
  zoom api (λ a s, mk (products s) (searchQuery s) (isLoading s)
                      (isRefreshing s) (isLoadingMore s) (page s) (hasMore s)
                      (totalProducts s) a) m.

Definition loadProducts (pageNum : Z) (search : string)
    (refresh loadMore : bool) : Eff t unit :=
  isLoading ← gets isLoading;
  isLoadingMore ← gets isLoadingMore;
  if (isLoading || isLoadingMore) && negb refresh then mret tt
  else
    (if loadMore then setIsLoadingMore true else setIsLoading true) ;;
    try_finally
      (try_catch
         (response ←
            (if truthy search
             then service (ProductService.searchProducts search pageNum 10)
             else service (ProductService.getProducts pageNum 10));
          (if (pageNum =? 1) || refresh
           then setProducts (λ _, PaginatedResponse.data response)
           else setProducts (λ prev, prev ++ PaginatedResponse.data response)) ;;
          setTotalProducts (PaginatedResponse.total response) ;;
          setHasMore (lt_number pageNum (PaginatedResponse.totalPages response)) ;;
          setPage pageNum)
         (λ error, mret tt))
      (setIsLoading false ;;
       setIsLoadingMore false ;;
       setIsRefreshing false).

(** [handleSearch] of the screen without the debounce
    ([src/unnamed/part_006]); with the debounce the same calls are made
    by the effect on the debounced query. *)
Definition handleSearch (query : string) : Eff t unit :=
  setSearchQuery query ;;
  setPage 1 ;;
  setHasMore true ;;
  loadProducts 1 query true false.

Definition handleRefresh : Eff t unit :=
  searchQuery ← gets searchQuery;
  setIsRefreshing true ;;
  setPage 1 ;;
  setHasMore true ;;
  loadProducts 1 searchQuery true false.

Definition handleLoadMore : Eff t unit :=
  s ← gets (λ s, s);
  if hasMore s && negb (isLoading s) && negb (isLoadingMore s)
  then loadProducts (page s + 1) (searchQuery s) false true
  else mret tt.

End ProductsScreen.

(** ** [src/screens/MyProductsScreen.tsx] *)

Module MyProductsScreen.

Record t : Type := mk {
  myProducts : list Product.t;
  isLoading : bool;
  api : Api.t;
}.

Definition setMyProducts (l : list Product.t) : Eff t unit :=
  modify (λ s, mk l (isLoading s) (api s)).
Definition setIsLoading (b : bool) : Eff t unit :=
  modify (λ s, mk (myProducts s) b (api s)).
Definition service {A} (m : Eff Api.t A) : Eff t A :=
  zoom api (λ a s, mk (myProducts s) (isLoading s) a) m.

Definition loadMyProducts : Eff t unit :=
  try_finally
    (try_catch
       (setIsLoading true ;;
        products ← service MyProductsService.getMyProducts;
        setMyProducts products)
       (λ error, mret tt))
    (setIsLoading false).

Definition deleteProduct (productId : string) : Eff t unit :=
  try_catch
    (service (MyProductsService.removeMyProduct productId) ;;
     myProducts ← gets myProducts;
     let updatedProducts :=
       filter (λ product, Product.id product ≠ productId) myProducts in
     setMyProducts updatedProducts)
    (λ error, mret tt).

End MyProductsScreen.

(** ** Texts of forms: [trim] and regular expressions *)

(** The white space of ASCII text: tab, line feed, vertical tab, form
    feed, carriage return and space. *)
Definition is_space (c : ascii) : bool :=
  let k := nat_of_ascii c in
  ((9 <=? k) && (k <=? 13) || (k =? 32))%nat.

Fixpoint trimStart (l : list ascii) : list ascii :=
  match l with
  | c :: l' => if is_space c then trimStart l' else l
  | [] => []
  end.

(** [String.prototype.trim]. *)
Definition trim (s : string) : string :=
  String.string_of_list_ascii
    (reverse (trimStart (reverse (trimStart (String.list_ascii_of_string s))))).

(** Regular expressions, matched by derivatives; [test] is
    [RegExp.prototype.test] of an expression without flags or anchors:
    some part of the text matches. *)
Module RegExp.

Inductive t : Type :=
| Void
| Eps
| Class (p : ascii → bool)
| Seq (r1 r2 : t)
| Alt (r1 r2 : t)
| Star (r : t).

Definition Plus (r : t) : t := Seq r (Star r).

Fixpoint nullable (r : t) : bool :=
  match r with
  | Void => false
  | Eps => true
  | Class _ => false
  | Seq r1 r2 => nullable r1 && nullable r2
  | Alt r1 r2 => nullable r1 || nullable r2
  | Star _ => true
  end.

Fixpoint deriv (c : ascii) (r : t) : t :=
  match r with
  | Void => Void
  | Eps => Void
  | Class p => if p c then Eps else Void
  | Seq r1 r2 =>
      if nullable r1 then Alt (Seq (deriv c r1) r2) (deriv c r2)
      else Seq (deriv c r1) r2
  | Alt r1 r2 => Alt (deriv c r1) (deriv c r2)
  | Star r1 => Seq (deriv c r1) (Star r1)
  end.

Fixpoint accepts (r : t) (l : list ascii) : bool :=
  match l with
  | [] => nullable r
  | c :: l' => accepts (deriv c r) l'
  end.

Definition anything : t := Star (Class (λ _, true)).

Definition test (r : t) (s : string) : bool :=
  accepts (Seq anything (Seq r anything)) (String.list_ascii_of_string s).

(** [\S] and a literal character. *)
Definition S : t := Class (λ c, negb (is_space c)).
Definition Chr (a : ascii) : t := Class (λ c, bool_decide (c = a)).

(** [/\S+@\S+\.\S+/]. *)
Definition email : t :=
  Seq (Plus S) (Seq (Chr "@") (Seq (Plus S) (Seq (Chr ".") (Plus S)))).

End RegExp.

(** [Alert.alert(title, message)] appends to the alerts shown. *)
Definition Alert : Type := string * string.

(** ** RegisterScreen *)

Module RegisterScreen.

Record Errors : Type := mkErrors {
  name : option string;
  email : option string;
  password : option string;
  confirmPassword : option string;
}.

Record t : Type := mk {
  formData : RegisterCredentials.t;
  errors : Errors;
  alerts : list Alert;
  auth : AuthContext.t;
}.

Definition setErrors (e : Errors) : Eff t unit :=
  modify (λ s, mk (formData s) e (alerts s) (auth s)).

Definition alert (title message : string) : Eff t unit :=
  modify (λ s, mk (formData s) (errors s) (alerts s ++ [(title, message)])
                  (auth s)).

Definition register (credentials : RegisterCredentials.t) : Eff t unit :=
  zoom auth (λ a s, mk (formData s) (errors s) (alerts s) a)
    (AuthContext.register credentials).

(** [Object.keys(newErrors).length === 0]. *)
Definition no_errors (e : Errors) : bool :=
  match name e, email e, password e, confirmPassword e with
  | None, None, None, None => true
  | _, _, _, _ => false
  end.

Definition validateForm : Eff t bool :=
  formData ← gets formData;
  let newErrors :=
    mkErrors
      (if negb (truthy (trim (RegisterCredentials.name formData)))
       then Some "Nome é obrigatório"
       else if (String.length (trim (RegisterCredentials.name formData)) <? 2)%nat
       then Some "Nome deve ter pelo menos 2 caracteres"
       else None)
      (if negb (truthy (trim (RegisterCredentials.email formData)))
       then Some "Email é obrigatório"
       else if negb (RegExp.test RegExp.email
                       (RegisterCredentials.email formData))
       then Some "Email inválido"
       else None)
      (if negb (truthy (trim (RegisterCredentials.password formData)))
       then Some "Senha é obrigatória"
       else if (String.length (RegisterCredentials.password formData) <? 6)%nat
       then Some "Senha deve ter pelo menos 6 caracteres"
       else None)
      (if negb (truthy (trim (RegisterCredentials.confirmPassword formData)))
       then Some "Confirmação de senha é obrigatória"
       else if decide (RegisterCredentials.password formData
                       ≠ RegisterCredentials.confirmPassword formData)
       then Some "Senhas não coincidem"
       else None) in
  setErrors newErrors ;;
  mret (no_errors newErrors).

(** The errors thrown are [Error] objects: the alert shows the message. *)
Definition handleRegister : Eff t unit :=
  validateForm ≫= λ valid : bool,
  if negb valid then mret tt
  else
    formData ← gets formData;
    try_catch (register formData)
      (λ error, alert "Erro no Cadastro" error).

End RegisterScreen.

(** ** ResetPasswordScreen *)

Module ResetPasswordScreen.

Record FormData : Type := mkFormData {
  otp : string;
  newPassword : string;
  confirmPassword : string;
}.

Record Errors : Type := mkErrors {
  otp_error : option string;
  newPassword_error : option string;
  confirmPassword_error : option string;
}.

(** [email] is the parameter of the route. *)
Record t : Type := mk {
  email : string;
  formData : FormData;
  errors : Errors;
  isLoading : bool;
  alerts : list Alert;
  api : Api.t;
}.

Definition setErrors (e : Errors) : Eff t unit :=
  modify (λ s, mk (email s) (formData s) e (isLoading s) (alerts s) (api s)).

Definition setIsLoading (b : bool) : Eff t unit :=
  modify (λ s, mk (email s) (formData s) (errors s) b (alerts s) (api s)).

Definition alert (title message : string) : Eff t unit :=
  modify (λ s, mk (email s) (formData s) (errors s) (isLoading s)
                  (alerts s ++ [(title, message)]) (api s)).

Definition service {A} (m : Eff Api.t A) : Eff t A :=
  zoom api (λ a s, mk (email s) (formData s) (errors s) (isLoading s)
                      (alerts s) a) m.

Definition no_errors (e : Errors) : bool :=
  match otp_error e, newPassword_error e, confirmPassword_error e with
  | None, None, None => true
  | _, _, _ => false
  end.

Definition validateForm : Eff t bool :=
  formData ← gets formData;
  let newErrors :=
    mkErrors
      (if negb (truthy (trim (otp formData)))
       then Some "Código OTP é obrigatório"
       else if negb (String.length (otp formData) =? 6)%nat
       then Some "Código OTP deve ter 6 dígitos"
       else None)
      (if negb (truthy (trim (newPassword formData)))
       then Some "Nova senha é obrigatória"
       else if (String.length (newPassword formData) <? 6)%nat
       then Some "Senha deve ter pelo menos 6 caracteres"
       else None)
      (if negb (truthy (trim (confirmPassword formData)))
       then Some "Confirmação de senha é obrigatória"
       else if decide (newPassword formData ≠ confirmPassword formData)
       then Some "Senhas não coincidem"
       else None) in
  setErrors newErrors ;;
  mret (no_errors newErrors).

Definition handleResetPassword : Eff t unit :=
  validateForm ≫= λ valid : bool,
  if negb valid then mret tt
  else
    setIsLoading true ;;
    try_finally
      (try_catch
         (s ← gets (λ s, s);
          service (AuthService.resetPassword (email s) (otp (formData s))
                     (newPassword (formData s))) ≫= λ success : bool,
          if success
          then alert "Sucesso" "Senha alterada com sucesso!"
          else alert "Erro" "Código OTP inválido ou expirado")
         (λ error, alert "Erro" error))
      (setIsLoading false).

End ResetPasswordScreen.

(** * Interfaces, predicates and sample data *)

(** ** Interfaces

    The mutating members of [CartContextType], [FavoritesContextType]
    and [NotificationContextType], and the calls of [api.ts] that change
    one of its lists, each with the member it runs. *)

Inductive CartMutation : Type :=
| AddToCart (product : Product.t) (quantity : Z)
| RemoveFromCart (productId : string)
| UpdateQuantity (productId : string) (quantity : Z)
| ClearCart.

Definition run_cart (op : CartMutation) : Eff CartContext.t unit :=
  match op with
  | AddToCart product quantity => CartContext.addToCart product quantity
  | RemoveFromCart productId => CartContext.removeFromCart productId
  | UpdateQuantity productId quantity =>
      CartContext.updateQuantity productId quantity
  | ClearCart => CartContext.clearCart
  end.

Inductive FavoritesMutation : Type :=
| AddToFavorites (product : Product.t)
| RemoveFromFavorites (productId : string)
| ToggleFavorite (product : Product.t).

Definition run_favorites (op : FavoritesMutation) :
    Eff FavoritesContext.t unit :=
  match op with
  | AddToFavorites product => FavoritesContext.addToFavorites product
  | RemoveFromFavorites productId =>
      FavoritesContext.removeFromFavorites productId
  | ToggleFavorite product => FavoritesContext.toggleFavorite product
  end.

Inductive NotificationMutation : Type :=
| AddNotification (notification : NotificationData.t)
| MarkAsRead (id : string)
| MarkAllAsRead
| ClearNotifications.

Definition run_notifications (op : NotificationMutation) :
    Eff NotificationContext.t unit :=
  match op with
  | AddNotification notification =>
      NotificationContext.addNotification notification
  | MarkAsRead id => NotificationContext.markAsRead id
  | MarkAllAsRead => NotificationContext.markAllAsRead
  | ClearNotifications => NotificationContext.clearNotifications
  end.

Inductive ApiMutation : Type :=
| AddProduct (productData : Product.t)
| Login (email password : string)
| Register (name email password : string)
| ResetPassword (email otp newPassword : string)
| AddMyProduct (product : Product.t)
| RemoveMyProduct (productId : string).

Definition run_api (op : ApiMutation) (w : Api.t) : Api.t :=
  match op with
  | AddProduct productData => exec (ProductService.addProduct productData) w
  | Login email password => exec (AuthService.login email password) w
  | Register name email password =>
      exec (AuthService.register name email password) w
  | ResetPassword email otp newPassword =>
      exec (AuthService.resetPassword email otp newPassword) w
  | AddMyProduct product => exec (MyProductsService.addMyProduct product) w
  | RemoveMyProduct productId =>
      exec (MyProductsService.removeMyProduct productId) w
  end.




(** ** Pagination and search *)

(** What the specification calls "simple array slicing": the response
    holds the elements of [items] at the indices from [(p-1)*l] up to,
    and not including, [(p-1)*l + l], the length of [items], and the
    number of pages rounded up. *)
Definition is_page {T} (items : list T) (p l : Z)
    (r : PaginatedResponse.t T) : Prop :=
  (∀ i : nat,
     PaginatedResponse.data r !! i =
       if decide (Z.of_nat i < l)
       then items !! (Z.to_nat ((p - 1) * l) + i)%nat else None)
  ∧ PaginatedResponse.data r =
      take (Z.to_nat l) (drop (Z.to_nat ((p - 1) * l)) items)
  ∧ PaginatedResponse.page r = p
  ∧ PaginatedResponse.limit r = l
  ∧ PaginatedResponse.total r = Z.of_nat (length items)
  ∧ ∃ n, PaginatedResponse.totalPages r = JS.Num n
         ∧ (n - 1) * l < PaginatedResponse.total r ≤ n * l.

(** [q] occurs in [s]: the words of the specification for
    "contains [q] as a substring". *)
Definition occurs_in (q s : string) : Prop :=
  ∃ pre post, s = pre +:+ q +:+ post.

(** Text of ASCII characters only.  On such text the built-ins are what
    the model says: [toLowerCase] turns the capitals A to Z into small
    letters and nothing else, [length] counts the characters, and the
    white space is the six characters of [is_space]. *)
Definition ascii_only (s : string) : bool :=
  forallb (λ c, (nat_of_ascii c <? 128)%nat) (String.list_ascii_of_string s).


(** A capital letter and its small letter. *)
Definition capital_of (C c : ascii) : Prop :=
  (65 ≤ nat_of_ascii C ≤ 90)%nat ∧ nat_of_ascii c = (nat_of_ascii C + 32)%nat.

(** The same letter, whatever the case. *)
Definition same_letter (c d : ascii) : Prop :=
  c = d ∨ capital_of c d ∨ capital_of d c.

(** Two texts that differ at most in the case of their letters. *)
Fixpoint same_text (s t : string) : Prop :=
  match s, t with
  | EmptyString, EmptyString => True
  | String c s', String d t' => same_letter c d ∧ same_text s' t'
  | _, _ => False
  end.

(** [q] occurs in [s] whatever the case of the letters: a part of [s] is
    [q] up to case. *)
Definition occurs_ignoring_case (q s : string) : Prop :=
  ∃ pre mid post, s = pre +:+ mid +:+ post ∧ same_text mid q.

(** The "case-insensitive substring filter" of the specification. *)
Definition search_hit (q : string) (x : Product.t) : Prop :=
  occurs_ignoring_case q (Product.name x)
  ∨ occurs_ignoring_case q (Product.description x)
  ∨ occurs_ignoring_case q (Product.category x).

(** The same filter by way of lower case: the lower-cased field
    contains the lower-cased query. *)
Definition lowercased_hit (q : string) (x : Product.t) : Prop :=
  occurs_in (JS.toLowerCase q) (JS.toLowerCase (Product.name x))
  ∨ occurs_in (JS.toLowerCase q) (JS.toLowerCase (Product.description x))
  ∨ occurs_in (JS.toLowerCase q) (JS.toLowerCase (Product.category x)).

(** ** Users *)

(** Two users that differ at most in [updatedAt]. *)
Definition same_but_updatedAt (u u' : User.t) : Prop :=
  User.id u' = User.id u ∧ User.email u' = User.email u
  ∧ User.name u' = User.name u ∧ User.phone u' = User.phone u
  ∧ User.profileImage u' = User.profileImage u
  ∧ User.createdAt u' = User.createdAt u.

(** ** Storage *)

(** The value under the provider's key is the serialization of the list
    the provider holds. *)
Definition cart_mirrored (c : CartContext.t) : Prop :=
  CartContext.storage c !! "cart"
    = Some (JSON_stringify (CartContext.cartItems c)).

Definition favorites_mirrored (c : FavoritesContext.t) : Prop :=
  FavoritesContext.storage c !! "favorites"
    = Some (JSON_stringify (FavoritesContext.favorites c)).

Definition notifications_mirrored (c : NotificationContext.t) : Prop :=
  NotificationContext.storage c !! "notifications"
    = Some (JSON_stringify (NotificationContext.notifications c)).

(** What a value becomes in storage: a [Date] object is written as its
    ISO-8601 text, and that text is what [JSON.parse] gives back. *)
Definition Date_stored (d : Date) : Date :=
  match d with
  | DateObject t => DateText (ISO.toISOString t)
  | DateText s => DateText s
  end.

Definition Product_stored (p : Product.t) : Product.t :=
  Product.mk (Product.id p) (Product.name p) (Product.description p)
    (Product.price p) (Product.image p) (Product.category p)
    (Product.inStock p) (Date_stored (Product.createdAt p))
    (Date_stored (Product.updatedAt p)).



(** ** Notifications *)

(** The number of notifications not yet read. *)
Definition unread (l : list NotificationData.t) : Z :=
  Z.of_nat (length (filter (λ n, NotificationData.read n = false) l)).

(** [unreadCount] is the number of notifications not yet read. *)
Definition unread_consistent (c : NotificationContext.t) : Prop :=
  NotificationContext.unreadCount c
    = unread (NotificationContext.notifications c).

(** ** Identifiers *)

Definition cart_ids (c : CartContext.t) : list string :=
  (λ item, Product.id (CartItem.product item)) <$> CartContext.cartItems c.

Definition favorite_ids (c : FavoritesContext.t) : list string :=
  Product.id <$> FavoritesContext.favorites c.

Definition notification_ids (c : NotificationContext.t) : list string :=
  NotificationData.id <$> NotificationContext.notifications c.

(** The products that [MyProductsService] keeps in storage. *)
Definition myProducts (w : Api.t) : list Product.t :=
  match result MyProductsService.getMyProducts w with
  | inr l => l
  | inl _ => []
  end.

Definition product_ids (w : Api.t) : list string :=
  Product.id <$> Api.products w.
Definition user_ids (w : Api.t) : list string := User.id <$> Api.users w.
Definition myProduct_ids (w : Api.t) : list string :=
  Product.id <$> myProducts w.

(** The identifier that the next [faker.string.uuid()] returns. *)
Definition next_uuid (w : Api.t) : string :=
  Faker.words (Api.faker w) (Faker.cursor (Api.faker w)).

(** [addToFavorites] appends without looking: it keeps the identifiers
    distinct when the product is not a favorite yet, which is how
    [toggleFavorite] calls it. *)
Definition guarded (op : FavoritesMutation) (c : FavoritesContext.t) : Prop :=
  match op with
  | AddToFavorites product => Product.id product ∉ favorite_ids c
  | _ => True
  end.

(** [addNotification] takes the identifier from the clock: it keeps the
    identifiers distinct when no notification carries that instant. *)
Definition fresh (op : NotificationMutation) (c : NotificationContext.t) :
    Prop :=
  match op with
  | AddNotification _ => pretty (NotificationContext.clock c) ∉ notification_ids c
  | _ => True
  end.

(** The services take a new identifier from faker, and [addMyProduct]
    stores the product it is given: the identifiers stay distinct when
    that identifier is not in the list yet. *)
Definition minted (op : ApiMutation) (w : Api.t) : Prop :=
  match op with
  | AddProduct _ => next_uuid w ∉ product_ids w
  | Login _ _ | Register _ _ _ => next_uuid w ∉ user_ids w
  | AddMyProduct product => Product.id product ∉ myProduct_ids w
  | ResetPassword _ _ _ | RemoveMyProduct _ => True
  end.

(** Settle a decidable statement about concrete data by evaluation. *)
Ltac by_evaluation :=
  apply (bool_decide_unpack _); vm_compute; exact I.

(** ** Sample data *)

Module Sample.
Definition shirt : Product.t :=
  Product.mk "p-1" "Linen Shirt" "A light summer shirt" 120 "shirt.png"
    "Clothing" true (DateObject 0) (DateObject 1700000000000).
Definition ball : Product.t :=
  Product.mk "p-2" "Soccer Ball" "Size 5, hand stitched" 45 "ball.png"
    "Sports" false (DateObject 86400000) (DateObject 1700000000000).
Definition lamp : Product.t :=
  Product.mk "p-3" "Desk Lamp" "Warm light for your SHIRT drawer" 80
    "lamp.png" "Home" true (DateObject 172800000) (DateObject 1700000000000).

Definition ana : User.t :=
  User.mk "u-1" "ana@example.com" "Ana" (Some "555-0100") None
    (DateObject 0) (DateObject 0).

Definition faker : Faker.t :=
  Faker.mk (λ n, 7 * n + 3)%nat (λ n, "fake-" +:+ pretty n) 0.

Definition world : Api.t :=
  Api.mk [shirt; ball; lamp; shirt; ball] [ana]
    {[ MyProductsService.STORAGE_KEY :=
         JSON_stringify [lamp; ball; shirt] ]}
    faker 1700000000000.

Definition cart : CartContext.t :=
  CartContext.mk [CartItem.mk shirt 2; CartItem.mk ball 1] ∅.

Definition favorites : FavoritesContext.t :=
  FavoritesContext.mk [shirt] ∅.

Definition welcome : NotificationData.t :=
  NotificationData.mk "1699999999999" "Welcome" "Hello" NotificationData.info
    false (DateObject 1699999999999).
Definition offer : NotificationData.t :=
  NotificationData.mk "1699999999000" "Offer" "20% off"
    NotificationData.success true (DateObject 1699999999000).

Definition inbox : NotificationContext.t :=
  NotificationContext.mk [welcome; offer] 1 ∅ 1700000000000.

(** The clock still shows the instant at which [welcome] was added. *)
Definition same_instant : NotificationContext.t :=
  NotificationContext.mk [welcome; offer] 1 ∅ 1699999999999.

(** A catalogue without repeated products. *)
Definition catalogue : Api.t :=
  Api.mk [shirt; ball; lamp] [ana]
    {[ MyProductsService.STORAGE_KEY := JSON_stringify [lamp; ball] ]}
    faker 1700000000000.
End Sample.

(** ** The callers *)

(** The [data] of page [p] with limit [l], as [getProducts] returns it. *)
Definition page_data (w : Api.t) (l : Z) (p : nat) : list Product.t :=
  match result (ProductService.getProducts (Z.of_nat p) l) w with
  | inr r => PaginatedResponse.data r
  | inl _ => []
  end.

(** What [JSON.stringify] and [JSON.parse] make of a user. *)
Definition User_stored (u : User.t) : User.t :=
  User.mk (User.id u) (User.email u) (User.name u) (User.phone u)
    (User.profileImage u) (Date_stored (User.createdAt u))
    (Date_stored (User.updatedAt u)).

(** The session is authenticated exactly when it holds a user. *)
Definition session_consistent (s : AuthState.t) : Prop :=
  AuthState.isAuthenticated s = true ↔ is_Some (AuthState.user s).

(** The answers of the two members of the providers that only read. *)
Definition in_cart (productId : string) (c : CartContext.t) : bool :=
  match result (CartContext.isInCart productId) c with
  | inr b => b
  | inl _ => false
  end.

Definition total_items (c : CartContext.t) : Z :=
  match result CartContext.getTotalItems c with
  | inr n => n
  | inl _ => 0
  end.

(** [Number.MAX_SAFE_INTEGER]: up to it the integers are doubles and
    their sums are exact. *)
Definition MAX_SAFE_INTEGER : Z := 2 ^ 53 - 1.

(** Quantities whose sums are exact: the cart holds non-negative
    quantities, and with [quantity] more the total stays within
    [MAX_SAFE_INTEGER]. *)
Definition exact_sum (c : CartContext.t) (quantity : Z) : Prop :=
  Forall (λ item, 0 ≤ CartItem.quantity item) (CartContext.cartItems c)
  ∧ 0 ≤ quantity
  ∧ total_items c + quantity ≤ MAX_SAFE_INTEGER.

Definition is_favorite (productId : string) (c : FavoritesContext.t) : bool :=
  match result (FavoritesContext.isFavorite productId) c with
  | inr b => b
  | inl _ => false
  end.

(** The matches of a query in the catalogue, in its order. *)
Definition matching (q : string) (w : Api.t) : list Product.t :=
  filter (λ product, ProductService.matches q product = true) (Api.products w).

(** The products screen after a search for [q] and [k] requests for more. *)
Definition scrolled (q : string) (k : nat) (s : ProductsScreen.t) :
    ProductsScreen.t :=
  Nat.iter k (exec ProductsScreen.handleLoadMore)
    (exec (ProductsScreen.handleSearch q) s).

(** More sample states. *)
Module Demo.
Definition session : AuthContext.t :=
  AuthContext.mk AuthContext.initialState ∅ Sample.world.

Definition ana_login : LoginCredentials.t :=
  LoginCredentials.mk "ana@example.com" "secret".

Definition bob : RegisterCredentials.t :=
  RegisterCredentials.mk "Bob" "bob@example.com" "hunter22" "hunter22".

Definition screen : ProductsScreen.t :=
  ProductsScreen.mk [] "" false false false 1 true 0 Sample.world.

Definition myScreen : MyProductsScreen.t :=
  MyProductsScreen.mk [] true Sample.catalogue.
End Demo.

(** ** The forms *)

(** The language of a regular expression. *)
Inductive language : RegExp.t → list ascii → Prop :=
| language_Eps : language RegExp.Eps []
| language_Class p c : p c = true → language (RegExp.Class p) [c]
| language_Seq r1 r2 l1 l2 :
    language r1 l1 → language r2 l2 → language (RegExp.Seq r1 r2) (l1 ++ l2)
| language_Alt_l r1 r2 l : language r1 l → language (RegExp.Alt r1 r2) l
| language_Alt_r r1 r2 l : language r2 l → language (RegExp.Alt r1 r2) l
| language_Star_nil r : language (RegExp.Star r) []
| language_Star_cons r l1 l2 :
    language r l1 → language (RegExp.Star r) l2 →
    language (RegExp.Star r) (l1 ++ l2).

(** A text of white space only. *)
Definition blank (s : string) : Prop :=
  Forall (λ c, is_space c = true) (String.list_ascii_of_string s).

(** A text that holds, somewhere, a character that is not white space,
    an at sign, one or more characters that are not white space, a dot
    and a character that is not white space. *)
Definition email_shaped (s : string) : Prop :=
  ∃ pre x w z post,
    String.list_ascii_of_string s
    = pre ++ [x; "@"%char] ++ w ++ ["."%char; z] ++ post
    ∧ is_space x = false
    ∧ w ≠ []
    ∧ Forall (λ c, is_space c = false) w
    ∧ is_space z = false.

(** The registration forms that [validateForm] lets through. *)
Definition valid_registration (f : RegisterCredentials.t) : Prop :=
  (2 ≤ String.length (trim (RegisterCredentials.name f)))%nat
  ∧ email_shaped (RegisterCredentials.email f)
  ∧ ¬ blank (RegisterCredentials.password f)
  ∧ (6 ≤ String.length (RegisterCredentials.password f))%nat
  ∧ RegisterCredentials.confirmPassword f = RegisterCredentials.password f.

(** The forms of a new password that [validateForm] lets through. *)
Definition valid_reset (f : ResetPasswordScreen.FormData) : Prop :=
  ¬ blank (ResetPasswordScreen.otp f)
  ∧ String.length (ResetPasswordScreen.otp f) = 6%nat
  ∧ ¬ blank (ResetPasswordScreen.newPassword f)
  ∧ (6 ≤ String.length (ResetPasswordScreen.newPassword f))%nat
  ∧ ResetPasswordScreen.confirmPassword f = ResetPasswordScreen.newPassword f.

(** Forms typed in ASCII. *)
Definition ascii_registration (f : RegisterCredentials.t) : bool :=
  ascii_only (RegisterCredentials.name f)
  && ascii_only (RegisterCredentials.email f)
  && ascii_only (RegisterCredentials.password f)
  && ascii_only (RegisterCredentials.confirmPassword f).

Definition ascii_reset (f : ResetPasswordScreen.FormData) : bool :=
  ascii_only (ResetPasswordScreen.otp f)
  && ascii_only (ResetPasswordScreen.newPassword f)
  && ascii_only (ResetPasswordScreen.confirmPassword f).

(** Sample forms. *)
Module Filled.
Definition registration : RegisterScreen.t :=
  RegisterScreen.mk Demo.bob (RegisterScreen.mkErrors None None None None) []
    Demo.session.

Definition reset : ResetPasswordScreen.t :=
  ResetPasswordScreen.mk "ana@example.com"
    (ResetPasswordScreen.mkFormData "000000" "secret2" "secret2")
    (ResetPasswordScreen.mkErrors None None None) false [] Sample.world.
End Filled.

(** * Properties *)

(** ** The built-ins *)

Example toISOString_epoch :
  ISO.toISOString 0 = "1970-01-01T00:00:00.000Z"
  ∧ ISO.toISOString 1700000000000 = "2023-11-14T22:13:20.000Z"
  ∧ ISO.toISOString (-1) = "1969-12-31T23:59:59.999Z"
  ∧ ISO.toISOString 951782400000 = "2000-02-29T00:00:00.000Z".
Proof. repeat split; vm_compute; reflexivity. Qed.

Section slice.
Context {A : Type}.
Implicit Types (xs : list A) (s n : Z) (i : nat).

(** With a start inside [0, ∞) and a non-negative width, [slice] is
    [take] after [drop]. *)
Lemma slice_take_drop xs s n :
  0 ≤ s → 0 ≤ n →
  JS.slice xs s (s + n) = take (Z.to_nat n) (drop (Z.to_nat s) xs).
Proof.
  intros Hs Hn. unfold JS.slice.
  destruct (Z.ltb_spec s 0) as [?|_]; [lia|].
  destruct (Z.ltb_spec (s + n) 0) as [?|_]; [lia|].
  destruct (decide (s ≤ Z.of_nat (length xs))) as [Hin|Hout].
  - rewrite (Z.min_l s) by lia.
    destruct (decide (s + n ≤ Z.of_nat (length xs))) as [Hfit|Hcut].
    + rewrite Z.min_l by lia. f_equal. lia.
    + rewrite Z.min_r by lia.
      rewrite !take_ge; [done | rewrite length_drop; lia ..].
  - rewrite !Z.min_r by lia.
    rewrite !drop_ge by lia. by rewrite !take_nil.
Qed.

(** The elements of a slice, index by index. *)
Lemma slice_lookup xs s n i :
  0 ≤ s → 0 ≤ n →
  JS.slice xs s (s + n) !! i =
    if decide (Z.of_nat i < n) then xs !! (Z.to_nat s + i)%nat else None.
Proof.
  intros Hs Hn. rewrite slice_take_drop by done.
  case_decide.
  - rewrite lookup_take_lt by lia. by rewrite lookup_drop.
  - apply lookup_take_ge. lia.
Qed.
End slice.

(** [Math.ceil(a / b)] for a positive divisor is the least integer [n]
    with [a ≤ n * b]. *)
Lemma Math_ceil_div_spec (a b : Z) :
  1 ≤ b →
  ∃ n, JS.Math_ceil_div a b = JS.Num n ∧ (n - 1) * b < a ≤ n * b.
Proof.
  intros Hb. unfold JS.Math_ceil_div.
  destruct (Z.eqb_spec b 0) as [?|_]; [lia|].
  eexists; split; [reflexivity|].
  pose proof (Z.div_mod (- a) b ltac:(lia)) as Hdm.
  pose proof (Z.mod_pos_bound (- a) b ltac:(lia)) as Hr.
  nia.
Qed.

Lemma startsWith_spec (s q : string) :
  JS.startsWith s q = true ↔ ∃ post, s = q +:+ post.
Proof.
  revert s. induction q as [|a q IH]; intros s.
  - split; [intros _; exists s; reflexivity | by destruct s].
  - destruct s as [|b s]; simpl.
    + split; [done | intros [post H]; discriminate].
    + rewrite andb_true_iff, bool_decide_eq_true, IH. split.
      * intros [-> [post ->]]. by exists post.
      * intros [post H]. injection H as -> ->. eauto.
Qed.

Lemma includes_spec (s q : string) :
  JS.includes s q = true ↔ occurs_in q s.
Proof.
  unfold occurs_in. induction s as [|b s IH]; cbn [JS.includes].
  - rewrite orb_false_r, startsWith_spec. split.
    + intros [post H]. by exists "", post.
    + intros [[|c pre] [post H]]; [by exists post | discriminate].
  - rewrite orb_true_iff, startsWith_spec, IH. split.
    + intros [[post H] | (pre & post & ->)].
      * by exists "", post.
      * by exists (String b pre), post.
    + intros [[|c pre] [post H]].
      * left. by exists post.
      * right. injection H as -> ->. by exists pre, post.
Qed.

#[global] Instance occurs_in_dec q s : Decision (occurs_in q s).
Proof.
  refine (cast_if (decide (JS.includes s q = true)));
    abstract (by rewrite <- includes_spec).
Defined.

Lemma lower_char_idemp (c : ascii) :
  JS.lower_char (JS.lower_char c) = JS.lower_char c.
Proof. by destruct c as [[] [] [] [] [] [] [] []]. Qed.

Lemma toLowerCase_idemp (s : string) :
  JS.toLowerCase (JS.toLowerCase s) = JS.toLowerCase s.
Proof.
  induction s as [|c s IH]; simpl; [done|].
  by rewrite lower_char_idemp, IH.
Qed.

(** ** Paging and search (C2) *)

Lemma slice_is_page {T} (items : list T) (p l : Z) :
  1 ≤ p → 1 ≤ l →
  is_page items p l
    {| PaginatedResponse.data :=
         JS.slice items ((p - 1) * l) ((p - 1) * l + l);
       PaginatedResponse.page := p;
       PaginatedResponse.limit := l;
       PaginatedResponse.total := Z.of_nat (length items);
       PaginatedResponse.totalPages :=
         JS.Math_ceil_div (Z.of_nat (length items)) l |}.
Proof.
  intros Hp Hl. unfold is_page; simpl.
  split_and!; try done.
  - intros i. apply slice_lookup; nia.
  - apply slice_take_drop; nia.
  - by apply Math_ceil_div_spec.
Qed.

Lemma getMyProducts_reads (w : Api.t) :
  ∃ stored, MyProductsService.getMyProducts w = (inr stored, w).
Proof.
  unfold MyProductsService.getMyProducts, mbind, Eff_bind, gets.
  destruct (Api.storage w !! MyProductsService.STORAGE_KEY) as [text|];
    [|by eexists].
  destruct (@JSON_parse (list Product.t) _ text); by eexists.
Qed.

Lemma is_upper_spec (c : ascii) :
  JS.is_upper c = true ↔ (65 ≤ nat_of_ascii c ≤ 90)%nat.
Proof.
  unfold JS.is_upper. rewrite andb_true_iff, !Nat.leb_le. tauto.
Qed.

Lemma lower_char_nat (c : ascii) :
  nat_of_ascii (JS.lower_char c)
  = if JS.is_upper c then (nat_of_ascii c + 32)%nat else nat_of_ascii c.
Proof.
  unfold JS.lower_char. destruct (JS.is_upper c) eqn:Hup; [|done].
  apply is_upper_spec in Hup. apply nat_ascii_embedding. lia.
Qed.

Lemma nat_of_ascii_inj (c d : ascii) : nat_of_ascii c = nat_of_ascii d → c = d.
Proof.
  intros H. by rewrite <-(ascii_nat_embedding c), <-(ascii_nat_embedding d), H.
Qed.

(** Two characters have the same lower-case form exactly when they are
    the same letter. *)
Lemma lower_char_same (c d : ascii) :
  JS.lower_char c = JS.lower_char d ↔ same_letter c d.
Proof.
  unfold same_letter, capital_of. split.
  - intros H%(f_equal nat_of_ascii). rewrite !lower_char_nat in H.
    destruct (JS.is_upper c) eqn:Hc, (JS.is_upper d) eqn:Hd.
    + left. apply nat_of_ascii_inj. lia.
    + right; left. apply is_upper_spec in Hc. lia.
    + right; right. apply is_upper_spec in Hd. lia.
    + left. by apply nat_of_ascii_inj.
  - intros [->|[[Hc Hd]|[Hd Hc]]]; [done|..];
      apply nat_of_ascii_inj; rewrite !lower_char_nat.
    + rewrite (proj2 (is_upper_spec c)) by done.
      destruct (JS.is_upper d) eqn:Hup; [|lia].
      apply is_upper_spec in Hup. lia.
    + rewrite (proj2 (is_upper_spec d)) by done.
      destruct (JS.is_upper c) eqn:Hup; [|lia].
      apply is_upper_spec in Hup. lia.
Qed.

Lemma same_text_lower (s t : string) :
  same_text s t ↔ JS.toLowerCase s = JS.toLowerCase t.
Proof.
  revert t. induction s as [|c s IH]; intros [|d t]; simpl; try done.
  rewrite IH, <-lower_char_same. split.
  - by intros [-> ->].
  - by intros [= -> ->].
Qed.

Lemma toLowerCase_app (a b : string) :
  JS.toLowerCase (a +:+ b) = JS.toLowerCase a +:+ JS.toLowerCase b.
Proof. induction a as [|c a IH]; simpl; [done|]. by rewrite IH. Qed.

Lemma toLowerCase_app_inv (s a b : string) :
  JS.toLowerCase s = a +:+ b →
  ∃ s1 s2, s = s1 +:+ s2 ∧ JS.toLowerCase s1 = a ∧ JS.toLowerCase s2 = b.
Proof.
  revert s. induction a as [|c a IH]; intros s; simpl.
  - intros H. by exists "", s.
  - destruct s as [|d s]; simpl; [done|].
    intros [= Hd (s1 & s2 & -> & H1 & H2)%IH].
    exists (String d s1), s2. simpl. by rewrite Hd, H1.
Qed.

(** The lower-cased text contains the lower-cased query exactly when the
    query occurs in the text whatever the case. *)
Lemma occurs_lowercased (q s : string) :
  occurs_in (JS.toLowerCase q) (JS.toLowerCase s) ↔ occurs_ignoring_case q s.
Proof.
  unfold occurs_in, occurs_ignoring_case. split.
  - intros (pre & post & (s1 & s' & -> & H1 & (mid & s3 & -> & Hmid & H3)
                          %toLowerCase_app_inv)%toLowerCase_app_inv).
    exists s1, mid, s3. split; [done|]. by apply same_text_lower.
  - intros (pre & mid & post & -> & Hmid%same_text_lower).
    exists (JS.toLowerCase pre), (JS.toLowerCase post).
    by rewrite !toLowerCase_app, Hmid.
Qed.

Lemma search_hit_lowercased (q : string) (x : Product.t) :
  search_hit q x ↔ lowercased_hit q x.
Proof. unfold search_hit, lowercased_hit. by rewrite !occurs_lowercased. Qed.

Lemma matches_spec (q : string) (x : Product.t) :
  ProductService.matches q x = true ↔ search_hit q x.
Proof.
  rewrite search_hit_lowercased.
  unfold ProductService.matches, lowercased_hit.
  rewrite !orb_true_iff, !includes_spec. tauto.
Qed.

#[global] Instance search_hit_dec q x : Decision (search_hit q x).
Proof.
  refine (cast_if (decide (ProductService.matches q x = true)));
    abstract (by rewrite <- matches_spec).
Defined.

(** The query is only looked at through its lower-case form. *)
Lemma matches_case_insensitive (q q' : string) (x : Product.t) :
  JS.toLowerCase q = JS.toLowerCase q' →
  ProductService.matches q x = ProductService.matches q' x.
Proof. unfold ProductService.matches. by intros ->. Qed.




(** "SHIRT" occurs in "Linen Shirt" whatever the case, and not in any
    field of the ball. *)
Example search_hit_sample :
  search_hit "SHIRT" Sample.shirt ∧ ¬ search_hit "SHIRT" Sample.ball.
Proof.
  split.
  - left. exists "Linen ", "Shirt", "". split; [reflexivity|].
    unfold same_text, same_letter, capital_of. simpl.
    repeat split; (by left) || (right; right; cbv; lia).
  - by_evaluation.
Qed.

(** The two queries on the sample catalogue. *)
Example getProducts_sample :
  result (ProductService.getProducts 2 2) Sample.world =
    inr {| PaginatedResponse.data := [Sample.lamp; Sample.shirt];
           PaginatedResponse.page := 2;
           PaginatedResponse.limit := 2;
           PaginatedResponse.total := 5;
           PaginatedResponse.totalPages := JS.Num 3 |}.
Proof. reflexivity. Qed.

Example searchProducts_sample :
  result (ProductService.searchProducts "SHIRT" 2 2) Sample.world =
    inr {| PaginatedResponse.data := [Sample.shirt];
           PaginatedResponse.page := 2;
           PaginatedResponse.limit := 2;
           PaginatedResponse.total := 3;
           PaginatedResponse.totalPages := JS.Num 2 |}.
Proof. reflexivity. Qed.

Example getMyProductsPaginated_sample :
  sum_map id PaginatedResponse.data
    (result (MyProductsService.getMyProductsPaginated 2 2) Sample.world) =
  inr [Product.mk "p-1" "Linen Shirt" "A light summer shirt" 120 "shirt.png"
         "Clothing" true (DateText "1970-01-01T00:00:00.000Z")
         (DateText "2023-11-14T22:13:20.000Z")].
Proof. vm_compute. reflexivity. Qed.

(** ** faker and the static arrays *)

Lemma pick_alphanumeric (f : Faker.t) :
  Faker.is_alphanumeric (Faker.pick f).1 = true.
Proof.
  unfold Faker.pick. cbn [fst].
  assert (Faker.numbers f (Faker.cursor f) mod 62 < 62)%nat as Hlt
    by (apply Nat.mod_upper_bound; lia).
  revert Hlt. generalize (Faker.numbers f (Faker.cursor f) mod 62)%nat.
  intros k Hk.
  do 62 (destruct k as [|k]; [reflexivity|]). lia.
Qed.

Lemma string_alphanumeric_length (n : nat) (f : Faker.t) :
  String.length (Faker.string_alphanumeric n f).1 = n.
Proof.
  revert f. induction n as [|n IH]; intros f; [done|].
  unfold Faker.string_alphanumeric; fold Faker.string_alphanumeric.
  destruct (Faker.pick f) as [c f1].
  specialize (IH f1).
  destruct (Faker.string_alphanumeric n f1) as [s f2]; simpl in *.
  by rewrite IH.
Qed.

Lemma string_alphanumeric_chars (n : nat) (f : Faker.t) :
  Faker.all_alphanumeric (Faker.string_alphanumeric n f).1 = true.
Proof.
  revert f. induction n as [|n IH]; intros f; [done|].
  unfold Faker.string_alphanumeric; fold Faker.string_alphanumeric.
  pose proof (pick_alphanumeric f) as Hc.
  destruct (Faker.pick f) as [c f1].
  specialize (IH f1).
  destruct (Faker.string_alphanumeric n f1) as [s f2]; simpl in *.
  by rewrite Hc, IH.
Qed.

Section find.
Context {A : Type} (P : A → Prop) `{!∀ x, Decision (P x)}.

Lemma find_Some (xs : list A) (x : A) :
  JS.find P xs = Some x → x ∈ xs ∧ P x ∧ Exists P xs.
Proof.
  unfold JS.find. destruct (list_find P xs) as [[i y]|] eqn:E; [|done].
  intros [= ->]. apply list_find_Some in E as (Hi & HP & _).
  apply list_elem_of_lookup_2 in Hi.
  split_and!; [done..|]. apply Exists_exists. eauto.
Qed.

Lemma find_None (xs : list A) :
  JS.find P xs = None → ¬ Exists P xs.
Proof.
  unfold JS.find. destruct (list_find P xs) as [[i y]|] eqn:E; [done|].
  intros _. apply list_find_None in E.
  intros (x & Hx & HP)%Exists_exists.
  by eapply Forall_forall in E.
Qed.
End find.

(** ** AuthService (C5, C7, C10) *)

(** C5. [AuthService.login] never fails: for every email and password it
    returns a user whose email is the given one and a token of 64
    alphanumeric characters.  When some user of the list has that email,
    that user is returned and the list is unchanged; otherwise the user
    returned is new and has been appended to the list. *)
Theorem login_never_fails (email password : string) (w : Api.t) :
  ∃ user token w',
    AuthService.login email password w = (inr (user, token), w')
    ∧ User.email user = email
    ∧ String.length token = 64%nat
    ∧ Faker.all_alphanumeric token = true
    ∧ if decide (Exists (λ u, User.email u = email) (Api.users w))
      then user ∈ Api.users w ∧ Api.users w' = Api.users w
      else Api.users w' = Api.users w ++ [user].
Proof.
  unfold AuthService.login, mbind, Eff_bind, gets.
  destruct (JS.find _ (Api.users w)) as [user|] eqn:Hfind.
  - apply find_Some in Hfind as (Hin & Hmail & Hex).
    unfold mret, Eff_ret, Api.fake.
    pose proof (string_alphanumeric_length 64 (Api.faker w)) as Hlen.
    pose proof (string_alphanumeric_chars 64 (Api.faker w)) as Hchars.
    destruct (Faker.string_alphanumeric 64 (Api.faker w)) as [token f'].
    eexists _, _, _. split; [reflexivity|].
    rewrite decide_True by done. by split_and!.
  - apply find_None in Hfind.
    unfold Api.fake. cbn -[Faker.string_alphanumeric].
    match goal with
    | |- context [Faker.string_alphanumeric 64 ?f] =>
        pose proof (string_alphanumeric_length 64 f) as Hlen;
        pose proof (string_alphanumeric_chars 64 f) as Hchars;
        destruct (Faker.string_alphanumeric 64 f) as [token f']
    end.
    eexists _, _, _. split; [reflexivity|].
    rewrite decide_False by done. by split_and!.
Qed.

(** C10. [AuthService.register] throws exactly when some user of the
    list already has the given email, and then leaves the whole state as
    it was; otherwise it appends one user, with the given name and
    email, and returns that user with a token of 64 alphanumeric
    characters. *)
Theorem register_throws_iff_email_taken
    (name email password : string) (w : Api.t) :
  if decide (Exists (λ u, User.email u = email) (Api.users w))
  then ∃ err, AuthService.register name email password w = (inl err, w)
  else ∃ user token w',
    AuthService.register name email password w = (inr (user, token), w')
    ∧ Api.users w' = Api.users w ++ [user]
    ∧ User.name user = name
    ∧ User.email user = email
    ∧ String.length token = 64%nat
    ∧ Faker.all_alphanumeric token = true.
Proof.
  unfold AuthService.register, mbind, Eff_bind, gets.
  destruct (JS.find _ (Api.users w)) as [user|] eqn:Hfind.
  - apply find_Some in Hfind as (_ & _ & Hex).
    rewrite decide_True by done. by eexists.
  - apply find_None in Hfind. rewrite decide_False by done.
    unfold Api.fake. cbn -[Faker.string_alphanumeric].
    match goal with
    | |- context [Faker.string_alphanumeric 64 ?f] =>
        pose proof (string_alphanumeric_length 64 f) as Hlen;
        pose proof (string_alphanumeric_chars 64 f) as Hchars;
        destruct (Faker.string_alphanumeric 64 f) as [token f']
    end.
    eexists _, _, _. split; [reflexivity|]. by split_and!.
Qed.

(** C7. [AuthService.resetPassword] returns [true] exactly when some
    user of the list has the given email, whatever the OTP and the new
    password.  When it returns [true], the first user with that email
    has a new [updatedAt] and is otherwise the same, and every other
    entry of the list is untouched; when it returns [false] the state is
    unchanged. *)
Theorem resetPassword_true_iff_user_exists
    (email otp newPassword : string) (w : Api.t) :
  ∃ (b : bool) w',
    AuthService.resetPassword email otp newPassword w = (inr b, w')
    ∧ (b = true ↔ Exists (λ u, User.email u = email) (Api.users w))
    ∧ if b then
        ∃ (i : nat) user user',
          Api.users w !! i = Some user
          ∧ User.email user = email
          ∧ (∀ (j : nat) y, Api.users w !! j = Some y → (j < i)%nat →
               User.email y ≠ email)
          ∧ Api.users w' !! i = Some user'
          ∧ same_but_updatedAt user user'
          ∧ User.updatedAt user' = DateObject (Api.clock w)
          ∧ length (Api.users w') = length (Api.users w)
          ∧ ∀ j : nat, j ≠ i → Api.users w' !! j = Api.users w !! j
      else w' = w.
Proof.
  unfold AuthService.resetPassword, mbind, Eff_bind, gets.
  destruct (list_find _ (Api.users w)) as [[i user]|] eqn:Hfind.
  - apply list_find_Some in Hfind as (Hi & Hmail & Hfirst).
    eexists true, _. split; [reflexivity|]. split.
    + split; [intros _|done]. apply Exists_exists.
      eauto using list_elem_of_lookup_2.
    + exists i, user, (AuthService.touch (DateObject (Api.clock w)) user).
      simpl. split_and!; try done.
      * apply list_lookup_insert_eq. by eapply lookup_lt_Some.
      * apply length_insert.
      * intros j Hj. by apply list_lookup_insert_ne.
  - apply list_find_None in Hfind.
    eexists false, _. split; [reflexivity|]. split; [|done].
    split; [done|]. intros Hex%Exists_exists.
    destruct Hex as (u & Hu & Hmail).
    by eapply Forall_forall in Hfind.
Qed.

(** Running the three services on the sample state. *)
Example login_sample :
  (∃ token w', AuthService.login "ana@example.com" "secret" Sample.world
                 = (inr (Sample.ana, token), w')
               ∧ Api.users w' = [Sample.ana])
  ∧ (∃ user token w', AuthService.login "bob@example.com" "" Sample.world
                        = (inr (user, token), w')
                      ∧ User.id user = "fake-0"
                      ∧ Api.users w' = [Sample.ana; user]).
Proof.
  split.
  - eexists _, _. split; [vm_compute; reflexivity|]. reflexivity.
  - eexists _, _, _. split; [vm_compute; reflexivity|]. by split.
Qed.

Example register_sample :
  result (AuthService.register "Ana" "ana@example.com" "secret") Sample.world
    = inl "Email já cadastrado"
  ∧ Api.users (exec (AuthService.register "Bob" "bob@example.com" "pw")
                 Sample.world)
    = [Sample.ana;
       User.mk "fake-0" "bob@example.com" "Bob" (Some "fake-1") None
         (DateObject 1700000000000) (DateObject 1700000000000)].
Proof. split; vm_compute; reflexivity. Qed.

Example resetPassword_sample :
  result (AuthService.resetPassword "ana@example.com" "000000" "new")
    Sample.world = inr true
  ∧ Api.users (exec (AuthService.resetPassword "ana@example.com" "1" "new")
                 Sample.world)
    = [User.mk "u-1" "ana@example.com" "Ana" (Some "555-0100") None
         (DateObject 0) (DateObject 1700000000000)]
  ∧ AuthService.resetPassword "bob@example.com" "000000" "new" Sample.world
    = (inr false, Sample.world).
Proof. repeat split. Qed.

(** ** Writing back to storage (C3) *)

Lemma run_cart_mirrored (op : CartMutation) (c : CartContext.t) :
  cart_mirrored (exec (run_cart op) c).
Proof.
  unfold cart_mirrored.
  destruct op as [product quantity|productId|productId quantity|]; simpl.
  - apply lookup_insert_eq.
  - apply lookup_insert_eq.
  - unfold CartContext.updateQuantity.
    destruct (quantity <=? 0); apply lookup_insert_eq.
  - apply lookup_insert_eq.
Qed.

Lemma run_favorites_mirrored (op : FavoritesMutation) (c : FavoritesContext.t) :
  favorites_mirrored (exec (run_favorites op) c).
Proof.
  unfold favorites_mirrored.
  destruct op as [product|productId|product]; simpl.
  - apply lookup_insert_eq.
  - apply lookup_insert_eq.
  - unfold FavoritesContext.toggleFavorite, FavoritesContext.isFavorite,
      exec, mbind, Eff_bind, gets, mret, Eff_ret.
    destruct (JS.some _ _); apply lookup_insert_eq.
Qed.

Lemma run_notifications_mirrored
    (op : NotificationMutation) (c : NotificationContext.t) :
  notifications_mirrored (exec (run_notifications op) c).
Proof.
  unfold notifications_mirrored.
  destruct op as [notification|id| |]; apply lookup_insert_eq.
Qed.

(** C3. Every mutating operation of the cart ([addToCart],
    [removeFromCart], [updateQuantity], [clearCart]), of the favorites
    ([addToFavorites], [removeFromFavorites], [toggleFavorite]) and of
    the notifications ([addNotification], [markAsRead], [markAllAsRead],
    [clearNotifications]) saves the list it has just set: afterwards the
    value stored under the provider's key is the serialization of the
    new in-memory list. *)
Theorem mutations_are_written_back :
  (∀ op c, cart_mirrored (exec (run_cart op) c))
  ∧ (∀ op c, favorites_mirrored (exec (run_favorites op) c))
  ∧ (∀ op c, notifications_mirrored (exec (run_notifications op) c)).
Proof.
  split_and!.
  - apply run_cart_mirrored.
  - apply run_favorites_mirrored.
  - apply run_notifications_mirrored.
Qed.

(** ** The cart's quantities (C8) *)

(** C8. [updateQuantity productId quantity] with [quantity ≤ 0] is
    [removeFromCart productId]: the items of that product are gone and
    the others are kept.  With [quantity > 0] the cart keeps its length
    and order, every item of that product gets the given quantity, and
    every other item is unchanged. *)
Theorem updateQuantity_removes_or_sets
    (productId : string) (quantity : Z) (c : CartContext.t) :
  (quantity ≤ 0 →
     CartContext.updateQuantity productId quantity c
       = CartContext.removeFromCart productId c
     ∧ CartContext.cartItems
         (exec (CartContext.updateQuantity productId quantity) c)
       = filter (λ item, Product.id (CartItem.product item) ≠ productId)
           (CartContext.cartItems c)
     ∧ Forall (λ item, Product.id (CartItem.product item) ≠ productId)
         (CartContext.cartItems
            (exec (CartContext.updateQuantity productId quantity) c)))
  ∧ (0 < quantity →
     length (CartContext.cartItems
               (exec (CartContext.updateQuantity productId quantity) c))
       = length (CartContext.cartItems c)
     ∧ ∀ (i : nat) item,
         CartContext.cartItems c !! i = Some item →
         ∃ item',
           CartContext.cartItems
             (exec (CartContext.updateQuantity productId quantity) c) !! i
             = Some item'
           ∧ CartItem.product item' = CartItem.product item
           ∧ if decide (Product.id (CartItem.product item) = productId)
             then CartItem.quantity item' = quantity
             else item' = item).
Proof.
  unfold CartContext.updateQuantity. split; intros Hq.
  - destruct (Z.leb_spec quantity 0) as [_|?]; [|lia].
    split_and!; [done..|].
    apply Forall_forall. intros item Hin. simpl in Hin.
    by apply list_elem_of_filter in Hin as [? _].
  - destruct (Z.leb_spec quantity 0) as [?|_]; [lia|].
    simpl. split; [apply length_fmap|].
    intros i item Hi. rewrite list_lookup_fmap, Hi; simpl.
    eexists; split; [reflexivity|].
    by case_decide.
Qed.

Lemma updateQuantity_removes_or_sets_witness :
  (CartContext.updateQuantity "p-1" 0 Sample.cart
     = CartContext.removeFromCart "p-1" Sample.cart
   ∧ CartContext.cartItems
       (exec (CartContext.updateQuantity "p-1" 0) Sample.cart)
     = filter (λ item, Product.id (CartItem.product item) ≠ "p-1")
         (CartContext.cartItems Sample.cart)
   ∧ Forall (λ item, Product.id (CartItem.product item) ≠ "p-1")
       (CartContext.cartItems
          (exec (CartContext.updateQuantity "p-1" 0) Sample.cart)))
  ∧ (length (CartContext.cartItems
               (exec (CartContext.updateQuantity "p-1" 5) Sample.cart))
       = length (CartContext.cartItems Sample.cart)
     ∧ ∀ (i : nat) item,
         CartContext.cartItems Sample.cart !! i = Some item →
         ∃ item',
           CartContext.cartItems
             (exec (CartContext.updateQuantity "p-1" 5) Sample.cart) !! i
             = Some item'
           ∧ CartItem.product item' = CartItem.product item
           ∧ if decide (Product.id (CartItem.product item) = "p-1")
             then CartItem.quantity item' = 5
             else item' = item).
Proof.
  split.
  - apply (updateQuantity_removes_or_sets "p-1" 0 Sample.cart). lia.
  - apply (updateQuantity_removes_or_sets "p-1" 5 Sample.cart). lia.
Defined.

Example updateQuantity_sample :
  CartContext.cartItems (exec (CartContext.updateQuantity "p-1" 5) Sample.cart)
    = [CartItem.mk Sample.shirt 5; CartItem.mk Sample.ball 1]
  ∧ CartContext.cartItems
      (exec (CartContext.updateQuantity "p-1" (-1)) Sample.cart)
    = [CartItem.mk Sample.ball 1]
  ∧ CartContext.cartItems
      (exec (CartContext.addToCart Sample.shirt 3) Sample.cart)
    = [CartItem.mk Sample.shirt 5; CartItem.mk Sample.ball 1]
  ∧ CartContext.cartItems
      (exec (CartContext.addToCart Sample.lamp 1) Sample.cart)
    = [CartItem.mk Sample.shirt 2; CartItem.mk Sample.ball 1;
       CartItem.mk Sample.lamp 1].
Proof. repeat split. Qed.

(** ** The unread counter (C9) *)

Lemma unread_all_read (l : list NotificationData.t) :
  Forall (λ n, NotificationData.read n = true) l → unread l = 0.
Proof.
  unfold unread. induction 1 as [|n l Hn _ IH]; [done|].
  rewrite filter_cons_False; [done|]. by rewrite Hn.
Qed.

Lemma markAllAsRead_all_read (c : NotificationContext.t) :
  Forall (λ n, NotificationData.read n = true)
    (NotificationContext.notifications
       (exec NotificationContext.markAllAsRead c)).
Proof. simpl. apply Forall_fmap. by apply Forall_true. Qed.

(** Every operation establishes the invariant, whatever the counter
    was before. *)
Lemma run_notifications_consistent
    (op : NotificationMutation) (c : NotificationContext.t) :
  unread_consistent (exec (run_notifications op) c).
Proof.
  unfold unread_consistent.
  destruct op as [notification|id| |]; try reflexivity.
  symmetry. apply unread_all_read, markAllAsRead_all_read.
Qed.

(** C9. [unreadCount] equals the number of notifications whose [read]
    flag is false: a state that satisfies this still does after any of
    [addNotification], [markAsRead], [markAllAsRead] and
    [clearNotifications]; after [markAllAsRead] the counter is 0 and
    every notification is read. *)
Theorem unreadCount_counts_unread
    (op : NotificationMutation) (c : NotificationContext.t) :
  unread_consistent c →
  unread_consistent (exec (run_notifications op) c)
  ∧ NotificationContext.unreadCount
      (exec NotificationContext.markAllAsRead c) = 0
  ∧ Forall (λ n, NotificationData.read n = true)
      (NotificationContext.notifications
         (exec NotificationContext.markAllAsRead c)).
Proof.
  intros _. split_and!.
  - apply run_notifications_consistent.
  - reflexivity.
  - apply markAllAsRead_all_read.
Qed.

Lemma unreadCount_counts_unread_witness :
  unread_consistent
    (exec (run_notifications (MarkAsRead "1699999999999")) Sample.inbox)
  ∧ NotificationContext.unreadCount
      (exec NotificationContext.markAllAsRead Sample.inbox) = 0
  ∧ Forall (λ n, NotificationData.read n = true)
      (NotificationContext.notifications
         (exec NotificationContext.markAllAsRead Sample.inbox)).
Proof.
  apply (unreadCount_counts_unread (MarkAsRead "1699999999999") Sample.inbox).
  reflexivity.
Defined.

Example notifications_sample :
  NotificationContext.unreadCount
    (exec (NotificationContext.markAsRead "1699999999999") Sample.inbox) = 0
  ∧ NotificationContext.unreadCount
      (exec (NotificationContext.addNotification Sample.offer) Sample.inbox) = 2
  ∧ NotificationData.id <$>
      NotificationContext.notifications
        (exec (NotificationContext.addNotification Sample.offer) Sample.inbox)
    = ["1700000000000"; "1699999999999"; "1699999999000"].
Proof. repeat split; vm_compute; reflexivity. Qed.

(** ** Saving and loading again (C6) *)

Lemma Date_roundtrip (d : Date) :
  fromJSON (toJSON d) = Some (Date_stored d).
Proof. by destruct d. Qed.

Lemma Product_roundtrip (p : Product.t) :
  fromJSON (toJSON p) = Some (Product_stored p).
Proof. destruct p as [? ? ? ? ? ? ? [t|s] [t'|s']]; reflexivity. Qed.



Lemma list_roundtrip {A} `{JSON A} (stored : A → A) (l : list A) :
  (∀ x, fromJSON (toJSON x) = Some (stored x)) →
  JSON_parse (JSON_stringify l) = Some (stored <$> l).
Proof.
  intros Hx. unfold JSON_parse, JSON_stringify. simpl.
  apply mapM_Some. induction l as [|x l IH]; constructor; [apply Hx|done].
Qed.










(** ** Pagination (C1) *)

(** C1. For a page number [p ≥ 1] and a limit [l ≥ 1],
    [ProductService.getProducts] answers with the slice of the products
    array from index [(p-1)*l] to [(p-1)*l + l] (exclusive), the length
    of the array as [total] and the ceiling of [total / l] as
    [totalPages], and leaves the state alone.
    [MyProductsService.getMyProductsPaginated] answers in the same way
    for the list in storage: when the storage key holds the
    serialization of [items], as [addMyProduct] and [removeMyProduct]
    leave it, the response is that page of [items] in their stored form
    (the dates as texts); when the key holds nothing, it is the page of
    the empty list. *)
Theorem getProducts_paginates (w : Api.t) (p l : Z) :
  1 ≤ p → 1 ≤ l →
  (∃ r, ProductService.getProducts p l w = (inr r, w)
        ∧ is_page (Api.products w) p l r)
  ∧ (∀ items,
       Api.storage w !! MyProductsService.STORAGE_KEY
         = Some (JSON_stringify items) →
       ∃ r, MyProductsService.getMyProductsPaginated p l w = (inr r, w)
            ∧ is_page (Product_stored <$> items) p l r)
  ∧ (Api.storage w !! MyProductsService.STORAGE_KEY = None →
     ∃ r, MyProductsService.getMyProductsPaginated p l w = (inr r, w)
          ∧ is_page [] p l r).
Proof.
  intros Hp Hl. split_and!.
  - eexists; split; [reflexivity|]. by apply slice_is_page.
  - intros items Hstored.
    unfold MyProductsService.getMyProductsPaginated,
      MyProductsService.getMyProducts, mbind, Eff_bind, gets.
    rewrite Hstored.
    rewrite (list_roundtrip Product_stored) by apply Product_roundtrip.
    eexists; split; [reflexivity|]. by apply slice_is_page.
  - intros Hnone.
    unfold MyProductsService.getMyProductsPaginated,
      MyProductsService.getMyProducts, mbind, Eff_bind, gets.
    rewrite Hnone.
    eexists; split; [reflexivity|]. by apply slice_is_page.
Qed.

Lemma getProducts_paginates_witness :
  (∃ r, ProductService.getProducts 2 2 Sample.world = (inr r, Sample.world)
        ∧ is_page (Api.products Sample.world) 2 2 r)
  ∧ (∃ r, MyProductsService.getMyProductsPaginated 2 2 Sample.world
            = (inr r, Sample.world)
          ∧ is_page
              (Product_stored <$> [Sample.lamp; Sample.ball; Sample.shirt])
              2 2 r).
Proof.
  split.
  - apply (getProducts_paginates Sample.world 2 2); lia.
  - apply (getProducts_paginates Sample.world 2 2); [lia|lia|reflexivity].
Defined.

(** ** Distinct identifiers (C4) *)

Section distinct.
Context {A : Type} (key : A → string).

Lemma filter_keys_NoDup (P : A → Prop) `{!∀ x, Decision (P x)} (l : list A) :
  NoDup (key <$> l) → NoDup (key <$> filter P l).
Proof.
  intros Hl. eapply sublist_NoDup; [exact Hl|].
  apply fmap_sublist, sublist_filter.
Qed.

Lemma fmap_keys (f : A → A) (l : list A) :
  (∀ x, key (f x) = key x) → key <$> (f <$> l) = key <$> l.
Proof.
  intros Hf. rewrite <- list_fmap_compose.
  apply list_fmap_ext. intros i x _. apply Hf.
Qed.

Lemma alter_keys (f : A → A) (i : nat) (l : list A) :
  (∀ x, key (f x) = key x) → key <$> alter f i l = key <$> l.
Proof.
  intros Hf. rewrite (list_fmap_alter key f id).
  - apply list_eq. intros j.
    destruct (decide (i = j)) as [->|Hne].
    + rewrite list_lookup_alter_eq. by destruct (_ !! j).
    + by rewrite list_lookup_alter_ne.
  - apply Forall_forall. intros x _. apply Hf.
Qed.

Lemma snoc_keys_NoDup (x : A) (l : list A) :
  key x ∉ key <$> l → NoDup (key <$> l) → NoDup (key <$> (l ++ [x])).
Proof.
  intros Hx Hl. rewrite fmap_app. apply NoDup_app. split_and!; [done| |].
  - intros k Hk [->|[]%elem_of_nil]%elem_of_cons. done.
  - apply NoDup_singleton.
Qed.
End distinct.

Lemma some_false {A} (P : A → Prop) `{!∀ x, Decision (P x)} (l : list A) :
  JS.some P l = false → Forall (λ x, ¬ P x) l.
Proof.
  unfold JS.some. intros Hsome%bool_decide_eq_false.
  apply Forall_forall. intros x Hx HP. apply Hsome, Exists_exists. eauto.
Qed.

Lemma not_key_in {A} (key : A → string) (k : string) (l : list A) :
  Forall (λ x, key x ≠ k) l → k ∉ key <$> l.
Proof.
  intros Hall (x & -> & Hx)%list_elem_of_fmap.
  by eapply Forall_forall in Hall.
Qed.

Lemma run_cart_distinct (op : CartMutation) (c : CartContext.t) :
  NoDup (cart_ids c) → NoDup (cart_ids (exec (run_cart op) c)).
Proof.
  unfold cart_ids. intros Hc.
  destruct op as [product quantity|productId|productId quantity|]; simpl.
  - unfold JS.findIndex.
    destruct (list_find _ (CartContext.cartItems c)) as [[i item]|] eqn:Hfind.
    + destruct (Z.leb_spec 0 (Z.of_nat i)) as [_|?]; [|lia].
      by rewrite alter_keys.
    + simpl. apply list_find_None in Hfind.
      apply snoc_keys_NoDup; [|done]. simpl.
      apply not_key_in. eapply Forall_impl; [exact Hfind|]. done.
  - by apply filter_keys_NoDup.
  - unfold CartContext.updateQuantity.
    destruct (quantity <=? 0); simpl.
    + by apply filter_keys_NoDup.
    + rewrite fmap_keys; [done|]. intros item. by case_decide.
  - apply NoDup_nil_2.
Qed.

Lemma run_favorites_distinct (op : FavoritesMutation) (c : FavoritesContext.t) :
  NoDup (favorite_ids c) → guarded op c →
  NoDup (favorite_ids (exec (run_favorites op) c)).
Proof.
  unfold favorite_ids. intros Hc Hop.
  destruct op as [product|productId|product]; simpl.
  - by apply snoc_keys_NoDup.
  - by apply filter_keys_NoDup.
  - unfold FavoritesContext.toggleFavorite, FavoritesContext.isFavorite,
      exec, mbind, Eff_bind, gets, mret, Eff_ret.
    destruct (JS.some _ _) eqn:Hsome; simpl.
    + by apply filter_keys_NoDup.
    + apply snoc_keys_NoDup; [|done].
      apply not_key_in. by apply some_false in Hsome.
Qed.

Lemma run_notifications_distinct
    (op : NotificationMutation) (c : NotificationContext.t) :
  NoDup (notification_ids c) → fresh op c →
  NoDup (notification_ids (exec (run_notifications op) c)).
Proof.
  unfold notification_ids. intros Hc Hop.
  destruct op as [notification|id| |]; simpl.
  - by apply NoDup_cons.
  - rewrite fmap_keys; [done|]. intros n. by case_decide.
  - by rewrite fmap_keys.
  - apply NoDup_nil_2.
Qed.

Lemma myProducts_after_save (l : list Product.t) (w : Api.t) :
  myProducts
    (Api.set_storage <[MyProductsService.STORAGE_KEY := JSON_stringify l]> w)
  = Product_stored <$> l.
Proof.
  unfold myProducts, result, MyProductsService.getMyProducts, mbind, Eff_bind,
    gets.
  simpl. rewrite lookup_insert_eq.
  by rewrite (list_roundtrip Product_stored) by apply Product_roundtrip.
Qed.

Lemma addMyProduct_myProducts (product : Product.t) (w : Api.t) :
  myProducts (exec (MyProductsService.addMyProduct product) w)
  = Product_stored <$> (product :: myProducts w).
Proof.
  destruct (getMyProducts_reads w) as [stored Hs].
  assert (myProducts w = stored) as ->
    by (unfold myProducts, result; by rewrite Hs).
  unfold exec, MyProductsService.addMyProduct, mbind, Eff_bind. rewrite Hs.
  apply myProducts_after_save.
Qed.

Lemma removeMyProduct_myProducts (productId : string) (w : Api.t) :
  myProducts (exec (MyProductsService.removeMyProduct productId) w)
  = Product_stored <$>
      filter (λ p, Product.id p ≠ productId) (myProducts w).
Proof.
  destruct (getMyProducts_reads w) as [stored Hs].
  assert (myProducts w = stored) as ->
    by (unfold myProducts, result; by rewrite Hs).
  unfold exec, MyProductsService.removeMyProduct, mbind, Eff_bind. rewrite Hs.
  apply myProducts_after_save.
Qed.

Lemma login_users (email password : string) (w : Api.t) :
  Api.products (exec (AuthService.login email password) w) = Api.products w
  ∧ Api.storage (exec (AuthService.login email password) w) = Api.storage w
  ∧ (Api.users (exec (AuthService.login email password) w) = Api.users w
     ∨ ∃ user, User.id user = next_uuid w
         ∧ Api.users (exec (AuthService.login email password) w)
           = Api.users w ++ [user]).
Proof.
  unfold exec, AuthService.login, mbind, Eff_bind, gets.
  destruct (JS.find _ (Api.users w)) as [user|];
    unfold mret, Eff_ret, Api.fake; cbn -[Faker.string_alphanumeric];
    destruct (Faker.string_alphanumeric 64 _) as [token f'];
    split_and!; try done;
    [by left | right; eexists; split; [|reflexivity]; reflexivity].
Qed.

Lemma register_users (name email password : string) (w : Api.t) :
  Api.products (exec (AuthService.register name email password) w)
    = Api.products w
  ∧ Api.storage (exec (AuthService.register name email password) w)
    = Api.storage w
  ∧ (Api.users (exec (AuthService.register name email password) w)
       = Api.users w
     ∨ ∃ user, User.id user = next_uuid w
         ∧ Api.users (exec (AuthService.register name email password) w)
           = Api.users w ++ [user]).
Proof.
  unfold exec, AuthService.register, mbind, Eff_bind, gets.
  destruct (JS.find _ (Api.users w)) as [user|].
  - split_and!; try done. by left.
  - unfold mret, Eff_ret, Api.fake; cbn -[Faker.string_alphanumeric].
    destruct (Faker.string_alphanumeric 64 _) as [token f'].
    split_and!; try done.
    right; eexists; split; [|reflexivity]; reflexivity.
Qed.

Lemma resetPassword_user_ids (email otp newPassword : string) (w : Api.t) :
  Api.products (exec (AuthService.resetPassword email otp newPassword) w)
    = Api.products w
  ∧ Api.storage (exec (AuthService.resetPassword email otp newPassword) w)
    = Api.storage w
  ∧ user_ids (exec (AuthService.resetPassword email otp newPassword) w)
    = user_ids w.
Proof.
  unfold user_ids, exec, AuthService.resetPassword, mbind, Eff_bind, gets.
  destruct (list_find _ (Api.users w)) as [[i user]|] eqn:Hfind; [|done].
  apply list_find_Some in Hfind as (Hi & _ & _). simpl.
  split_and!; try done.
  rewrite list_fmap_insert. apply list_insert_id.
  by rewrite list_lookup_fmap, Hi.
Qed.

Lemma myProduct_ids_storage (w w' : Api.t) :
  Api.storage w' = Api.storage w → myProduct_ids w' = myProduct_ids w.
Proof.
  unfold myProduct_ids, myProducts, result, MyProductsService.getMyProducts,
    mbind, Eff_bind, gets.
  simpl. intros ->.
  destruct (Api.storage w !! MyProductsService.STORAGE_KEY) as [text|];
    [|done].
  by destruct (@JSON_parse (list Product.t) _ text).
Qed.

Lemma run_api_distinct (op : ApiMutation) (w : Api.t) :
  NoDup (product_ids w) → NoDup (user_ids w) → NoDup (myProduct_ids w) →
  minted op w →
  NoDup (product_ids (run_api op w))
  ∧ NoDup (user_ids (run_api op w))
  ∧ NoDup (myProduct_ids (run_api op w)).
Proof.
  intros Hp Hu Hm Hop.
  destruct op as [productData|email password|name email password
                 |email otp newPassword|product|productId]; simpl in *.
  - split_and!; [|done|by rewrite (myProduct_ids_storage w)].
    unfold product_ids; simpl. by apply NoDup_cons.
  - destruct (login_users email password w) as (Hprod & Hsto & Husers).
    unfold product_ids. rewrite Hprod, (myProduct_ids_storage w) by done.
    split_and!; [done| |done].
    unfold user_ids in *.
    destruct Husers as [->|(user & Hid & ->)]; [done|].
    apply snoc_keys_NoDup; [by rewrite Hid|done].
  - destruct (register_users name email password w) as (Hprod & Hsto & Husers).
    unfold product_ids. rewrite Hprod, (myProduct_ids_storage w) by done.
    split_and!; [done| |done].
    unfold user_ids in *.
    destruct Husers as [->|(user & Hid & ->)]; [done|].
    apply snoc_keys_NoDup; [by rewrite Hid|done].
  - destruct (resetPassword_user_ids email otp newPassword w)
      as (Hprod & Hsto & Husers).
    unfold product_ids. rewrite Hprod, Husers, (myProduct_ids_storage w) by done.
    done.
  - split_and!; [by destruct (getMyProducts_reads w) as [stored Hs];
                   unfold product_ids, exec, MyProductsService.addMyProduct,
                     mbind, Eff_bind; rewrite Hs
                |by destruct (getMyProducts_reads w) as [stored Hs];
                   unfold user_ids, exec, MyProductsService.addMyProduct,
                     mbind, Eff_bind; rewrite Hs|].
    unfold myProduct_ids in *. rewrite addMyProduct_myProducts.
    rewrite (fmap_keys Product.id) by done.
    by apply NoDup_cons.
  - split_and!; [by destruct (getMyProducts_reads w) as [stored Hs];
                   unfold product_ids, exec, MyProductsService.removeMyProduct,
                     mbind, Eff_bind; rewrite Hs
                |by destruct (getMyProducts_reads w) as [stored Hs];
                   unfold user_ids, exec, MyProductsService.removeMyProduct,
                     mbind, Eff_bind; rewrite Hs|].
    unfold myProduct_ids in *. rewrite removeMyProduct_myProducts.
    rewrite (fmap_keys Product.id) by done.
    by apply filter_keys_NoDup.
Qed.

(** C4, as the code has it.  Starting from lists with distinct
    identifiers: every cart operation keeps the product identifiers of
    the cart distinct; [removeFromFavorites] and [toggleFavorite] keep
    those of the favorites distinct, and [addToFavorites] does when the
    product is not a favorite yet; [markAsRead], [markAllAsRead] and
    [clearNotifications] keep those of the notifications distinct, and
    [addNotification] does when no notification carries the current
    instant as its identifier; the services keep those of the catalogue,
    of the users and of the stored products distinct when the identifier
    they add is not in the list yet. *)
Theorem identifiers_stay_distinct
    (cart : CartContext.t) (favorites : FavoritesContext.t)
    (inbox : NotificationContext.t) (w : Api.t)
    (cart_op : CartMutation) (favorites_op : FavoritesMutation)
    (inbox_op : NotificationMutation) (api_op : ApiMutation) :
  NoDup (cart_ids cart) →
  NoDup (favorite_ids favorites) →
  NoDup (notification_ids inbox) →
  NoDup (product_ids w) → NoDup (user_ids w) → NoDup (myProduct_ids w) →
  guarded favorites_op favorites →
  fresh inbox_op inbox →
  minted api_op w →
  NoDup (cart_ids (exec (run_cart cart_op) cart))
  ∧ NoDup (favorite_ids (exec (run_favorites favorites_op) favorites))
  ∧ NoDup (notification_ids (exec (run_notifications inbox_op) inbox))
  ∧ NoDup (product_ids (run_api api_op w))
  ∧ NoDup (user_ids (run_api api_op w))
  ∧ NoDup (myProduct_ids (run_api api_op w)).
Proof.
  intros Hcart Hfav Hinbox Hp Hu Hm Hguard Hfresh Hminted. split_and!.
  - by apply run_cart_distinct.
  - by apply run_favorites_distinct.
  - by apply run_notifications_distinct.
  - by apply run_api_distinct.
  - by apply run_api_distinct.
  - by apply run_api_distinct.
Qed.

Lemma identifiers_stay_distinct_witness :
  NoDup (cart_ids (exec (run_cart (AddToCart Sample.shirt 1)) Sample.cart))
  ∧ NoDup (favorite_ids
             (exec (run_favorites (AddToFavorites Sample.ball))
                Sample.favorites))
  ∧ NoDup (notification_ids
             (exec (run_notifications (AddNotification Sample.offer))
                Sample.inbox))
  ∧ NoDup (product_ids (run_api (Login "bob@example.com" "pw") Sample.catalogue))
  ∧ NoDup (user_ids (run_api (Login "bob@example.com" "pw") Sample.catalogue))
  ∧ NoDup (myProduct_ids
             (run_api (Login "bob@example.com" "pw") Sample.catalogue)).
Proof.
  apply (identifiers_stay_distinct Sample.cart Sample.favorites Sample.inbox
           Sample.catalogue
           (AddToCart Sample.shirt 1) (AddToFavorites Sample.ball)
           (AddNotification Sample.offer) (Login "bob@example.com" "pw")).
  - by_evaluation.
  - by_evaluation.
  - by_evaluation.
  - by_evaluation.
  - by_evaluation.
  - by_evaluation.
  - unfold guarded. by_evaluation.
  - unfold fresh. by_evaluation.
  - unfold minted. by_evaluation.
Defined.

(** C4 as stated fails.  The favorites hold one product, with a single
    identifier, and [addToFavorites] of that product leaves a list that
    holds the identifier twice.  Likewise a notification added in the
    millisecond whose number is already an identifier repeats it. *)
Lemma addToFavorites_repeats_identifier :
  (NoDup (favorite_ids Sample.favorites)
   ∧ favorite_ids
       (exec (run_favorites (AddToFavorites Sample.shirt)) Sample.favorites)
     = ["p-1"; "p-1"]
   ∧ ¬ NoDup
         (favorite_ids
            (exec (run_favorites (AddToFavorites Sample.shirt))
               Sample.favorites)))
  ∧ (NoDup (notification_ids Sample.same_instant)
     ∧ notification_ids
         (exec (run_notifications (AddNotification Sample.offer))
            Sample.same_instant)
       = ["1699999999999"; "1699999999999"; "1699999999000"]
     ∧ ¬ NoDup
           (notification_ids
              (exec (run_notifications (AddNotification Sample.offer))
                 Sample.same_instant))).
Proof.
  split; split_and!.
  - by_evaluation.
  - reflexivity.
  - intros Hdup. apply NoDup_cons in Hdup as [Hnotin _].
    apply Hnotin. by left.
  - by_evaluation.
  - vm_compute. reflexivity.
  - intros Hdup. apply NoDup_cons in Hdup as [Hnotin _].
    apply Hnotin. vm_compute. by left.
Qed.

Example toggleFavorite_sample :
  favorite_ids
    (exec (FavoritesContext.toggleFavorite Sample.shirt) Sample.favorites) = []
  ∧ favorite_ids
      (exec (FavoritesContext.toggleFavorite Sample.ball) Sample.favorites)
    = ["p-1"; "p-2"].
Proof. split; vm_compute; reflexivity. Qed.

(** * Further properties *)

(** ** The catalogue *)

Lemma includes_empty (s : string) : JS.includes s "" = true.
Proof. by destruct s. Qed.

Lemma matches_empty_query (x : Product.t) : ProductService.matches "" x = true.
Proof. unfold ProductService.matches. simpl. by rewrite includes_empty. Qed.

Lemma filter_all {A} (P : A → Prop) `{!∀ x, Decision (P x)} (l : list A) :
  Forall P l → filter P l = l.
Proof.
  induction 1 as [|x l Hx _ IH]; [done|].
  by rewrite filter_cons_True, IH.
Qed.

(** An empty query matches every product: [searchProducts] then answers
    as [getProducts] does. *)
Theorem searchProducts_empty_query (p l : Z) (w : Api.t) :
  ProductService.searchProducts "" p l w = ProductService.getProducts p l w.
Proof.
  unfold ProductService.searchProducts, ProductService.getProducts, mbind,
    Eff_bind, gets, mret, Eff_ret.
  rewrite filter_all; [done|].
  apply Forall_forall. intros x _. apply matches_empty_query.
Qed.

(** Two queries that differ only in the case of their letters get the
    same answer. *)
Theorem searchProducts_ignores_case (q q' : string) (p l : Z) (w : Api.t) :
  JS.toLowerCase q = JS.toLowerCase q' →
  ProductService.searchProducts q p l w = ProductService.searchProducts q' p l w.
Proof.
  intros Hq.
  unfold ProductService.searchProducts, mbind, Eff_bind, gets, mret, Eff_ret.
  rewrite (list_filter_iff (λ x, ProductService.matches q x = true)
             (λ x, ProductService.matches q' x = true)); [done|].
  intros x. by rewrite (matches_case_insensitive q q').
Qed.

Lemma searchProducts_ignores_case_witness :
  ProductService.searchProducts "SHIRT" 1 10 Sample.world
  = ProductService.searchProducts "shirt" 1 10 Sample.world.
Proof.
  apply (searchProducts_ignores_case "SHIRT" "shirt" 1 10 Sample.world).
  reflexivity.
Defined.

Lemma page_data_slice (w : Api.t) (l : Z) (p : nat) :
  1 ≤ l →
  page_data w l (S p)
  = take (Z.to_nat l) (drop (p * Z.to_nat l) (Api.products w)).
Proof.
  intros Hl. unfold page_data, result. simpl.
  replace (Z.of_nat (S p) - 1) with (Z.of_nat p) by lia.
  rewrite slice_take_drop by nia. f_equal. f_equal. nia.
Qed.

Lemma pages_concat (w : Api.t) (l : Z) (n : nat) :
  1 ≤ l →
  mjoin (page_data w l <$> seq 1 n) = take (n * Z.to_nat l) (Api.products w).
Proof.
  intros Hl. induction n as [|n IH]; [done|].
  rewrite seq_S, fmap_app, join_app, IH. simpl.
  rewrite app_nil_r, page_data_slice by done.
  rewrite take_take_drop. f_equal. lia.
Qed.

(** The pages of a fixed limit [l ≥ 1] cut the catalogue into
    consecutive blocks: pages [1 .. n] put end to end are its first
    [n * l] products, the pages up to [totalPages] are the whole
    catalogue, and every later page is empty. *)
Theorem pages_cover_the_catalogue (w : Api.t) (l : Z) (n : nat) :
  1 ≤ l →
  mjoin (page_data w l <$> seq 1 n) = take (n * Z.to_nat l) (Api.products w)
  ∧ ∃ (last : nat) r,
      ProductService.getProducts 1 l w = (inr r, w)
      ∧ PaginatedResponse.totalPages r = JS.Num (Z.of_nat last)
      ∧ mjoin (page_data w l <$> seq 1 last) = Api.products w
      ∧ ∀ p : nat, (last < p)%nat → page_data w l p = [].
Proof.
  intros Hl. split; [by apply pages_concat|].
  destruct (Math_ceil_div_spec (Z.of_nat (length (Api.products w))) l Hl)
    as (tp & Htp & Hlo & Hhi).
  assert (0 ≤ tp) as Hpos by nia.
  exists (Z.to_nat tp). eexists. split; [reflexivity|]. split_and!.
  - simpl. rewrite Htp. f_equal. lia.
  - rewrite pages_concat by done. apply take_ge. nia.
  - intros [|p] Hp; [lia|].
    rewrite page_data_slice by done.
    rewrite drop_ge by nia. apply take_nil.
Qed.

Lemma pages_cover_the_catalogue_witness :
  mjoin (page_data Sample.world 2 <$> seq 1 2)
    = take (2 * Z.to_nat 2) (Api.products Sample.world)
  ∧ ∃ (last : nat) r,
      ProductService.getProducts 1 2 Sample.world = (inr r, Sample.world)
      ∧ PaginatedResponse.totalPages r = JS.Num (Z.of_nat last)
      ∧ mjoin (page_data Sample.world 2 <$> seq 1 last)
        = Api.products Sample.world
      ∧ ∀ p : nat, (last < p)%nat → page_data Sample.world 2 p = [].
Proof. apply (pages_cover_the_catalogue Sample.world 2 2). lia. Defined.

Lemma find_head {A} (P : A → Prop) `{!∀ x, Decision (P x)} (x : A) (l : list A) :
  P x → JS.find P (x :: l) = Some x.
Proof. intros HP. unfold JS.find. simpl. by rewrite decide_True. Qed.

(** A product that has just been added is the one [getProduct] finds
    under its identifier, it is the first product of the first page, and
    the catalogue has grown by one; its name and price are those given. *)
Theorem addProduct_then_getProduct
    (productData : Product.t) (l : Z) (w : Api.t) :
  1 ≤ l →
  ∃ newProduct w',
    ProductService.addProduct productData w = (inr newProduct, w')
    ∧ Product.name newProduct = Product.name productData
    ∧ Product.price newProduct = Product.price productData
    ∧ result (ProductService.getProduct (Product.id newProduct)) w'
      = inr (Some newProduct)
    ∧ head (page_data w' l 1) = Some newProduct
    ∧ length (Api.products w') = S (length (Api.products w)).
Proof.
  intros Hl. eexists _, _.
  split; [unfold ProductService.addProduct, Api.fake; cbn; reflexivity|].
  split_and!; try done.
  - unfold result; simpl. by rewrite find_head.
  - rewrite page_data_slice by done. simpl.
    destruct (Z.to_nat l) as [|k] eqn:Hk; [lia|]. done.
Qed.

Lemma addProduct_then_getProduct_witness :
  ∃ newProduct w',
    ProductService.addProduct Sample.lamp Sample.world = (inr newProduct, w')
    ∧ Product.name newProduct = Product.name Sample.lamp
    ∧ Product.price newProduct = Product.price Sample.lamp
    ∧ result (ProductService.getProduct (Product.id newProduct)) w'
      = inr (Some newProduct)
    ∧ head (page_data w' 10 1) = Some newProduct
    ∧ length (Api.products w') = S (length (Api.products Sample.world)).
Proof. apply (addProduct_then_getProduct Sample.lamp 10 Sample.world). lia. Defined.

(** ** Accounts *)

Section find_more.
Context {A : Type} (P : A → Prop) `{!∀ x, Decision (P x)}.

Lemma find_not_Exists (xs : list A) : ¬ Exists P xs → JS.find P xs = None.
Proof.
  intros Hno. unfold JS.find.
  destruct (list_find P xs) as [[i y]|] eqn:E; [|done].
  apply list_find_Some in E as (Hi & HP & _).
  exfalso. apply Hno, Exists_exists. eauto using list_elem_of_lookup_2.
Qed.

Lemma find_snoc (xs : list A) (x : A) :
  JS.find P xs = None → P x → JS.find P (xs ++ [x]) = Some x.
Proof.
  intros Hnone HP. apply find_None in Hnone.
  induction xs as [|y xs IH]; simpl.
  - by apply find_head.
  - unfold JS.find in *. simpl. rewrite decide_False.
    + rewrite <- IH.
      * by destruct (list_find P (xs ++ [x])) as [[??]|].
      * intros Hex. apply Hnone. by right.
    + intros Hy. apply Hnone. by left.
Qed.

End find_more.

Lemma login_known (email password : string) (w : Api.t) (user : User.t) :
  JS.find (λ u, User.email u = email) (Api.users w) = Some user →
  ∃ token w',
    AuthService.login email password w = (inr (user, token), w')
    ∧ Api.users w' = Api.users w.
Proof.
  intros Hfind. unfold AuthService.login, mbind, Eff_bind, gets.
  rewrite Hfind. unfold mret, Eff_ret, Api.fake.
  destruct (Faker.string_alphanumeric 64 (Api.faker w)) as [token f'].
  by eexists _, _.
Qed.


Lemma register_known (name email password : string) (w : Api.t) (user : User.t) :
  JS.find (λ u, User.email u = email) (Api.users w) = Some user →
  AuthService.register name email password w = (inl "Email já cadastrado", w).
Proof.
  intros Hfind. unfold AuthService.register, mbind, Eff_bind, gets.
  by rewrite Hfind.
Qed.

Lemma register_unknown (name email password : string) (w : Api.t) :
  JS.find (λ u, User.email u = email) (Api.users w) = None →
  ∃ user token w',
    AuthService.register name email password w = (inr (user, token), w')
    ∧ User.name user = name
    ∧ User.email user = email
    ∧ User.id user = next_uuid w
    ∧ Api.users w' = Api.users w ++ [user]
    ∧ Api.products w' = Api.products w
    ∧ Api.storage w' = Api.storage w
    ∧ String.length token = 64%nat
    ∧ JS.find (λ u, User.email u = email) (Api.users w') = Some user.
Proof.
  intros Hfind. unfold AuthService.register, mbind, Eff_bind, gets.
  rewrite Hfind. unfold Api.fake. cbn -[Faker.string_alphanumeric].
  match goal with
  | |- context [Faker.string_alphanumeric 64 ?f] =>
      pose proof (string_alphanumeric_length 64 f) as Hlen;
      destruct (Faker.string_alphanumeric 64 f) as [token f']
  end.
  eexists _, _, _. split; [reflexivity|]. simpl.
  split_and!; try done. by apply find_snoc.
Qed.



(** When no user has the email, [register] creates the account, and from
    then on [login] with that email, whatever the password, returns the
    registered user without changing the list, while a second
    [register] with the email throws and changes nothing. *)
Theorem register_then_login
    (name email password password' : string) (w : Api.t) :
  ¬ Exists (λ u, User.email u = email) (Api.users w) →
  ∃ user token w1,
    AuthService.register name email password w = (inr (user, token), w1)
    ∧ User.name user = name
    ∧ User.email user = email
    ∧ (∃ token' w2,
         AuthService.login email password' w1 = (inr (user, token'), w2)
         ∧ Api.users w2 = Api.users w1)
    ∧ ∃ err, AuthService.register name email password w1 = (inl err, w1).
Proof.
  intros Hfree. apply (find_not_Exists _) in Hfree.
  destruct (register_unknown name email password w Hfree)
    as (user & token & w1 & Hrun & Hname & Hmail & _ & _ & _ & _ & _ & Hfind).
  exists user, token, w1. split_and!; [done..| |].
  - by apply login_known.
  - eexists. by eapply register_known.
Qed.

Lemma register_then_login_witness :
  ∃ user token w1,
    AuthService.register "Bob" "bob@example.com" "hunter22" Sample.world
      = (inr (user, token), w1)
    ∧ User.name user = "Bob"
    ∧ User.email user = "bob@example.com"
    ∧ (∃ token' w2,
         AuthService.login "bob@example.com" "other" w1
           = (inr (user, token'), w2)
         ∧ Api.users w2 = Api.users w1)
    ∧ ∃ err, AuthService.register "Bob" "bob@example.com" "hunter22" w1
               = (inl err, w1).
Proof.
  apply (register_then_login "Bob" "bob@example.com" "hunter22" "other"
           Sample.world).
  by_evaluation.
Defined.

(** ** My products *)

Ltac invert_binds H :=
  repeat match type of H with
         | mbind _ _ = Some _ => apply bind_Some in H as (? & ? & H)
         end.

Lemma Date_parsed (j : json) (d : Date) :
  fromJSON j = Some d → Date_stored d = d.
Proof. simpl. intros (s & _ & ->)%fmap_Some. done. Qed.

Lemma Product_parsed (j : json) (p : Product.t) :
  fromJSON j = Some p → Product_stored p = p.
Proof.
  destruct j as [| | | | |fs]; try done. cbn [fromJSON Product_JSON].
  intros H. invert_binds H.
  repeat match goal with
         | H : mbind _ _ = Some _ |- _ => apply bind_Some in H as (? & ? & H)
         end.
  injection H as <-. unfold Product_stored; simpl.
  repeat match goal with
         | H : fromJSON _ = Some _ |- _ =>
             apply Date_parsed in H; rewrite H; clear H
         end.
  done.
Qed.

Lemma myProducts_run (w : Api.t) :
  MyProductsService.getMyProducts w = (inr (myProducts w), w).
Proof.
  destruct (getMyProducts_reads w) as [stored Hs].
  unfold myProducts, result. by rewrite Hs.
Qed.

Lemma myProducts_stored (w : Api.t) :
  Forall (λ p, Product_stored p = p) (myProducts w).
Proof.
  unfold myProducts, result, MyProductsService.getMyProducts, mbind, Eff_bind,
    gets.
  destruct (Api.storage w !! MyProductsService.STORAGE_KEY) as [text|];
    [|by constructor].
  destruct (@JSON_parse (list Product.t) _ text) as [ps|] eqn:Hparse;
    [|by constructor].
  simpl. unfold JSON_parse in Hparse. cbn [fromJSON list_JSON] in Hparse.
  destruct text as [| | | |items|]; try done.
  apply mapM_Some_1 in Hparse.
  induction Hparse as [|j p items ps Hj _ IH]; constructor; [|done].
  by eapply Product_parsed.
Qed.

Lemma stored_fixed (l : list Product.t) :
  Forall (λ p, Product_stored p = p) l → Product_stored <$> l = l.
Proof.
  induction 1 as [|p l Hp _ IH]; [done|]. by rewrite fmap_cons, Hp, IH.
Qed.

(** [addMyProduct] puts the product, in its stored form, in front of the
    list that [getMyProducts] returns, and touches neither the catalogue
    nor the users. *)
Theorem addMyProduct_then_getMyProducts (product : Product.t) (w : Api.t) :
  result MyProductsService.getMyProducts
    (exec (MyProductsService.addMyProduct product) w)
  = inr (Product_stored product :: myProducts w)
  ∧ Api.products (exec (MyProductsService.addMyProduct product) w)
    = Api.products w
  ∧ Api.users (exec (MyProductsService.addMyProduct product) w) = Api.users w.
Proof.
  split_and!.
  - unfold result. rewrite myProducts_run. simpl.
    rewrite addMyProduct_myProducts, fmap_cons.
    by rewrite (stored_fixed (myProducts w)) by apply myProducts_stored.
  - unfold exec, MyProductsService.addMyProduct, mbind, Eff_bind.
    by rewrite myProducts_run.
  - unfold exec, MyProductsService.addMyProduct, mbind, Eff_bind.
    by rewrite myProducts_run.
Qed.

Lemma removeMyProduct_run (productId : string) (w : Api.t) :
  myProducts (exec (MyProductsService.removeMyProduct productId) w)
  = filter (λ p, Product.id p ≠ productId) (myProducts w).
Proof.
  rewrite removeMyProduct_myProducts. apply stored_fixed.
  pose proof (myProducts_stored w) as Hall.
  apply Forall_forall. intros p [_ Hp]%list_elem_of_filter.
  by eapply Forall_forall in Hall.
Qed.

(** [removeMyProduct] leaves in storage the products that
    [getMyProducts] returned before, without those that carry the
    identifier, in the same order. *)
Theorem removeMyProduct_then_getMyProducts (productId : string) (w : Api.t) :
  result MyProductsService.getMyProducts
    (exec (MyProductsService.removeMyProduct productId) w)
  = inr (filter (λ p, Product.id p ≠ productId) (myProducts w))
  ∧ productId ∉ myProduct_ids
                  (exec (MyProductsService.removeMyProduct productId) w).
Proof.
  split.
  - unfold result. rewrite myProducts_run. simpl. by rewrite removeMyProduct_run.
  - unfold myProduct_ids. rewrite removeMyProduct_run.
    intros (p & -> & [Hne _]%list_elem_of_filter)%list_elem_of_fmap. done.
Qed.

(** Removing a product that has just been added, and whose identifier
    was not in the list, gives back the list as it was. *)
Theorem removeMyProduct_undoes_addMyProduct (product : Product.t) (w : Api.t) :
  Product.id product ∉ myProduct_ids w →
  myProducts
    (exec (MyProductsService.removeMyProduct (Product.id product))
       (exec (MyProductsService.addMyProduct product) w))
  = myProducts w.
Proof.
  intros Hfresh. rewrite removeMyProduct_run, addMyProduct_myProducts.
  rewrite fmap_cons, filter_cons_False by (simpl; tauto).
  rewrite (stored_fixed (myProducts w)) by apply myProducts_stored.
  apply filter_all, Forall_forall.
  intros p Hp Heq. apply Hfresh. unfold myProduct_ids. rewrite <- Heq.
  by apply list_elem_of_fmap_2.
Qed.

Lemma removeMyProduct_undoes_addMyProduct_witness :
  myProducts
    (exec (MyProductsService.removeMyProduct (Product.id Sample.shirt))
       (exec (MyProductsService.addMyProduct Sample.shirt) Sample.catalogue))
  = myProducts Sample.catalogue.
Proof.
  apply (removeMyProduct_undoes_addMyProduct Sample.shirt Sample.catalogue).
  by_evaluation.
Defined.

(** ** The cart and the favorites *)

Lemma foldl_quantities (l : list CartItem.t) (a : Z) :
  foldl (λ total item, total + CartItem.quantity item) a l
  = a + foldl (λ total item, total + CartItem.quantity item) 0 l.
Proof.
  revert a. induction l as [|item l IH]; intros a; simpl; [lia|].
  rewrite (IH (a + _)), (IH (0 + _)). lia.
Qed.

Lemma foldl_quantities_alter (l : list CartItem.t) (i : nat) (q : Z) :
  is_Some (l !! i) →
  foldl (λ total item, total + CartItem.quantity item) 0
    (alter (λ item, CartItem.mk (CartItem.product item)
                      (CartItem.quantity item + q)) i l)
  = foldl (λ total item, total + CartItem.quantity item) 0 l + q.
Proof.
  set (g := λ item, CartItem.mk (CartItem.product item)
                      (CartItem.quantity item + q)).
  revert i. induction l as [|item l IH]; intros i [x Hx]; [done|].
  destruct i as [|i].
  - change (alter g 0%nat (item :: l)) with (g item :: l). cbn [foldl].
    rewrite (foldl_quantities l (0 + _)), (foldl_quantities l (0 + _)).
    simpl. lia.
  - change (alter g (S i) (item :: l)) with (item :: alter g i l). cbn [foldl].
    rewrite (foldl_quantities _ (0 + _)), (foldl_quantities l (0 + _)).
    rewrite IH by eauto. lia.
Qed.

(** For quantities whose sums are exact (non-negative integers, the
    total with [quantity] more within [Number.MAX_SAFE_INTEGER]),
    [addToCart product quantity] raises the number of items in the cart
    by [quantity], whether the product was in the cart or not, and
    afterwards the product is in the cart. *)
Theorem addToCart_adds_quantity
    (product : Product.t) (quantity : Z) (c : CartContext.t) :
  exact_sum c quantity →
  total_items (exec (CartContext.addToCart product quantity) c)
    = total_items c + quantity
  ∧ in_cart (Product.id product)
      (exec (CartContext.addToCart product quantity) c) = true.
Proof.
  intros _.
  unfold total_items, in_cart, result, exec, CartContext.addToCart,
    JS.findIndex.
  simpl.
  destruct (list_find _ (CartContext.cartItems c)) as [[i item]|] eqn:Hfind.
  - apply list_find_Some in Hfind as (Hi & Hid & _).
    destruct (Z.leb_spec 0 (Z.of_nat i)) as [_|?]; [|lia].
    rewrite Nat2Z.id. split.
    + apply foldl_quantities_alter. eauto.
    + apply bool_decide_eq_true, Exists_exists.
      exists (CartItem.mk (CartItem.product item)
                (CartItem.quantity item + quantity)).
      split; [|done].
      apply list_elem_of_lookup. exists i.
      by rewrite list_lookup_alter_eq, Hi.
  - simpl. split.
    + rewrite foldl_app. simpl. done.
    + apply bool_decide_eq_true, Exists_app. right. by constructor.
Qed.

Lemma addToCart_adds_quantity_witness :
  total_items (exec (CartContext.addToCart Sample.ball 3) Sample.cart)
    = total_items Sample.cart + 3
  ∧ in_cart (Product.id Sample.ball)
      (exec (CartContext.addToCart Sample.ball 3) Sample.cart) = true.
Proof.
  apply (addToCart_adds_quantity Sample.ball 3 Sample.cart).
  unfold exact_sum. split_and!; [by_evaluation|lia|by vm_compute].
Defined.

(** After [removeFromCart productId] the product is not in the cart, and
    any other product is in the cart exactly if it was before. *)
Theorem removeFromCart_then_isInCart
    (productId other : string) (c : CartContext.t) :
  other ≠ productId →
  in_cart productId (exec (CartContext.removeFromCart productId) c) = false
  ∧ in_cart other (exec (CartContext.removeFromCart productId) c)
    = in_cart other c.
Proof.
  intros Hother. unfold in_cart, result, exec, JS.some. simpl. split.
  - apply bool_decide_eq_false.
    intros (item & [Hne _]%list_elem_of_filter & Hid)%Exists_exists. done.
  - apply bool_decide_ext. rewrite !Exists_exists. split.
    + intros (item & [_ Hin]%list_elem_of_filter & Hid). eauto.
    + intros (item & Hin & Hid). exists item. split; [|done].
      apply list_elem_of_filter. split; [|done]. by rewrite Hid.
Qed.

Lemma removeFromCart_then_isInCart_witness :
  in_cart "p-1" (exec (CartContext.removeFromCart "p-1") Sample.cart) = false
  ∧ in_cart "p-2" (exec (CartContext.removeFromCart "p-1") Sample.cart)
    = in_cart "p-2" Sample.cart.
Proof.
  apply (removeFromCart_then_isInCart "p-1" "p-2" Sample.cart). done.
Defined.

(** [toggleFavorite] flips the answer of [isFavorite] for the product. *)
Theorem toggleFavorite_flips_isFavorite
    (product : Product.t) (c : FavoritesContext.t) :
  is_favorite (Product.id product)
    (exec (FavoritesContext.toggleFavorite product) c)
  = negb (is_favorite (Product.id product) c).
Proof.
  unfold is_favorite, result, exec, FavoritesContext.toggleFavorite,
    FavoritesContext.isFavorite, mbind, Eff_bind, gets, mret, Eff_ret.
  simpl. destruct (JS.some _ (FavoritesContext.favorites c)) eqn:Hsome; simpl.
  - apply bool_decide_eq_false.
    intros (item & [Hne _]%list_elem_of_filter & Hid)%Exists_exists. done.
  - apply bool_decide_eq_true, Exists_app. right. by constructor.
Qed.

(** Toggling twice a product that was not a favorite gives back the
    list of favorites as it was. *)
Theorem toggleFavorite_twice (product : Product.t) (c : FavoritesContext.t) :
  is_favorite (Product.id product) c = false →
  FavoritesContext.favorites
    (exec (FavoritesContext.toggleFavorite product)
       (exec (FavoritesContext.toggleFavorite product) c))
  = FavoritesContext.favorites c.
Proof.
  unfold is_favorite, result, exec, FavoritesContext.toggleFavorite,
    FavoritesContext.isFavorite, mbind, Eff_bind, gets, mret, Eff_ret.
  simpl. intros Hsome. rewrite Hsome. simpl.
  assert (JS.some (λ item, Product.id item = Product.id product)
            (FavoritesContext.favorites c ++ [product]) = true) as ->.
  { apply bool_decide_eq_true, Exists_app. right. by constructor. }
  simpl. rewrite filter_app, filter_cons_False by (simpl; tauto).
  rewrite filter_nil, app_nil_r.
  apply filter_all. by apply some_false in Hsome.
Qed.

Lemma toggleFavorite_twice_witness :
  FavoritesContext.favorites
    (exec (FavoritesContext.toggleFavorite Sample.ball)
       (exec (FavoritesContext.toggleFavorite Sample.ball) Sample.favorites))
  = FavoritesContext.favorites Sample.favorites.
Proof.
  apply (toggleFavorite_twice Sample.ball Sample.favorites). reflexivity.
Defined.

(** ** Notifications *)

Definition mark_read (id : string) (n : NotificationData.t) :
    NotificationData.t :=
  if decide (NotificationData.id n = id)
  then NotificationData.mk (NotificationData.id n) (NotificationData.title n)
         (NotificationData.message n) (NotificationData.type_ n) true
         (NotificationData.createdAt n)
  else n.

Lemma unread_cons (n : NotificationData.t) (l : list NotificationData.t) :
  unread (n :: l) = (if NotificationData.read n then 0 else 1) + unread l.
Proof.
  unfold unread. rewrite filter_cons.
  destruct (NotificationData.read n); simpl; [done|]. lia.
Qed.


Lemma unread_mark_read_le (id : string) (l : list NotificationData.t) :
  unread (mark_read id <$> l) ≤ unread l.
Proof.
  induction l as [|n l IH]; [done|].
  rewrite fmap_cons, !unread_cons. unfold mark_read at 1.
  case_decide; simpl; destruct (NotificationData.read n); lia.
Qed.

Lemma mark_read_idemp (id : string) (n : NotificationData.t) :
  mark_read id (mark_read id n) = mark_read id n.
Proof.
  unfold mark_read.
  destruct (decide (NotificationData.id n = id)) as [Hid|Hid]; simpl.
  - by rewrite decide_True.
  - by rewrite decide_False.
Qed.

Lemma addNotification_list
    (notification : NotificationData.t) (c : NotificationContext.t) :
  NotificationContext.notifications
    (exec (NotificationContext.addNotification notification) c)
  = NotificationData.mk (pretty (NotificationContext.clock c))
      (NotificationData.title notification)
      (NotificationData.message notification)
      (NotificationData.type_ notification) false
      (DateObject (NotificationContext.clock c))
    :: NotificationContext.notifications c.
Proof. reflexivity. Qed.

(** [addNotification] puts an unread notification with the given title,
    message and type in front of the list, and the unread counter
    becomes one more than the number of unread notifications there
    were. *)
Theorem addNotification_is_unread
    (notification : NotificationData.t) (c : NotificationContext.t) :
  ∃ new,
    NotificationContext.notifications
      (exec (NotificationContext.addNotification notification) c)
    = new :: NotificationContext.notifications c
    ∧ NotificationData.read new = false
    ∧ NotificationData.title new = NotificationData.title notification
    ∧ NotificationData.message new = NotificationData.message notification
    ∧ NotificationData.type_ new = NotificationData.type_ notification
    ∧ NotificationContext.unreadCount
        (exec (NotificationContext.addNotification notification) c)
      = unread (NotificationContext.notifications c) + 1.
Proof.
  eexists. split; [apply addNotification_list|]. split_and!; try done.
  pose proof (run_notifications_consistent (AddNotification notification) c)
    as Hc.
  unfold unread_consistent in Hc. cbn [run_notifications] in Hc.
  rewrite Hc, addNotification_list, unread_cons. simpl. lia.
Qed.

(** [markAsRead] never raises the number of unread notifications, keeps
    the length of the list, and doing it a second time changes neither
    the list nor the counter. *)
Theorem markAsRead_is_idempotent (id : string) (c : NotificationContext.t) :
  NotificationContext.unreadCount (exec (NotificationContext.markAsRead id) c)
    ≤ unread (NotificationContext.notifications c)
  ∧ length (NotificationContext.notifications
              (exec (NotificationContext.markAsRead id) c))
    = length (NotificationContext.notifications c)
  ∧ NotificationContext.notifications
      (exec (NotificationContext.markAsRead id)
         (exec (NotificationContext.markAsRead id) c))
    = NotificationContext.notifications
        (exec (NotificationContext.markAsRead id) c)
  ∧ NotificationContext.unreadCount
      (exec (NotificationContext.markAsRead id)
         (exec (NotificationContext.markAsRead id) c))
    = NotificationContext.unreadCount
        (exec (NotificationContext.markAsRead id) c).
Proof.
  assert (∀ c', NotificationContext.notifications
                  (exec (NotificationContext.markAsRead id) c')
                = mark_read id <$> NotificationContext.notifications c')
    as Hlist by done.
  assert (∀ c', NotificationContext.unreadCount
                  (exec (NotificationContext.markAsRead id) c')
                = unread (mark_read id <$> NotificationContext.notifications c'))
    as Hcount by done.
  assert (mark_read id <$> (mark_read id <$> NotificationContext.notifications c)
          = mark_read id <$> NotificationContext.notifications c) as Htwice.
  { rewrite <- list_fmap_compose. apply list_fmap_ext.
    intros i n _. apply mark_read_idemp. }
  rewrite !Hcount, !Hlist, Htwice. split_and!; try done.
  - apply unread_mark_read_le.
  - apply length_fmap.
Qed.

Lemma unread_mark_read_one (id : string) (l : list NotificationData.t) :
  NoDup (NotificationData.id <$> l) →
  (∃ n, n ∈ l ∧ NotificationData.id n = id ∧ NotificationData.read n = false) →
  unread (mark_read id <$> l) = unread l - 1.
Proof.
  induction l as [|m l IH]; intros Hdup (n & Hin & Hid & Hread).
  - by apply elem_of_nil in Hin.
  - rewrite fmap_cons in Hdup. apply NoDup_cons in Hdup as [Hm Hdup].
    rewrite fmap_cons, !unread_cons.
    apply elem_of_cons in Hin as [<-|Hin].
    + unfold mark_read at 1. rewrite decide_True by done. simpl.
      rewrite Hread.
      replace (mark_read id <$> l) with l; [lia|].
      symmetry. rewrite <- (list_fmap_id l) at 2. apply list_fmap_ext.
      intros i x Hx. unfold mark_read. rewrite decide_False; [done|].
      intros Hx'. apply Hm. rewrite Hid, <- Hx'.
      apply list_elem_of_fmap_2. by eapply list_elem_of_lookup_2.
    + unfold mark_read at 1. rewrite decide_False.
      * rewrite IH by eauto. lia.
      * intros Hm'. apply Hm. rewrite Hm', <- Hid.
        by apply list_elem_of_fmap_2.
Qed.

(** When the identifiers are distinct, [markAsRead] of an unread
    notification lowers the unread counter by exactly one. *)
Theorem markAsRead_counts_one_less
    (id : string) (c : NotificationContext.t) :
  NoDup (notification_ids c) →
  (∃ n, n ∈ NotificationContext.notifications c
        ∧ NotificationData.id n = id ∧ NotificationData.read n = false) →
  NotificationContext.unreadCount (exec (NotificationContext.markAsRead id) c)
  = unread (NotificationContext.notifications c) - 1.
Proof. intros Hdup Hn. by apply unread_mark_read_one. Qed.

Lemma markAsRead_counts_one_less_witness :
  NotificationContext.unreadCount
    (exec (NotificationContext.markAsRead "1699999999999") Sample.inbox)
  = unread (NotificationContext.notifications Sample.inbox) - 1.
Proof.
  apply (markAsRead_counts_one_less "1699999999999" Sample.inbox).
  - by_evaluation.
  - exists Sample.welcome. split_and!; [by left|done..].
Defined.

(** [markAsRead] of an identifier that no notification carries leaves
    the list as it is. *)
Theorem markAsRead_unknown_id (id : string) (c : NotificationContext.t) :
  id ∉ notification_ids c →
  NotificationContext.notifications
    (exec (NotificationContext.markAsRead id) c)
  = NotificationContext.notifications c.
Proof.
  intros Hid. simpl.
  rewrite <- (list_fmap_id (NotificationContext.notifications c)) at 2.
  apply list_fmap_ext. intros i n Hn. rewrite decide_False; [done|].
  intros <-. apply Hid. unfold notification_ids.
  apply list_elem_of_fmap_2. by eapply list_elem_of_lookup_2.
Qed.

Lemma markAsRead_unknown_id_witness :
  NotificationContext.notifications
    (exec (NotificationContext.markAsRead "42") Sample.inbox)
  = NotificationContext.notifications Sample.inbox.
Proof. apply (markAsRead_unknown_id "42" Sample.inbox). by_evaluation. Defined.


(** ** Restarting after a change *)






(** ** The session *)

Lemma User_roundtrip (u : User.t) :
  fromJSON (toJSON u) = Some (User_stored u).
Proof.
  destruct u as [? ? ? [phone|] [image|] [t|s] [t'|s']]; reflexivity.
Qed.

Lemma authReducer_consistent (s : AuthState.t) (action : AuthContext.AuthAction) :
  session_consistent s → session_consistent (AuthContext.authReducer s action).
Proof.
  unfold session_consistent.
  destruct action as [b|[u|]|u|]; simpl; try done;
    (split; [first [done | intros _; by eexists]
            | first [done | by intros [? ?]]]).
Qed.

(** The reducer keeps the session consistent: from [initialState], or
    from any state in which [isAuthenticated] holds exactly when there
    is a user, every sequence of actions leads to such a state; and
    after an action other than [SET_LOADING] the session is no longer
    loading. *)
Theorem authReducer_keeps_session_consistent
    (s : AuthState.t) (actions : list AuthContext.AuthAction) :
  session_consistent s →
  session_consistent (foldl AuthContext.authReducer s actions)
  ∧ session_consistent
      (foldl AuthContext.authReducer AuthContext.initialState actions)
  ∧ ∀ action,
      (∀ b, action ≠ AuthContext.SET_LOADING b) →
      AuthState.isLoading (AuthContext.authReducer s action) = false.
Proof.
  intros Hs.
  assert (∀ s', session_consistent s' →
                session_consistent (foldl AuthContext.authReducer s' actions))
    as Hfold.
  { induction actions as [|a actions IH]; intros s' Hs'; [done|].
    simpl. by apply IH, authReducer_consistent. }
  split_and!.
  - by apply Hfold.
  - apply Hfold. unfold session_consistent. simpl.
    split; [done | by intros [? ?]].
  - intros [b|u|u|] Hne; try done. by destruct (Hne b).
Qed.

Lemma authReducer_keeps_session_consistent_witness :
  session_consistent
    (foldl AuthContext.authReducer AuthContext.initialState
       [AuthContext.LOGIN_SUCCESS Sample.ana; AuthContext.SET_LOADING true])
  ∧ session_consistent
      (foldl AuthContext.authReducer AuthContext.initialState
         [AuthContext.LOGIN_SUCCESS Sample.ana; AuthContext.SET_LOADING true])
  ∧ ∀ action,
      (∀ b, action ≠ AuthContext.SET_LOADING b) →
      AuthState.isLoading
        (AuthContext.authReducer AuthContext.initialState action) = false.
Proof.
  apply (authReducer_keeps_session_consistent AuthContext.initialState
           [AuthContext.LOGIN_SUCCESS Sample.ana; AuthContext.SET_LOADING true]).
  unfold session_consistent. simpl. split; [done | by intros [? ?]].
Defined.

Lemma login_answers (email password : string) (w : Api.t) :
  ∃ user token w',
    AuthService.login email password w = (inr (user, token), w')
    ∧ User.email user = email
    ∧ String.length token = 64%nat
    ∧ user ∈ Api.users w'.
Proof.
  unfold AuthService.login, mbind, Eff_bind, gets.
  destruct (JS.find _ (Api.users w)) as [user|] eqn:Hfind.
  - apply find_Some in Hfind as (Hin & Hmail & _).
    unfold mret, Eff_ret, Api.fake.
    pose proof (string_alphanumeric_length 64 (Api.faker w)) as Hlen.
    destruct (Faker.string_alphanumeric 64 (Api.faker w)) as [token f'].
    by eexists _, _, _.
  - unfold Api.fake. cbn -[Faker.string_alphanumeric].
    match goal with
    | |- context [Faker.string_alphanumeric 64 ?f] =>
        pose proof (string_alphanumeric_length 64 f) as Hlen;
        destruct (Faker.string_alphanumeric 64 f) as [token f']
    end.
    eexists _, _, _. split; [reflexivity|]. split_and!; try done.
    simpl. apply elem_of_app. right. by left.
Qed.

(** What [AuthContext.login] does once [AuthService.login] has answered. *)
Lemma provider_login_run
    (credentials : LoginCredentials.t) (c : AuthContext.t)
    (user : User.t) (token : string) (w' : Api.t) :
  AuthService.login (LoginCredentials.email credentials)
    (LoginCredentials.password credentials) (AuthContext.api c)
  = (inr (user, token), w') →
  AuthContext.login credentials c
  = (inr tt,
     AuthContext.mk (AuthState.mk (Some user) false true)
       (<["userData" := AuthContext.Json (JSON_stringify user)]>
          (<["authToken" := AuthContext.Plain token]>
             (AuthContext.SecureStore c)))
       w').
Proof.
  intros Hrun.
  unfold AuthContext.login, try_catch, mbind, Eff_bind, AuthContext.service,
    zoom.
  simpl. by rewrite Hrun.
Qed.

Lemma token_present (token : string) :
  String.length token = 64%nat →
  AuthContext.present (Some (AuthContext.Plain token)) = true.
Proof. by destruct token. Qed.

Lemma mounted_on_session
    (store : gmap string AuthContext.text) (a : Api.t)
    (user : User.t) (token : string) :
  String.length token = 64%nat →
  store !! "authToken" = Some (AuthContext.Plain token) →
  store !! "userData" = Some (AuthContext.Json (JSON_stringify user)) →
  AuthContext.state (AuthContext.mounted store a)
  = AuthState.mk (Some (User_stored user)) false true.
Proof.
  intros Hlen Htoken Hdata.
  unfold AuthContext.mounted, exec, AuthContext.checkAuthStatus, try_catch,
    mbind, Eff_bind, AuthContext.getItemAsync, gets.
  simpl. rewrite Htoken, Hdata, (token_present token Hlen). simpl.
  unfold JSON_parse, JSON_stringify. by rewrite User_roundtrip.
Qed.

(** [login] of the provider never throws: it ends with the session
    authenticated as the user of the service whose email was given, not
    loading, and with the token (64 characters) and the user's JSON in
    the secure store.  A provider that mounts later on that store is
    authenticated as the same user, with the dates as texts. *)
Theorem login_opens_session
    (credentials : LoginCredentials.t) (c : AuthContext.t) (a : Api.t) :
  ∃ user token,
    result (AuthContext.login credentials) c = inr tt
    ∧ AuthContext.state (exec (AuthContext.login credentials) c)
      = AuthState.mk (Some user) false true
    ∧ User.email user = LoginCredentials.email credentials
    ∧ user ∈ Api.users (AuthContext.api (exec (AuthContext.login credentials) c))
    ∧ AuthContext.SecureStore (exec (AuthContext.login credentials) c)
        !! "authToken" = Some (AuthContext.Plain token)
    ∧ String.length token = 64%nat
    ∧ AuthContext.SecureStore (exec (AuthContext.login credentials) c)
        !! "userData" = Some (AuthContext.Json (JSON_stringify user))
    ∧ AuthContext.state
        (AuthContext.mounted
           (AuthContext.SecureStore (exec (AuthContext.login credentials) c)) a)
      = AuthState.mk (Some (User_stored user)) false true.
Proof.
  destruct (login_answers (LoginCredentials.email credentials)
              (LoginCredentials.password credentials) (AuthContext.api c))
    as (user & token & w' & Hrun & Hmail & Hlen & Hin).
  exists user, token. unfold result, exec.
  rewrite (provider_login_run credentials c user token w' Hrun). simpl.
  split_and!; try done.
  - by rewrite lookup_insert_ne, lookup_insert_eq.
  - by rewrite lookup_insert_eq.
  - apply (mounted_on_session _ a user token Hlen).
    + by rewrite lookup_insert_ne, lookup_insert_eq.
    + by rewrite lookup_insert_eq.
Qed.

(** [logout] never throws: it ends with no user, not authenticated and
    not loading, and with neither the token nor the user in the secure
    store, so that a provider that mounts later on that store has no
    session either. *)
Theorem logout_closes_session (c : AuthContext.t) (a : Api.t) :
  result AuthContext.logout c = inr tt
  ∧ AuthContext.state (exec AuthContext.logout c)
    = AuthState.mk None false false
  ∧ AuthContext.SecureStore (exec AuthContext.logout c) !! "authToken" = None
  ∧ AuthContext.SecureStore (exec AuthContext.logout c) !! "userData" = None
  ∧ AuthContext.api (exec AuthContext.logout c) = AuthContext.api c
  ∧ AuthContext.state
      (AuthContext.mounted (AuthContext.SecureStore (exec AuthContext.logout c)) a)
    = AuthState.mk None false false.
Proof.
  split_and!; try done.
  - simpl. by rewrite lookup_delete_ne, lookup_delete_eq.
  - simpl. by rewrite lookup_delete_eq.
  - unfold AuthContext.mounted, exec at 1, AuthContext.checkAuthStatus,
      try_catch, mbind, Eff_bind, AuthContext.getItemAsync, gets.
    simpl. by rewrite lookup_delete_ne, lookup_delete_eq.
Qed.

(** A [register] whose two passwords differ, or whose email is taken,
    throws ("Senhas não coincidem" in the first case, the service's
    "Email já cadastrado" otherwise) and leaves no trace: the users, the
    secure store, the user of the session and its authentication are as
    before, and the session is not loading. *)
Theorem register_rejected_leaves_no_trace
    (credentials : RegisterCredentials.t) (c : AuthContext.t) :
  RegisterCredentials.password credentials
    ≠ RegisterCredentials.confirmPassword credentials
  ∨ Exists (λ u, User.email u = RegisterCredentials.email credentials)
      (Api.users (AuthContext.api c)) →
  AuthContext.register credentials c
  = (inl (if decide (RegisterCredentials.password credentials
                     ≠ RegisterCredentials.confirmPassword credentials)
          then "Senhas não coincidem" else "Email já cadastrado"),
     AuthContext.mk
       (AuthState.mk (AuthState.user (AuthContext.state c)) false
          (AuthState.isAuthenticated (AuthContext.state c)))
       (AuthContext.SecureStore c) (AuthContext.api c)).
Proof.
  intros Hbad.
  unfold AuthContext.register, try_catch, mbind, Eff_bind.
  destruct (decide (RegisterCredentials.password credentials
                    ≠ RegisterCredentials.confirmPassword credentials))
    as [Hdiff|Hsame]; [done|].
  destruct Hbad as [Hdiff|Htaken]; [done|].
  destruct (JS.find (λ u, User.email u = RegisterCredentials.email credentials)
              (Api.users (AuthContext.api c))) as [user|] eqn:Hfind.
  - unfold AuthContext.service, zoom. simpl.
    by rewrite (register_known _ _ _ _ user Hfind).
  - by apply find_None in Hfind.
Qed.

Lemma register_rejected_leaves_no_trace_witness :
  AuthContext.register
    (RegisterCredentials.mk "Ana" "ana@example.com" "secret1" "secret1")
    Demo.session
  = (inl (if decide ("secret1" ≠ "secret1")
          then "Senhas não coincidem" else "Email já cadastrado"),
     AuthContext.mk
       (AuthState.mk (AuthState.user (AuthContext.state Demo.session)) false
          (AuthState.isAuthenticated (AuthContext.state Demo.session)))
       (AuthContext.SecureStore Demo.session) (AuthContext.api Demo.session)).
Proof.
  apply (register_rejected_leaves_no_trace
           (RegisterCredentials.mk "Ana" "ana@example.com" "secret1" "secret1")
           Demo.session).
  right. by_evaluation.
Defined.

(** A [register] with matching passwords and a free email does not
    throw: the new user, with the name and email given, is appended to
    the users, the session is authenticated as that user and not
    loading, and a provider that mounts later on the secure store is
    authenticated as the same user. *)
Theorem register_opens_session
    (credentials : RegisterCredentials.t) (c : AuthContext.t) (a : Api.t) :
  RegisterCredentials.password credentials
    = RegisterCredentials.confirmPassword credentials →
  ¬ Exists (λ u, User.email u = RegisterCredentials.email credentials)
      (Api.users (AuthContext.api c)) →
  ∃ user,
    result (AuthContext.register credentials) c = inr tt
    ∧ AuthContext.state (exec (AuthContext.register credentials) c)
      = AuthState.mk (Some user) false true
    ∧ User.name user = RegisterCredentials.name credentials
    ∧ User.email user = RegisterCredentials.email credentials
    ∧ Api.users (AuthContext.api (exec (AuthContext.register credentials) c))
      = Api.users (AuthContext.api c) ++ [user]
    ∧ AuthContext.state
        (AuthContext.mounted
           (AuthContext.SecureStore (exec (AuthContext.register credentials) c))
           a)
      = AuthState.mk (Some (User_stored user)) false true.
Proof.
  intros Hsame Hfree. apply (find_not_Exists _) in Hfree.
  destruct (register_unknown (RegisterCredentials.name credentials)
              (RegisterCredentials.email credentials)
              (RegisterCredentials.password credentials) (AuthContext.api c)
              Hfree)
    as (user & token & w1 & Hrun & Hname & Hmail & _ & Husers & _ & _ & Hlen & _).
  exists user.
  assert (AuthContext.register credentials c
          = (inr tt,
             AuthContext.mk (AuthState.mk (Some user) false true)
               (<["userData" := AuthContext.Json (JSON_stringify user)]>
                  (<["authToken" := AuthContext.Plain token]>
                     (AuthContext.SecureStore c)))
               w1)) as Hreg.
  { unfold AuthContext.register, try_catch, mbind, Eff_bind,
      AuthContext.service, zoom.
    rewrite decide_False by (intros Hne; by apply Hne).
    simpl. by rewrite Hrun. }
  unfold result, exec. rewrite Hreg. simpl. split_and!; try done.
  apply (mounted_on_session _ a user token Hlen).
  - by rewrite lookup_insert_ne, lookup_insert_eq.
  - by rewrite lookup_insert_eq.
Qed.

Lemma register_opens_session_witness :
  ∃ user,
    result (AuthContext.register Demo.bob) Demo.session = inr tt
    ∧ AuthContext.state (exec (AuthContext.register Demo.bob) Demo.session)
      = AuthState.mk (Some user) false true
    ∧ User.name user = RegisterCredentials.name Demo.bob
    ∧ User.email user = RegisterCredentials.email Demo.bob
    ∧ Api.users
        (AuthContext.api (exec (AuthContext.register Demo.bob) Demo.session))
      = Api.users (AuthContext.api Demo.session) ++ [user]
    ∧ AuthContext.state
        (AuthContext.mounted
           (AuthContext.SecureStore
              (exec (AuthContext.register Demo.bob) Demo.session))
           Sample.world)
      = AuthState.mk (Some (User_stored user)) false true.
Proof.
  apply (register_opens_session Demo.bob Demo.session Sample.world).
  - reflexivity.
  - by_evaluation.
Defined.

(** A provider that mounts on a secure store that lacks the token or the
    user has no session and is not loading. *)
Theorem checkAuthStatus_without_session
    (store : gmap string AuthContext.text) (a : Api.t) :
  store !! "authToken" = None ∨ store !! "userData" = None →
  AuthContext.state (AuthContext.mounted store a)
  = AuthState.mk None false false.
Proof.
  intros Hmissing.
  unfold AuthContext.mounted, exec, AuthContext.checkAuthStatus, try_catch,
    mbind, Eff_bind, AuthContext.getItemAsync, gets.
  simpl. destruct Hmissing as [->| ->]; simpl; [done|].
  by rewrite andb_false_r.
Qed.

Lemma checkAuthStatus_without_session_witness :
  AuthContext.state (AuthContext.mounted ∅ Sample.world)
  = AuthState.mk None false false.
Proof.
  apply (checkAuthStatus_without_session ∅ Sample.world). by left.
Defined.

(** ** The products screen *)

(** The response of the two paginated queries of [ProductService] on a
    list of products. *)
Definition answer (items : list Product.t) (p l : Z) :
    PaginatedResponse.t Product.t :=
  {| PaginatedResponse.data :=
       JS.slice items ((p - 1) * l) ((p - 1) * l + l);
     PaginatedResponse.page := p;
     PaginatedResponse.limit := l;
     PaginatedResponse.total := Z.of_nat (length items);
     PaginatedResponse.totalPages :=
       JS.Math_ceil_div (Z.of_nat (length items)) l |}.

Lemma matching_empty_query (w : Api.t) : matching "" w = Api.products w.
Proof.
  unfold matching. apply filter_all, Forall_forall.
  intros x _. apply matches_empty_query.
Qed.

Lemma fetch_answer (q : string) (p : Z) (w : Api.t) :
  (if truthy q then ProductService.searchProducts q p 10
   else ProductService.getProducts p 10) w
  = (inr (answer (matching q w) p 10), w).
Proof.
  destruct q as [|c q]; simpl truthy; cbv iota.
  - rewrite matching_empty_query. reflexivity.
  - reflexivity.
Qed.

Lemma loadProducts_run
    (pageNum : Z) (q : string) (refresh loadMore : bool) (s : ProductsScreen.t) :
  (ProductsScreen.isLoading s || ProductsScreen.isLoadingMore s)
    && negb refresh = false →
  exec (ProductsScreen.loadProducts pageNum q refresh loadMore) s
  = ProductsScreen.mk
      (if (pageNum =? 1) || refresh
       then PaginatedResponse.data
              (answer (matching q (ProductsScreen.api s)) pageNum 10)
       else ProductsScreen.products s
            ++ PaginatedResponse.data
                 (answer (matching q (ProductsScreen.api s)) pageNum 10))
      (ProductsScreen.searchQuery s) false false false pageNum
      (lt_number pageNum
         (JS.Math_ceil_div
            (Z.of_nat (length (matching q (ProductsScreen.api s)))) 10))
      (Z.of_nat (length (matching q (ProductsScreen.api s))))
      (ProductsScreen.api s).
Proof.
  intros Hfree.
  pose proof (fetch_answer q pageNum (ProductsScreen.api s)) as Hfetch.
  unfold exec, ProductsScreen.loadProducts, mbind, Eff_bind, gets.
  rewrite Hfree.
  unfold try_finally, try_catch, mbind, Eff_bind, ProductsScreen.service, zoom.
  destruct s as [products searchQuery isLoading isRefreshing isLoadingMore
                 page hasMore totalProducts api].
  cbn [ProductsScreen.api] in Hfetch. revert Hfetch.
  destruct (truthy q), loadMore; intros Hfetch;
    cbn -[ProductService.searchProducts ProductService.getProducts matching
          answer Z.eqb];
    rewrite Hfetch;
    cbn -[matching answer Z.eqb];
    destruct ((pageNum =? 1) || refresh); reflexivity.
Qed.

Lemma lt_number_ceil (p : Z) (n : nat) :
  lt_number p (JS.Math_ceil_div (Z.of_nat n) 10)
  = bool_decide (10 * p < Z.of_nat n).
Proof.
  destruct (Math_ceil_div_spec (Z.of_nat n) 10 ltac:(lia)) as (tp & -> & Hlo & Hhi).
  simpl. destruct (Z.ltb_spec p tp).
  - symmetry. apply bool_decide_eq_true. lia.
  - symmetry. apply bool_decide_eq_false. lia.
Qed.

Lemma answer_data (items : list Product.t) (p : nat) :
  PaginatedResponse.data (answer items (Z.of_nat (S p)) 10)
  = take 10 (drop (10 * p) items).
Proof.
  unfold answer. cbn [PaginatedResponse.data].
  replace (Z.of_nat (S p) - 1) with (Z.of_nat p) by lia.
  rewrite slice_take_drop by lia. do 2 f_equal. lia.
Qed.

Lemma handleSearch_run (q : string) (s : ProductsScreen.t) :
  exec (ProductsScreen.handleSearch q) s
  = ProductsScreen.mk (take 10 (matching q (ProductsScreen.api s))) q
      false false false 1
      (bool_decide (10 < Z.of_nat (length (matching q (ProductsScreen.api s)))))
      (Z.of_nat (length (matching q (ProductsScreen.api s))))
      (ProductsScreen.api s).
Proof.
  unfold ProductsScreen.handleSearch.
  change (exec _ s)
    with (exec (ProductsScreen.loadProducts 1 q true false)
            (ProductsScreen.mk (ProductsScreen.products s) q
               (ProductsScreen.isLoading s) (ProductsScreen.isRefreshing s)
               (ProductsScreen.isLoadingMore s) 1 true
               (ProductsScreen.totalProducts s) (ProductsScreen.api s))).
  rewrite loadProducts_run by apply andb_false_r.
  cbn [ProductsScreen.api ProductsScreen.searchQuery ProductsScreen.products].
  rewrite lt_number_ceil. change (1 =? 1) with true. cbn [orb].
  change 1 with (Z.of_nat 1) at 1. rewrite answer_data.
  by rewrite drop_0.
Qed.

Lemma handleLoadMore_idle (s : ProductsScreen.t) :
  ProductsScreen.hasMore s = false →
  exec ProductsScreen.handleLoadMore s = s.
Proof.
  intros Hno. unfold exec, ProductsScreen.handleLoadMore, mbind, Eff_bind, gets.
  by rewrite Hno.
Qed.

Lemma handleLoadMore_run (s : ProductsScreen.t) (k : nat) :
  ProductsScreen.hasMore s = true →
  ProductsScreen.isLoading s = false →
  ProductsScreen.isLoadingMore s = false →
  ProductsScreen.page s = Z.of_nat (S k) →
  exec ProductsScreen.handleLoadMore s
  = ProductsScreen.mk
      (ProductsScreen.products s
       ++ take 10 (drop (10 * S k)
                     (matching (ProductsScreen.searchQuery s)
                        (ProductsScreen.api s))))
      (ProductsScreen.searchQuery s) false false false (Z.of_nat (S (S k)))
      (bool_decide
         (10 * Z.of_nat (S (S k))
          < Z.of_nat (length (matching (ProductsScreen.searchQuery s)
                                (ProductsScreen.api s)))))
      (Z.of_nat (length (matching (ProductsScreen.searchQuery s)
                           (ProductsScreen.api s))))
      (ProductsScreen.api s).
Proof.
  intros Hmore Hload Hloadmore Hpage.
  assert (exec ProductsScreen.handleLoadMore s
          = exec (ProductsScreen.loadProducts (ProductsScreen.page s + 1)
                    (ProductsScreen.searchQuery s) false true) s) as ->.
  { unfold exec at 1. unfold ProductsScreen.handleLoadMore, mbind, Eff_bind,
      gets.
    by rewrite Hmore, Hload, Hloadmore. }
  rewrite loadProducts_run by (by rewrite Hload, Hloadmore).
  rewrite Hpage. replace (Z.of_nat (S k) + 1) with (Z.of_nat (S (S k))) by lia.
  rewrite lt_number_ceil, answer_data.
  destruct (Z.eqb_spec (Z.of_nat (S (S k))) 1) as [?|_]; [lia|]. done.
Qed.

Lemma scrolled_invariant (q : string) (k : nat) (s : ProductsScreen.t) :
  ProductsScreen.api (scrolled q k s) = ProductsScreen.api s
  ∧ ProductsScreen.searchQuery (scrolled q k s) = q
  ∧ ProductsScreen.isLoading (scrolled q k s) = false
  ∧ ProductsScreen.isLoadingMore (scrolled q k s) = false
  ∧ ProductsScreen.isRefreshing (scrolled q k s) = false
  ∧ ProductsScreen.products (scrolled q k s)
    = take (10 * S k) (matching q (ProductsScreen.api s))
  ∧ ProductsScreen.totalProducts (scrolled q k s)
    = Z.of_nat (length (matching q (ProductsScreen.api s)))
  ∧ ProductsScreen.hasMore (scrolled q k s)
    = bool_decide (10 * S k < length (matching q (ProductsScreen.api s)))%nat
  ∧ (ProductsScreen.hasMore (scrolled q k s) = true →
     ProductsScreen.page (scrolled q k s) = Z.of_nat (S k)).
Proof.
  induction k as [|k IH].
  - unfold scrolled. cbn [Nat.iter]. rewrite handleSearch_run.
    cbn [ProductsScreen.api ProductsScreen.searchQuery ProductsScreen.isLoading
         ProductsScreen.isLoadingMore ProductsScreen.isRefreshing
         ProductsScreen.products ProductsScreen.totalProducts
         ProductsScreen.hasMore ProductsScreen.page].
    split_and!; try done.
    apply bool_decide_ext. lia.
  - destruct IH as (Hapi & Hq & Hload & Hmore & Hrefresh & Hprod & Htotal
                    & Hhas & Hpage).
    change (scrolled q (S k) s)
      with (exec ProductsScreen.handleLoadMore (scrolled q k s)).
    destruct (ProductsScreen.hasMore (scrolled q k s)) eqn:Hmore'.
    + rewrite (handleLoadMore_run _ k) by auto.
      cbn [ProductsScreen.api ProductsScreen.searchQuery ProductsScreen.isLoading
           ProductsScreen.isLoadingMore ProductsScreen.isRefreshing
           ProductsScreen.products ProductsScreen.totalProducts
           ProductsScreen.hasMore ProductsScreen.page].
      rewrite Hapi, Hq, Hprod.
      split_and!; try done.
      * rewrite take_take_drop. f_equal. lia.
      * apply bool_decide_ext. lia.
    + rewrite handleLoadMore_idle by done.
      symmetry in Hhas. apply bool_decide_eq_false in Hhas.
      split_and!; try done.
      * rewrite Hprod, !take_ge by lia. done.
      * rewrite Hmore'. symmetry. apply bool_decide_eq_false. lia.
      * by rewrite Hmore'.
Qed.

(** Infinite scroll.  After a search for [q] and [k] requests for more,
    the screen shows the first [10 * (k + 1)] matches of [q] in the
    order of the catalogue (all products when [q] is empty), each once;
    [hasMore] holds exactly while some match is not shown yet, the total
    is the number of matches, and no loading flag is left set. *)
Theorem scrolling_shows_matches_in_order
    (q : string) (k : nat) (s : ProductsScreen.t) :
  ProductsScreen.products (scrolled q k s)
    = take (10 * S k) (matching q (ProductsScreen.api s))
  ∧ ProductsScreen.hasMore (scrolled q k s)
    = bool_decide (10 * S k < length (matching q (ProductsScreen.api s)))%nat
  ∧ ProductsScreen.totalProducts (scrolled q k s)
    = Z.of_nat (length (matching q (ProductsScreen.api s)))
  ∧ ProductsScreen.searchQuery (scrolled q k s) = q
  ∧ ProductsScreen.isLoading (scrolled q k s) = false
  ∧ ProductsScreen.isLoadingMore (scrolled q k s) = false
  ∧ ProductsScreen.isRefreshing (scrolled q k s) = false
  ∧ matching "" (ProductsScreen.api s) = Api.products (ProductsScreen.api s).
Proof.
  destruct (scrolled_invariant q k s)
    as (_ & Hq & Hload & Hmore & Hrefresh & Hprod & Htotal & Hhas & _).
  split_and!; try done. apply matching_empty_query.
Qed.

(** When the products of the catalogue have distinct identifiers, so do
    the products on the screen, however far it has been scrolled: the
    keys of the list are unique. *)
Theorem scrolling_never_repeats (q : string) (k : nat) (s : ProductsScreen.t) :
  NoDup (product_ids (ProductsScreen.api s)) →
  NoDup (Product.id <$> ProductsScreen.products (scrolled q k s)).
Proof.
  intros Hdup.
  destruct (scrolled_invariant q k s) as (_ & _ & _ & _ & _ & -> & _).
  eapply sublist_NoDup; [exact Hdup|].
  apply fmap_sublist. etrans; [apply sublist_take|]. apply sublist_filter.
Qed.

Lemma scrolling_never_repeats_witness :
  NoDup (Product.id
           <$> ProductsScreen.products
                 (scrolled "a" 2
                    (ProductsScreen.mk [] "" false false false 1 true 0
                       Sample.catalogue))).
Proof.
  apply (scrolling_never_repeats "a" 2
           (ProductsScreen.mk [] "" false false false 1 true 0 Sample.catalogue)).
  by_evaluation.
Defined.

(** Pull-to-refresh is a new search for the current query: from any
    state, also one that is loading, it ends in the state that
    [handleSearch] of that query ends in. *)
Theorem handleRefresh_searches_again (s : ProductsScreen.t) :
  exec ProductsScreen.handleRefresh s
  = exec (ProductsScreen.handleSearch (ProductsScreen.searchQuery s)) s.
Proof.
  rewrite handleSearch_run.
  unfold ProductsScreen.handleRefresh.
  change (exec _ s)
    with (exec (ProductsScreen.loadProducts 1 (ProductsScreen.searchQuery s)
                  true false)
            (ProductsScreen.mk (ProductsScreen.products s)
               (ProductsScreen.searchQuery s)
               (ProductsScreen.isLoading s) true
               (ProductsScreen.isLoadingMore s) 1 true
               (ProductsScreen.totalProducts s) (ProductsScreen.api s))).
  rewrite loadProducts_run by apply andb_false_r.
  cbn [ProductsScreen.api ProductsScreen.searchQuery ProductsScreen.products].
  rewrite lt_number_ceil. change (1 =? 1) with true. cbn [orb].
  change 1 with (Z.of_nat 1) at 1. rewrite answer_data.
  by rewrite drop_0.
Qed.

Example scrolled_sample :
  Product.id <$> ProductsScreen.products (scrolled "s" 0 Demo.screen)
    = ["p-1"; "p-2"; "p-3"; "p-1"; "p-2"]
  ∧ ProductsScreen.hasMore (scrolled "s" 0 Demo.screen) = false
  ∧ ProductsScreen.totalProducts (scrolled "home" 3 Demo.screen) = 1.
Proof. repeat split; vm_compute; reflexivity. Qed.

(** ** The screen of my products *)

Lemma deleteProduct_run (productId : string) (s : MyProductsScreen.t) :
  exec (MyProductsScreen.deleteProduct productId) s
  = MyProductsScreen.mk
      (filter (λ product, Product.id product ≠ productId)
         (MyProductsScreen.myProducts s))
      (MyProductsScreen.isLoading s)
      (exec (MyProductsService.removeMyProduct productId)
         (MyProductsScreen.api s)).
Proof.
  unfold exec at 1. unfold MyProductsScreen.deleteProduct, try_catch, mbind,
    Eff_bind, MyProductsScreen.service, zoom, exec.
  unfold MyProductsService.removeMyProduct, mbind, Eff_bind.
  rewrite myProducts_run. reflexivity.
Qed.

Lemma loadMyProducts_run (s : MyProductsScreen.t) :
  exec MyProductsScreen.loadMyProducts s
  = MyProductsScreen.mk (myProducts (MyProductsScreen.api s)) false
      (MyProductsScreen.api s).
Proof.
  unfold exec, MyProductsScreen.loadMyProducts, try_finally, try_catch, mbind,
    Eff_bind, MyProductsScreen.service, zoom.
  simpl. rewrite myProducts_run. reflexivity.
Qed.

(** The screen shows what is stored: [loadMyProducts] leaves on the
    screen the list that [getMyProducts] returns, and when the screen
    shows the stored list, it still does after [deleteProduct], which
    removes the product both from the screen and from storage. *)
Theorem deleteProduct_keeps_screen_and_storage_equal
    (productId : string) (s : MyProductsScreen.t) :
  MyProductsScreen.myProducts s = myProducts (MyProductsScreen.api s) →
  MyProductsScreen.myProducts (exec (MyProductsScreen.deleteProduct productId) s)
    = myProducts
        (MyProductsScreen.api (exec (MyProductsScreen.deleteProduct productId) s))
  ∧ (productId
      ∉ Product.id
          <$> MyProductsScreen.myProducts
                (exec (MyProductsScreen.deleteProduct productId) s))
  ∧ MyProductsScreen.myProducts (exec MyProductsScreen.loadMyProducts s)
    = myProducts
        (MyProductsScreen.api (exec MyProductsScreen.loadMyProducts s))
  ∧ MyProductsScreen.isLoading (exec MyProductsScreen.loadMyProducts s) = false.
Proof.
  intros Hshown. rewrite deleteProduct_run, loadMyProducts_run.
  cbn [MyProductsScreen.myProducts MyProductsScreen.api
       MyProductsScreen.isLoading].
  split_and!; try done.
  - by rewrite removeMyProduct_run, Hshown.
  - intros (p & -> & [Hne _]%list_elem_of_filter)%list_elem_of_fmap. done.
Qed.

Lemma deleteProduct_keeps_screen_and_storage_equal_witness :
  MyProductsScreen.myProducts
    (exec (MyProductsScreen.deleteProduct "p-2")
       (exec MyProductsScreen.loadMyProducts Demo.myScreen))
    = myProducts
        (MyProductsScreen.api
           (exec (MyProductsScreen.deleteProduct "p-2")
              (exec MyProductsScreen.loadMyProducts Demo.myScreen)))
  ∧ ("p-2"
      ∉ Product.id
          <$> MyProductsScreen.myProducts
                (exec (MyProductsScreen.deleteProduct "p-2")
                   (exec MyProductsScreen.loadMyProducts Demo.myScreen)))
  ∧ MyProductsScreen.myProducts
      (exec MyProductsScreen.loadMyProducts
         (exec MyProductsScreen.loadMyProducts Demo.myScreen))
    = myProducts
        (MyProductsScreen.api
           (exec MyProductsScreen.loadMyProducts
              (exec MyProductsScreen.loadMyProducts Demo.myScreen)))
  ∧ MyProductsScreen.isLoading
      (exec MyProductsScreen.loadMyProducts
         (exec MyProductsScreen.loadMyProducts Demo.myScreen)) = false.
Proof.
  apply (deleteProduct_keeps_screen_and_storage_equal "p-2"
           (exec MyProductsScreen.loadMyProducts Demo.myScreen)).
  by rewrite loadMyProducts_run.
Defined.

(** ** Regular expressions *)

Lemma language_Seq_inv (r1 r2 : RegExp.t) (l : list ascii) :
  language (RegExp.Seq r1 r2) l →
  ∃ l1 l2, l = l1 ++ l2 ∧ language r1 l1 ∧ language r2 l2.
Proof. inversion 1; subst; eauto. Qed.

Lemma language_Alt_inv (r1 r2 : RegExp.t) (l : list ascii) :
  language (RegExp.Alt r1 r2) l → language r1 l ∨ language r2 l.
Proof. inversion 1; subst; eauto. Qed.

Lemma language_Class_inv (p : ascii → bool) (l : list ascii) :
  language (RegExp.Class p) l → ∃ c, l = [c] ∧ p c = true.
Proof. inversion 1; subst; eauto. Qed.

Lemma nullable_spec (r : RegExp.t) : RegExp.nullable r = true ↔ language r [].
Proof.
  induction r as [| |p|r1 IH1 r2 IH2|r1 IH1 r2 IH2|r IH]; simpl.
  - split; [done|]. inversion 1.
  - split; [constructor|done].
  - split; [done|]. intros (c & [=] & _)%language_Class_inv.
  - rewrite andb_true_iff, IH1, IH2. split.
    + intros [H1 H2]. by apply (language_Seq _ _ [] []).
    + intros (l1 & l2 & Heq & H1 & H2)%language_Seq_inv.
      symmetry in Heq. by apply app_eq_nil in Heq as [-> ->].
  - rewrite orb_true_iff, IH1, IH2. split.
    + intros [H|H]; [by apply language_Alt_l|by apply language_Alt_r].
    + apply language_Alt_inv.
  - split; [constructor|done].
Qed.

Lemma language_Star_inv (r : RegExp.t) (c : ascii) (l : list ascii) :
  language (RegExp.Star r) (c :: l) →
  ∃ l1 l2, l = l1 ++ l2 ∧ language r (c :: l1) ∧ language (RegExp.Star r) l2.
Proof.
  intros H. remember (RegExp.Star r) as r' eqn:Hr.
  remember (c :: l) as l' eqn:Hl.
  induction H as [| | | | | |r0 l1 l2 H1 _ H2 IH2]; try discriminate.
  injection Hr as ->. destruct l1 as [|c1 l1].
  - simpl in Hl. by apply IH2.
  - simpl in Hl. injection Hl as Hc Hl. subst. by exists l1, l2.
Qed.

Lemma deriv_spec (r : RegExp.t) (c : ascii) (l : list ascii) :
  language (RegExp.deriv c r) l ↔ language r (c :: l).
Proof.
  revert l.
  induction r as [| |p|r1 IH1 r2 IH2|r1 IH1 r2 IH2|r IH]; intros l; simpl.
  - split; inversion 1.
  - split; inversion 1.
  - destruct (p c) eqn:Hp; split.
    + inversion 1; subst. by constructor.
    + intros (c' & [= <- ->] & _)%language_Class_inv. constructor.
    + inversion 1.
    + intros (c' & [= <- ->] & Hp')%language_Class_inv. congruence.
  - assert (language (RegExp.Seq (RegExp.deriv c r1) r2) l
            ↔ ∃ l1 l2, l = l1 ++ l2 ∧ language r1 (c :: l1) ∧ language r2 l2)
      as Hseq.
    { split.
      - intros (l1 & l2 & -> & H1 & H2)%language_Seq_inv.
        exists l1, l2. by rewrite <-IH1.
      - intros (l1 & l2 & -> & H1 & H2). constructor; [by apply IH1|done]. }
    assert (language (RegExp.Seq r1 r2) (c :: l)
            ↔ (language r1 [] ∧ language r2 (c :: l))
              ∨ ∃ l1 l2, l = l1 ++ l2 ∧ language r1 (c :: l1) ∧ language r2 l2)
      as Hcons.
    { split.
      - intros (l1 & l2 & Heq & H1 & H2)%language_Seq_inv.
        destruct l1 as [|c1 l1]; simpl in Heq.
        + left. by subst.
        + right. injection Heq as Hc Hl. subst. by exists l1, l2.
      - intros [[H1 H2]|(l1 & l2 & -> & H1 & H2)].
        + by apply (language_Seq _ _ [] (c :: l)).
        + by apply (language_Seq _ _ (c :: l1) l2). }
    rewrite Hcons, <-Hseq, <-nullable_spec, <-IH2.
    destruct (RegExp.nullable r1) eqn:Hnull.
    + split.
      * intros [H|H]%language_Alt_inv; [by right|by left].
      * intros [[_ H]|H]; [by apply language_Alt_r|by apply language_Alt_l].
    + split; [by right|]. by intros [[? _]|H].
  - split.
    + intros [H|H]%language_Alt_inv;
        [apply language_Alt_l, IH1|apply language_Alt_r, IH2]; done.
    + intros [H|H]%language_Alt_inv;
        [apply language_Alt_l, IH1|apply language_Alt_r, IH2]; done.
  - split.
    + intros (l1 & l2 & -> & H1 & H2)%language_Seq_inv.
      apply (language_Star_cons _ (c :: l1) l2); [by apply IH|done].
    + intros (l1 & l2 & -> & H1 & H2)%language_Star_inv.
      constructor; [by apply IH|done].
Qed.

Lemma accepts_spec (r : RegExp.t) (l : list ascii) :
  RegExp.accepts r l = true ↔ language r l.
Proof.
  revert r. induction l as [|c l IH]; intros r; simpl.
  - apply nullable_spec.
  - by rewrite IH, deriv_spec.
Qed.

Lemma language_Star_Class (p : ascii → bool) (l : list ascii) :
  language (RegExp.Star (RegExp.Class p)) l ↔ Forall (λ c, p c = true) l.
Proof.
  induction l as [|c l IH].
  - split; [by constructor|constructor].
  - split.
    + intros (l1 & l2 & -> & (c' & [= <- ->] & Hp)%language_Class_inv & H2)
        %language_Star_inv.
      constructor; [done|]. by apply IH.
    + intros [Hp Hl]%Forall_cons.
      apply (language_Star_cons _ [c] l); [by constructor|by apply IH].
Qed.

Lemma language_anything (l : list ascii) : language RegExp.anything l.
Proof. apply language_Star_Class. by apply Forall_forall. Qed.

Lemma language_Plus_S (l : list ascii) :
  language (RegExp.Plus RegExp.S) l
  ↔ l ≠ [] ∧ Forall (λ c, is_space c = false) l.
Proof.
  assert (∀ l', language (RegExp.Star RegExp.S) l'
                ↔ Forall (λ c, is_space c = false) l') as Hstar.
  { intros l'. unfold RegExp.S. rewrite language_Star_Class.
    apply Forall_proper; [|done]. intros c. apply negb_true_iff. }
  unfold RegExp.Plus. split.
  - intros (l1 & l2 & -> & (c & -> & Hc)%language_Class_inv & H2%Hstar)
      %language_Seq_inv.
    split; [done|]. constructor; [by apply negb_true_iff|done].
  - intros [Hne Hall]. destruct l as [|c l]; [done|].
    apply Forall_cons in Hall as [Hc Hl].
    apply (language_Seq _ _ [c] l); [|by apply Hstar].
    constructor. by apply negb_true_iff.
Qed.

Lemma language_Chr (a : ascii) (l : list ascii) :
  language (RegExp.Chr a) l ↔ l = [a].
Proof.
  split.
  - intros (c & -> & Hc%bool_decide_eq_true)%language_Class_inv. by subst.
  - intros ->. constructor. by apply bool_decide_eq_true.
Qed.

Lemma language_email (m : list ascii) :
  language RegExp.email m
  ↔ ∃ a b c,
      m = a ++ "@"%char :: b ++ "."%char :: c
      ∧ (a ≠ [] ∧ Forall (λ c, is_space c = false) a)
      ∧ (b ≠ [] ∧ Forall (λ c, is_space c = false) b)
      ∧ (c ≠ [] ∧ Forall (λ c, is_space c = false) c).
Proof.
  unfold RegExp.email. split.
  - intros (a & m1 & -> & Ha%language_Plus_S
            & (at' & m2 & -> & ->%language_Chr
               & (b & m3 & -> & Hb%language_Plus_S
                  & (dot & c & -> & ->%language_Chr & Hc%language_Plus_S)
                    %language_Seq_inv)%language_Seq_inv)%language_Seq_inv)
      %language_Seq_inv.
    by exists a, b, c.
  - intros (a & b & c & -> & Ha & Hb & Hc).
    apply language_Seq; [by apply language_Plus_S|].
    apply (language_Seq _ _ ["@"%char]); [by apply language_Chr|].
    apply language_Seq; [by apply language_Plus_S|].
    apply (language_Seq _ _ ["."%char]); [by apply language_Chr|].
    by apply language_Plus_S.
Qed.

Lemma test_spec (r : RegExp.t) (s : string) :
  RegExp.test r s = true
  ↔ ∃ pre m post,
      String.list_ascii_of_string s = pre ++ m ++ post ∧ language r m.
Proof.
  unfold RegExp.test. rewrite accepts_spec. split.
  - intros (pre & l & -> & _ & (m & post & -> & Hm & _)%language_Seq_inv)
      %language_Seq_inv.
    by exists pre, m, post.
  - intros (pre & m & post & -> & Hm).
    apply language_Seq; [apply language_anything|].
    apply language_Seq; [done|apply language_anything].
Qed.

Lemma email_test (s : string) :
  RegExp.test RegExp.email s = true ↔ email_shaped s.
Proof.
  rewrite test_spec. unfold email_shaped. split.
  - intros (pre & m & post & Hs & (a & b & c & -> & [Ha Hsa] & [Hb Hsb]
                                   & [Hc Hsc])%language_email).
    destruct a as [|x a _] using rev_ind; [done|].
    destruct c as [|z c]; [done|].
    apply Forall_app in Hsa as [_ [Hx _]%Forall_cons].
    apply Forall_cons in Hsc as [Hz _].
    exists (pre ++ a), x, b, z, (c ++ post). split; [|done].
    rewrite Hs. by repeat (rewrite <-app_assoc; simpl).
  - intros (pre & x & w & z & post & Hs & Hx & Hw & Hsw & Hz).
    exists pre, ([x] ++ "@"%char :: w ++ "."%char :: [z]), post. split.
    + rewrite Hs. simpl. by rewrite <-!app_assoc.
    + apply language_email. exists [x], w, [z].
      split_and!; try done; by repeat constructor.
Qed.

(** ** Blank texts *)

Lemma trimStart_nil (l : list ascii) :
  trimStart l = [] ↔ Forall (λ c, is_space c = true) l.
Proof.
  induction l as [|c l IH]; simpl; [done|].
  destruct (is_space c) eqn:Hc.
  - rewrite IH. split; [by constructor|]. by intros [_ ?]%Forall_cons.
  - split; [done|]. intros [? _]%Forall_cons. congruence.
Qed.

Lemma trimStart_head (l : list ascii) :
  trimStart l = [] ∨ ∃ c l', trimStart l = c :: l' ∧ is_space c = false.
Proof.
  induction l as [|c l IH]; simpl; [by left|].
  destruct (is_space c) eqn:Hc; [done|]. right. by exists c, l.
Qed.

Lemma truthy_of_list (l : list ascii) :
  truthy (String.string_of_list_ascii l) = bool_decide (l ≠ []).
Proof. by destruct l. Qed.

Lemma truthy_trim (s : string) :
  truthy (trim s) = bool_decide (¬ blank s).
Proof.
  unfold trim, blank. rewrite truthy_of_list.
  set (l := String.list_ascii_of_string s).
  apply bool_decide_ext.
  rewrite <-(trimStart_nil l).
  destruct (trimStart_head l) as [->|(c & l' & -> & Hc)].
  - simpl. done.
  - split; [done|]. intros _.
    intros Hnil%(f_equal reverse). rewrite reverse_involutive in Hnil.
    rewrite reverse_nil in Hnil. apply trimStart_nil in Hnil.
    rewrite reverse_cons in Hnil.
    apply Forall_app in Hnil as [_ [Hc' _]%Forall_cons]. congruence.
Qed.

Lemma email_shaped_not_blank (s : string) : email_shaped s → ¬ blank s.
Proof.
  intros (pre & x & w & z & post & Hs & Hx & _) Hblank.
  unfold blank in Hblank. rewrite Hs in Hblank.
  apply Forall_app in Hblank as [_ [Hx' _]%Forall_cons]. congruence.
Qed.

Example trim_sample :
  trim "  Ana Lima " = "Ana Lima" ∧ trim "   " = "" ∧ trim "x" = "x".
Proof. repeat split; vm_compute; reflexivity. Qed.

Example email_sample :
  RegExp.test RegExp.email "ana@example.com" = true
  ∧ RegExp.test RegExp.email "ana@example" = false
  ∧ RegExp.test RegExp.email "ana@.com" = false
  ∧ RegExp.test RegExp.email "@example.com" = false
  ∧ RegExp.test RegExp.email "ana @example.com" = false
  ∧ RegExp.test RegExp.email "to ana@b@c..d now" = true.
Proof. repeat split; vm_compute; reflexivity. Qed.

(** ** The checks of the forms *)

Lemma trim_blank (s : string) : blank s → trim s = "".
Proof.
  intros Hblank. pose proof (truthy_trim s) as Htrim.
  rewrite bool_decide_eq_false_2 in Htrim by tauto.
  by destruct (trim s).
Qed.

Lemma required_check {A} (s : string) (a : A) (rest : option A) :
  (if negb (truthy (trim s)) then Some a else rest) = None
  ↔ ¬ blank s ∧ rest = None.
Proof.
  rewrite truthy_trim. case_bool_decide; simpl; [tauto|].
  split; [done|tauto].
Qed.

Lemma name_check {A} (s : string) (a b : A) :
  (if negb (truthy (trim s)) then Some a
   else if (String.length (trim s) <? 2)%nat then Some b else None) = None
  ↔ (2 ≤ String.length (trim s))%nat.
Proof.
  rewrite required_check.
  destruct (Nat.ltb_spec (String.length (trim s)) 2) as [Hlt|Hge].
  - split; [by intros [_ ?]|lia].
  - split; [done|]. intros _. split; [|done].
    intros Hblank%trim_blank. rewrite Hblank in Hge. simpl in Hge. lia.
Qed.

Lemma email_check {A} (s : string) (a b : A) :
  (if negb (truthy (trim s)) then Some a
   else if negb (RegExp.test RegExp.email s) then Some b else None) = None
  ↔ email_shaped s.
Proof.
  rewrite required_check, <-email_test.
  destruct (RegExp.test RegExp.email s) eqn:Htest; simpl.
  - split; [done|]. intros _. split; [|done].
    by apply email_shaped_not_blank, email_test.
  - split; [by intros [_ ?]|done].
Qed.

Lemma length_check {A} (s : string) (a b : A) :
  (if negb (truthy (trim s)) then Some a
   else if (String.length s <? 6)%nat then Some b else None) = None
  ↔ ¬ blank s ∧ (6 ≤ String.length s)%nat.
Proof.
  rewrite required_check.
  destruct (Nat.ltb_spec (String.length s) 6); split; intros [? ?];
    (done || lia || (split; [done|lia]) || (split; done)).
Qed.

Lemma confirm_check {A} (p c : string) (a b : A) :
  (if negb (truthy (trim c)) then Some a
   else if decide (p ≠ c) then Some b else None) = None
  ↔ ¬ blank c ∧ c = p.
Proof.
  rewrite required_check.
  destruct (decide (p ≠ c)) as [Hne|Heq%dec_stable].
  - split; intros [? ?]; [done|]. by destruct Hne.
  - by split; intros [? ?].
Qed.

Lemma otp_check {A} (s : string) (a b : A) :
  (if negb (truthy (trim s)) then Some a
   else if negb (String.length s =? 6)%nat then Some b else None) = None
  ↔ ¬ blank s ∧ String.length s = 6%nat.
Proof.
  rewrite required_check.
  destruct (Nat.eqb_spec (String.length s) 6); simpl; split; intros [? ?];
    done.
Qed.

(** ** The registration form *)

Lemma register_no_errors (e : RegisterScreen.Errors) :
  RegisterScreen.no_errors e = true
  ↔ RegisterScreen.name e = None ∧ RegisterScreen.email e = None
    ∧ RegisterScreen.password e = None
    ∧ RegisterScreen.confirmPassword e = None.
Proof.
  destruct e as [[?|] [?|] [?|] [?|]]; simpl; split; try done;
    by intros (? & ? & ? & ?).
Qed.

Lemma register_validateForm_run (s : RegisterScreen.t) :
  ∃ e,
    RegisterScreen.validateForm s
    = (inr (RegisterScreen.no_errors e),
       RegisterScreen.mk (RegisterScreen.formData s) e
         (RegisterScreen.alerts s) (RegisterScreen.auth s))
    ∧ (RegisterScreen.no_errors e = true
       ↔ valid_registration (RegisterScreen.formData s)).
Proof.
  exists (RegisterScreen.errors (exec RegisterScreen.validateForm s)).
  split; [reflexivity|].
  unfold exec, RegisterScreen.validateForm, RegisterScreen.setErrors,
    mbind, mret, Eff_bind, Eff_ret, gets, modify.
  cbn [RegisterScreen.errors snd].
  rewrite register_no_errors.
  cbn [RegisterScreen.name RegisterScreen.email RegisterScreen.password
       RegisterScreen.confirmPassword].
  rewrite name_check, email_check, length_check, confirm_check.
  unfold valid_registration. split.
  - intros (? & ? & [? ?] & [? ?]). done.
  - intros (? & ? & ? & ? & Hc). split_and!; try done. by rewrite Hc.
Qed.

Lemma provider_register_taken
    (credentials : RegisterCredentials.t) (c : AuthContext.t) :
  RegisterCredentials.confirmPassword credentials
    = RegisterCredentials.password credentials →
  Exists (λ u, User.email u = RegisterCredentials.email credentials)
    (Api.users (AuthContext.api c)) →
  AuthContext.register credentials c
  = (inl "Email já cadastrado",
     AuthContext.mk
       (AuthState.mk (AuthState.user (AuthContext.state c)) false
          (AuthState.isAuthenticated (AuthContext.state c)))
       (AuthContext.SecureStore c) (AuthContext.api c)).
Proof.
  intros Hsame Htaken.
  unfold AuthContext.register, try_catch, mbind, Eff_bind.
  rewrite decide_False by (intros Hne; by apply Hne).
  destruct (JS.find (λ u, User.email u = RegisterCredentials.email credentials)
              (Api.users (AuthContext.api c))) as [user|] eqn:Hfind.
  - unfold AuthContext.service, zoom. simpl.
    by rewrite (register_known _ _ _ _ user Hfind).
  - by apply find_None in Hfind.
Qed.

Lemma provider_register_free
    (credentials : RegisterCredentials.t) (c : AuthContext.t) :
  RegisterCredentials.confirmPassword credentials
    = RegisterCredentials.password credentials →
  ¬ Exists (λ u, User.email u = RegisterCredentials.email credentials)
      (Api.users (AuthContext.api c)) →
  ∃ user c',
    AuthContext.register credentials c = (inr tt, c')
    ∧ AuthContext.state c' = AuthState.mk (Some user) false true
    ∧ User.name user = RegisterCredentials.name credentials
    ∧ User.email user = RegisterCredentials.email credentials
    ∧ Api.users (AuthContext.api c') = Api.users (AuthContext.api c) ++ [user].
Proof.
  intros Hsame Hfree. apply (find_not_Exists _) in Hfree.
  destruct (register_unknown (RegisterCredentials.name credentials)
              (RegisterCredentials.email credentials)
              (RegisterCredentials.password credentials) (AuthContext.api c)
              Hfree)
    as (user & token & w1 & Hrun & Hname & Hmail & _ & Husers & _).
  exists user,
    (AuthContext.mk (AuthState.mk (Some user) false true)
       (<["userData" := AuthContext.Json (JSON_stringify user)]>
          (<["authToken" := AuthContext.Plain token]>
             (AuthContext.SecureStore c)))
       w1).
  split; [|done].
  unfold AuthContext.register, try_catch, mbind, Eff_bind,
    AuthContext.service, zoom.
  rewrite decide_False by (intros Hne; by apply Hne).
  simpl. by rewrite Hrun.
Qed.

(** On a form typed in ASCII, [validateForm] of the registration screen
    never throws and changes only the errors shown. It returns [true]
    exactly for the forms whose name has two characters or more once
    trimmed, whose email holds, somewhere, a non-space character, an at
    sign, one or more non-space characters, a dot and a non-space
    character, whose password has six characters or more and is not
    blank, and whose confirmation equals the password. *)
Theorem validateForm_accepts_valid_registrations (s : RegisterScreen.t) :
  ascii_registration (RegisterScreen.formData s) = true →
  (∃ valid, result RegisterScreen.validateForm s = inr valid)
  ∧ (result RegisterScreen.validateForm s = inr true
     ↔ valid_registration (RegisterScreen.formData s))
  ∧ RegisterScreen.formData (exec RegisterScreen.validateForm s)
    = RegisterScreen.formData s
  ∧ RegisterScreen.alerts (exec RegisterScreen.validateForm s)
    = RegisterScreen.alerts s
  ∧ RegisterScreen.auth (exec RegisterScreen.validateForm s)
    = RegisterScreen.auth s.
Proof.
  intros _.
  destruct (register_validateForm_run s) as (e & Hrun & Hvalid).
  unfold result, exec. rewrite Hrun. simpl. split_and!; try done.
  - by eexists.
  - rewrite <-Hvalid. split; [by intros [= ->]|by intros ->].
Qed.

Lemma validateForm_accepts_valid_registrations_witness :
  (∃ valid, result RegisterScreen.validateForm Filled.registration = inr valid)
  ∧ (result RegisterScreen.validateForm Filled.registration = inr true
     ↔ valid_registration (RegisterScreen.formData Filled.registration))
  ∧ RegisterScreen.formData
      (exec RegisterScreen.validateForm Filled.registration)
    = RegisterScreen.formData Filled.registration
  ∧ RegisterScreen.alerts
      (exec RegisterScreen.validateForm Filled.registration)
    = RegisterScreen.alerts Filled.registration
  ∧ RegisterScreen.auth (exec RegisterScreen.validateForm Filled.registration)
    = RegisterScreen.auth Filled.registration.
Proof.
  apply (validateForm_accepts_valid_registrations Filled.registration).
  reflexivity.
Defined.

(** On a form typed in ASCII, [handleRegister] never throws. A form
    that [validateForm] rejects goes no further: the session, the users and the alerts are as
    before, and an error is shown on the form. A form that it accepts is
    passed to [register] as typed, the name and the email not trimmed:
    if an account has the email, the one alert "Email já cadastrado" is
    shown and the users and the authentication are as before; otherwise
    no alert is shown, and the session is authenticated as a new user
    with that name and email, appended to the users. The alert is never
    the provider's "Senhas não coincidem". *)
Theorem handleRegister_submits_valid_forms (s : RegisterScreen.t) :
  ascii_registration (RegisterScreen.formData s) = true →
  result RegisterScreen.handleRegister s = inr tt
  ∧ RegisterScreen.formData (exec RegisterScreen.handleRegister s)
    = RegisterScreen.formData s
  ∧ (¬ valid_registration (RegisterScreen.formData s) →
     RegisterScreen.auth (exec RegisterScreen.handleRegister s)
     = RegisterScreen.auth s
     ∧ RegisterScreen.alerts (exec RegisterScreen.handleRegister s)
       = RegisterScreen.alerts s
     ∧ RegisterScreen.no_errors
         (RegisterScreen.errors (exec RegisterScreen.handleRegister s))
       = false)
  ∧ (valid_registration (RegisterScreen.formData s) →
     RegisterScreen.no_errors
       (RegisterScreen.errors (exec RegisterScreen.handleRegister s))
     = true
     ∧ if decide
            (Exists
               (λ u, User.email u
                     = RegisterCredentials.email (RegisterScreen.formData s))
               (Api.users (AuthContext.api (RegisterScreen.auth s))))
       then
         RegisterScreen.alerts (exec RegisterScreen.handleRegister s)
         = RegisterScreen.alerts s
           ++ [("Erro no Cadastro", "Email já cadastrado")]
         ∧ Api.users
             (AuthContext.api
                (RegisterScreen.auth (exec RegisterScreen.handleRegister s)))
           = Api.users (AuthContext.api (RegisterScreen.auth s))
         ∧ AuthState.isAuthenticated
             (AuthContext.state
                (RegisterScreen.auth (exec RegisterScreen.handleRegister s)))
           = AuthState.isAuthenticated
               (AuthContext.state (RegisterScreen.auth s))
       else
         RegisterScreen.alerts (exec RegisterScreen.handleRegister s)
         = RegisterScreen.alerts s
         ∧ ∃ user,
             AuthContext.state
               (RegisterScreen.auth (exec RegisterScreen.handleRegister s))
             = AuthState.mk (Some user) false true
             ∧ User.name user
               = RegisterCredentials.name (RegisterScreen.formData s)
             ∧ User.email user
               = RegisterCredentials.email (RegisterScreen.formData s)
             ∧ Api.users
                 (AuthContext.api
                    (RegisterScreen.auth
                       (exec RegisterScreen.handleRegister s)))
               = Api.users (AuthContext.api (RegisterScreen.auth s))
                 ++ [user]).
Proof.
  intros _.
  destruct (register_validateForm_run s) as (e & Hrun & Hvalid).
  unfold result, exec, RegisterScreen.handleRegister, mbind, Eff_bind.
  rewrite Hrun.
  destruct (RegisterScreen.no_errors e) eqn:Hno; simpl.
  - assert (valid_registration (RegisterScreen.formData s)) as Hok
      by by apply Hvalid.
    pose proof Hok as (_ & _ & _ & _ & Hsame).
    unfold try_catch, RegisterScreen.register, zoom. simpl.
    destruct (decide
                (Exists
                   (λ u, User.email u
                         = RegisterCredentials.email (RegisterScreen.formData s))
                   (Api.users (AuthContext.api (RegisterScreen.auth s)))))
      as [Htaken|Hfree].
    + rewrite (provider_register_taken _ _ Hsame Htaken). simpl.
      by split_and!.
    + destruct (provider_register_free _ _ Hsame Hfree)
        as (user & c' & -> & Hstate & Hname & Hmail & Husers). simpl.
      split_and!; try done. intros _. split_and!; try done. by exists user.
  - split_and!; try done. intros Hok%Hvalid. done.
Qed.

Lemma handleRegister_submits_valid_forms_witness :
  result RegisterScreen.handleRegister Filled.registration = inr tt
  ∧ RegisterScreen.formData (exec RegisterScreen.handleRegister Filled.registration)
    = RegisterScreen.formData Filled.registration
  ∧ (¬ valid_registration (RegisterScreen.formData Filled.registration) →
     RegisterScreen.auth (exec RegisterScreen.handleRegister Filled.registration)
     = RegisterScreen.auth Filled.registration
     ∧ RegisterScreen.alerts (exec RegisterScreen.handleRegister Filled.registration)
       = RegisterScreen.alerts Filled.registration
     ∧ RegisterScreen.no_errors
         (RegisterScreen.errors (exec RegisterScreen.handleRegister Filled.registration))
       = false)
  ∧ (valid_registration (RegisterScreen.formData Filled.registration) →
     RegisterScreen.no_errors
       (RegisterScreen.errors (exec RegisterScreen.handleRegister Filled.registration))
     = true
     ∧ if decide
            (Exists
               (λ u, User.email u
                     = RegisterCredentials.email (RegisterScreen.formData Filled.registration))
               (Api.users (AuthContext.api (RegisterScreen.auth Filled.registration))))
       then
         RegisterScreen.alerts (exec RegisterScreen.handleRegister Filled.registration)
         = RegisterScreen.alerts Filled.registration
           ++ [("Erro no Cadastro", "Email já cadastrado")]
         ∧ Api.users
             (AuthContext.api
                (RegisterScreen.auth (exec RegisterScreen.handleRegister Filled.registration)))
           = Api.users (AuthContext.api (RegisterScreen.auth Filled.registration))
         ∧ AuthState.isAuthenticated
             (AuthContext.state
                (RegisterScreen.auth (exec RegisterScreen.handleRegister Filled.registration)))
           = AuthState.isAuthenticated
               (AuthContext.state (RegisterScreen.auth Filled.registration))
       else
         RegisterScreen.alerts (exec RegisterScreen.handleRegister Filled.registration)
         = RegisterScreen.alerts Filled.registration
         ∧ ∃ user,
             AuthContext.state
               (RegisterScreen.auth (exec RegisterScreen.handleRegister Filled.registration))
             = AuthState.mk (Some user) false true
             ∧ User.name user
               = RegisterCredentials.name (RegisterScreen.formData Filled.registration)
             ∧ User.email user
               = RegisterCredentials.email (RegisterScreen.formData Filled.registration)
             ∧ Api.users
                 (AuthContext.api
                    (RegisterScreen.auth
                       (exec RegisterScreen.handleRegister Filled.registration)))
               = Api.users (AuthContext.api (RegisterScreen.auth Filled.registration))
                 ++ [user]).
Proof.
  apply (handleRegister_submits_valid_forms Filled.registration).
  reflexivity.
Defined.

Example handleRegister_sample :
  RegisterScreen.alerts
    (exec RegisterScreen.handleRegister
       (RegisterScreen.mk
          (RegisterCredentials.mk "Ana" "ana@example.com" "secret1" "secret1")
          (RegisterScreen.mkErrors None None None None) [] Demo.session))
  = [("Erro no Cadastro", "Email já cadastrado")]
  ∧ RegisterScreen.errors
      (exec RegisterScreen.handleRegister
         (RegisterScreen.mk
            (RegisterCredentials.mk " " "ana@example" "12345" "12346")
            (RegisterScreen.mkErrors None None None None) [] Demo.session))
    = RegisterScreen.mkErrors (Some "Nome é obrigatório")
        (Some "Email inválido")
        (Some "Senha deve ter pelo menos 6 caracteres")
        (Some "Senhas não coincidem").
Proof. split; vm_compute; reflexivity. Qed.

(** ** The form of a new password *)

Lemma reset_no_errors (e : ResetPasswordScreen.Errors) :
  ResetPasswordScreen.no_errors e = true
  ↔ ResetPasswordScreen.otp_error e = None
    ∧ ResetPasswordScreen.newPassword_error e = None
    ∧ ResetPasswordScreen.confirmPassword_error e = None.
Proof.
  destruct e as [[?|] [?|] [?|]]; simpl; split; try done;
    by intros (? & ? & ?).
Qed.

Lemma reset_validateForm_run (s : ResetPasswordScreen.t) :
  ∃ e,
    ResetPasswordScreen.validateForm s
    = (inr (ResetPasswordScreen.no_errors e),
       ResetPasswordScreen.mk (ResetPasswordScreen.email s)
         (ResetPasswordScreen.formData s) e (ResetPasswordScreen.isLoading s)
         (ResetPasswordScreen.alerts s) (ResetPasswordScreen.api s))
    ∧ (ResetPasswordScreen.no_errors e = true
       ↔ valid_reset (ResetPasswordScreen.formData s)).
Proof.
  exists (ResetPasswordScreen.errors (exec ResetPasswordScreen.validateForm s)).
  split; [reflexivity|].
  unfold exec, ResetPasswordScreen.validateForm, ResetPasswordScreen.setErrors,
    mbind, mret, Eff_bind, Eff_ret, gets, modify.
  cbn [ResetPasswordScreen.errors snd].
  rewrite reset_no_errors.
  cbn [ResetPasswordScreen.otp_error ResetPasswordScreen.newPassword_error
       ResetPasswordScreen.confirmPassword_error].
  rewrite otp_check, length_check, confirm_check.
  unfold valid_reset. split.
  - intros ([? ?] & [? ?] & [? ?]). done.
  - intros (? & ? & ? & ? & Hc). split_and!; try done. by rewrite Hc.
Qed.

Lemma resetPassword_answers (email otp newPassword : string) (w : Api.t) :
  ∃ w',
    AuthService.resetPassword email otp newPassword w
    = (inr (bool_decide (Exists (λ u, User.email u = email) (Api.users w))),
       w').
Proof.
  unfold AuthService.resetPassword, mbind, Eff_bind, gets.
  destruct (list_find (λ u, User.email u = email) (Api.users w))
    as [[i user]|] eqn:Hfind.
  - eexists. rewrite bool_decide_eq_true_2; [reflexivity|].
    apply list_find_Some in Hfind as (Hi & Hmail & _).
    apply Exists_exists. eauto using list_elem_of_lookup_2.
  - eexists. rewrite bool_decide_eq_false_2; [reflexivity|].
    intros (u & Hu & Hmail)%Exists_exists.
    apply list_find_None in Hfind.
    by eapply (proj1 (Forall_forall _ _) Hfind).
Qed.

(** On a form typed in ASCII, [handleResetPassword] never throws. A
    form that [validateForm] rejects goes no further: the users, the alerts and the loading flag
    are as before and an error is shown. A form that it accepts (a code
    of six characters that is not blank, a new password of six
    characters or more that is not blank, and an equal confirmation)
    shows one alert and ends not loading: "Senha alterada com sucesso!"
    exactly when an account has the email of the route, whatever the
    code is, and "Código OTP inválido ou expirado" otherwise. *)
Theorem handleResetPassword_accepts_any_code (s : ResetPasswordScreen.t) :
  ascii_reset (ResetPasswordScreen.formData s) = true →
  result ResetPasswordScreen.handleResetPassword s = inr tt
  ∧ ResetPasswordScreen.formData (exec ResetPasswordScreen.handleResetPassword s)
    = ResetPasswordScreen.formData s
  ∧ (¬ valid_reset (ResetPasswordScreen.formData s) →
     ResetPasswordScreen.api (exec ResetPasswordScreen.handleResetPassword s)
     = ResetPasswordScreen.api s
     ∧ ResetPasswordScreen.alerts
         (exec ResetPasswordScreen.handleResetPassword s)
       = ResetPasswordScreen.alerts s
     ∧ ResetPasswordScreen.isLoading
         (exec ResetPasswordScreen.handleResetPassword s)
       = ResetPasswordScreen.isLoading s
     ∧ ResetPasswordScreen.no_errors
         (ResetPasswordScreen.errors
            (exec ResetPasswordScreen.handleResetPassword s))
       = false)
  ∧ (valid_reset (ResetPasswordScreen.formData s) →
     ResetPasswordScreen.isLoading
       (exec ResetPasswordScreen.handleResetPassword s)
     = false
     ∧ ResetPasswordScreen.alerts
         (exec ResetPasswordScreen.handleResetPassword s)
       = ResetPasswordScreen.alerts s
         ++ [if decide
                  (Exists (λ u, User.email u = ResetPasswordScreen.email s)
                     (Api.users (ResetPasswordScreen.api s)))
             then ("Sucesso", "Senha alterada com sucesso!")
             else ("Erro", "Código OTP inválido ou expirado")]).
Proof.
  intros _.
  destruct (reset_validateForm_run s) as (e & Hrun & Hvalid).
  unfold result, exec, ResetPasswordScreen.handleResetPassword, mbind, Eff_bind.
  rewrite Hrun.
  destruct (ResetPasswordScreen.no_errors e) eqn:Hno; simpl.
  - unfold try_finally, try_catch, ResetPasswordScreen.service, zoom,
      mbind, Eff_bind, gets. simpl.
    destruct (resetPassword_answers (ResetPasswordScreen.email s)
                (ResetPasswordScreen.otp (ResetPasswordScreen.formData s))
                (ResetPasswordScreen.newPassword
                   (ResetPasswordScreen.formData s))
                (ResetPasswordScreen.api s)) as [w' ->].
    destruct (decide
                (Exists (λ u, User.email u = ResetPasswordScreen.email s)
                   (Api.users (ResetPasswordScreen.api s)))) as [Hin|Hout].
    + rewrite bool_decide_eq_true_2 by done. simpl.
      split_and!; try done. intros Hbad. destruct Hbad. by apply Hvalid.
    + rewrite bool_decide_eq_false_2 by done. simpl.
      split_and!; try done. intros Hbad. destruct Hbad. by apply Hvalid.
  - split_and!; try done. intros Hok%Hvalid. done.
Qed.

Lemma handleResetPassword_accepts_any_code_witness :
  result ResetPasswordScreen.handleResetPassword Filled.reset = inr tt
  ∧ ResetPasswordScreen.formData (exec ResetPasswordScreen.handleResetPassword Filled.reset)
    = ResetPasswordScreen.formData Filled.reset
  ∧ (¬ valid_reset (ResetPasswordScreen.formData Filled.reset) →
     ResetPasswordScreen.api (exec ResetPasswordScreen.handleResetPassword Filled.reset)
     = ResetPasswordScreen.api Filled.reset
     ∧ ResetPasswordScreen.alerts
         (exec ResetPasswordScreen.handleResetPassword Filled.reset)
       = ResetPasswordScreen.alerts Filled.reset
     ∧ ResetPasswordScreen.isLoading
         (exec ResetPasswordScreen.handleResetPassword Filled.reset)
       = ResetPasswordScreen.isLoading Filled.reset
     ∧ ResetPasswordScreen.no_errors
         (ResetPasswordScreen.errors
            (exec ResetPasswordScreen.handleResetPassword Filled.reset))
       = false)
  ∧ (valid_reset (ResetPasswordScreen.formData Filled.reset) →
     ResetPasswordScreen.isLoading
       (exec ResetPasswordScreen.handleResetPassword Filled.reset)
     = false
     ∧ ResetPasswordScreen.alerts
         (exec ResetPasswordScreen.handleResetPassword Filled.reset)
       = ResetPasswordScreen.alerts Filled.reset
         ++ [if decide
                  (Exists (λ u, User.email u = ResetPasswordScreen.email Filled.reset)
                     (Api.users (ResetPasswordScreen.api Filled.reset)))
             then ("Sucesso", "Senha alterada com sucesso!")
             else ("Erro", "Código OTP inválido ou expirado")]).
Proof.
  apply (handleResetPassword_accepts_any_code Filled.reset). reflexivity.
Defined.

Example handleResetPassword_sample :
  ResetPasswordScreen.alerts
    (exec ResetPasswordScreen.handleResetPassword
       (ResetPasswordScreen.mk "ana@example.com"
          (ResetPasswordScreen.mkFormData "000000" "secret2" "secret2")
          (ResetPasswordScreen.mkErrors None None None) false []
          Sample.world))
  = [("Sucesso", "Senha alterada com sucesso!")]
  ∧ ResetPasswordScreen.alerts
      (exec ResetPasswordScreen.handleResetPassword
         (ResetPasswordScreen.mk "nobody@example.com"
            (ResetPasswordScreen.mkFormData "abcdef" "secret2" "secret2")
            (ResetPasswordScreen.mkErrors None None None) false []
            Sample.world))
    = [("Erro", "Código OTP inválido ou expirado")].
Proof. split; vm_compute; reflexivity. Qed.
